(** * BlueFusion / RV1106 HFP toolkit: a shallow embedding of the Python sources

    The development follows the repository module by module:

    - [H5]               [rtk_firmware_loader.py], class [H5Protocol]
    - [FirmwareLoader]   [rtk_firmware_loader.py], class [RTL8723DFirmwareLoader]
    - [AutoConnect]      [auto_connect_manager.py]
    - [HFP]              [hfp_handler.py]
    - [SCOMonitor]       [advanced_sco_monitor.py], [_calculate_mos]
    - [PatternMatcher]   [hex_pattern_matcher.py]
    - [PacketInspector]  [packet_inspector.py], [_to_hex_dump]
    - [Bringup]          [rtk_firmware_loader.py], frames on the wire,
                         [load_firmware], [change_baud_rate]
    - [Manager]          [auto_connect_manager.py], connection slots, the
                         queue, device health
    - [Indicators]       [hfp_handler.py], [+CIND:] responses and what a
                         trace can reach
    - [PatternReport]    [hex_pattern_matcher.py], pattern sizes,
                         [find_sequences]
    - [Inspector]        [packet_inspector.py], history, statistics,
                         protocol detection

    Python [bytes] are lists of integers in [0, 256); Python [int] is [Z];
    Python [float] quantities (delays, timestamps, scores) are idealised as
    exact rationals [Q]; exceptions are explicit results. *)

From Stdlib Require Import ZArith QArith Qround Qpower List Lia Lqa Bool String Ascii Sorted.
From stdpp Require Import base tactics option list gmap.

Local Open Scope Z_scope.

(** ** Python values shared by the modules *)

Module Py.

(** The outcome of a call that may raise. *)
Inductive result (E A : Type) : Type :=
| Ok (a : A)
| Raise (e : E).
Arguments Ok {E A} a.
Arguments Raise {E A} e.

Definition is_byte (b : Z) : Prop := 0 <= b < 256.
Definition is_byteb (b : Z) : bool := (0 <=? b) && (b <? 256).
Definition bytes_ok (l : list Z) : Prop := Forall is_byte l.

(** [data[lo:hi]] for non-negative bounds. *)
Definition slice {A} (l : list A) (lo hi : nat) : list A :=
  take (hi - lo) (drop lo l).

(** [c = 0; for b in l: c ^= b]. *)
Definition xor_all (acc : Z) (l : list Z) : Z := fold_left Z.lxor l acc.

End Py.

Import Py.

(** ** [H5Protocol]: three-wire UART framing *)

Module H5.

Inductive H5PacketType : Type :=
| ACK | HCI_COMMAND | HCI_ACLDATA | HCI_SCODATA | HCI_EVENT | VENDOR | LINK_CONTROL.

(** The [IntEnum] values. *)
Definition type_value (t : H5PacketType) : Z :=
  match t with
  | ACK => 0x00 | HCI_COMMAND => 0x01 | HCI_ACLDATA => 0x02 | HCI_SCODATA => 0x03
  | HCI_EVENT => 0x04 | VENDOR => 0x0E | LINK_CONTROL => 0x0F
  end.

(** [H5PacketType(v)]: the member with value [v], [None] where Python
    raises [ValueError]. *)
Definition type_of_value (v : Z) : option H5PacketType :=
  if v =? 0x00 then Some ACK
  else if v =? 0x01 then Some HCI_COMMAND
  else if v =? 0x02 then Some HCI_ACLDATA
  else if v =? 0x03 then Some HCI_SCODATA
  else if v =? 0x04 then Some HCI_EVENT
  else if v =? 0x0E then Some VENDOR
  else if v =? 0x0F then Some LINK_CONTROL
  else None.

(** The fields of [H5Protocol] the two methods touch ([sliding_window] is
    never read or written by them). *)
Record H5Protocol : Type := mkH5 { seq_num : Z; ack_num : Z }.

Definition init : H5Protocol := mkH5 0 0.

Inductive H5Error : Type :=
| InvalidPacket            (* ValueError("Invalid H5 packet") *)
| ChecksumMismatch         (* ValueError("Checksum mismatch") *)
| NotAPacketType (v : Z)   (* ValueError raised by H5PacketType(v) *)
| ByteOutOfRange (v : Z).  (* ValueError: byte must be in range(0, 256) *)

(** Storing an integer into a [bytearray] slot or a [bytes] literal. *)
Definition as_byte (v : Z) : result H5Error Z :=
  if is_byteb v then Ok v else Raise (ByteOutOfRange v).

Definition create_packet (self : H5Protocol) (pkt_type : H5PacketType)
    (payload : list Z) : result H5Error (list Z) * H5Protocol :=
  match as_byte (Z.lor (Z.shiftl (seq_num self) 3) (Z.land (ack_num self) 0x07)) with
  | Raise e => (Raise e, self)
  | Ok h1 =>
    let h2 := Z.land (type_value pkt_type) 0x0F in
    let h3 := Z.land (Z.of_nat (length payload)) 0xFF in
    let header := [0xC0; h1; h2; h3] in
    let checksum := xor_all (xor_all 0 (drop 1 header)) payload in
    match as_byte checksum with
    | Raise e => (Raise e, self)
    | Ok c =>
      (Ok (header ++ payload ++ [c; 0xC0]),
       mkH5 ((seq_num self + 1) mod 8) (ack_num self))
    end
  end.

Definition parse_packet (self : H5Protocol) (data : list Z)
    : result H5Error (H5PacketType * list Z) * H5Protocol :=
  let n := length data in
  if (n <? 6)%nat
     || negb (bool_decide (data !! 0%nat = Some 0xC0))
     || negb (bool_decide (data !! (n - 1)%nat = Some 0xC0))
  then (Raise InvalidPacket, self)
  else
    let d1 := default 0 (data !! 1%nat) in
    let seq := Z.land (Z.shiftr d1 3) 0x07 in
    let pkt_type := Z.land (default 0 (data !! 2%nat)) 0x0F in
    let payload := slice data 4 (n - 2) in
    let checksum := default 0 (data !! (n - 2)%nat) in
    let calc_checksum := xor_all 0 (slice data 1 (n - 2)) in
    if negb (calc_checksum =? checksum) then (Raise ChecksumMismatch, self)
    else
      let self' := mkH5 (seq_num self) seq in
      match type_of_value pkt_type with
      | Some t => (Ok (t, payload), self')
      | None => (Raise (NotAPacketType pkt_type), self')
      end.

(** The sender's sequence number stays a 3-bit value. *)
Definition wf (self : H5Protocol) : Prop := 0 <= seq_num self < 8.

(** The bytes of the frame [create_packet] builds in state [st]. *)
Definition frame_of (st : H5Protocol) (t : H5PacketType) (p : list Z) : list Z :=
  let h1 := Z.lor (Z.shiftl (seq_num st) 3) (Z.land (ack_num st) 0x07) in
  let h2 := Z.land (type_value t) 0x0F in
  let h3 := Z.land (Z.of_nat (length p)) 0xFF in
  0xC0 :: h1 :: h2 :: h3 :: p ++ [xor_all 0 (h1 :: h2 :: h3 :: p); 0xC0].

(** The frame with its checksum byte (the one before the closing [0xC0])
    replaced. *)
Definition with_checksum (frame : list Z) (c : Z) : list Z :=
  <[(length frame - 2)%nat := c]> frame.

End H5.

(** ** [RTL8723DFirmwareLoader]: HCI commands over H5 and the download loop *)

Module FirmwareLoader.

Inductive LoaderError : Type :=
| TimeoutNoResponse          (* TimeoutError("No response from device") *)
| TimeoutIncomplete          (* TimeoutError("Incomplete packet") *)
| StructError                (* struct.error: argument out of range *)
| H5Failure (e : H5.H5Error).

(** The loader's view of the UART: [h5] is its protocol object, [tx] the
    byte strings handed to [serial.write] (oldest first) and [rx] the bytes
    the device will still deliver; [serial.read(1)] on an exhausted [rx] is
    the read timeout. *)
Record Loader : Type := mkLoader {
  h5 : H5.H5Protocol;
  tx : list (list Z);
  rx : list Z
}.

(** [struct.pack('<HB', h, b)] and [struct.pack('<BH', b, h)]. *)
Definition pack_HB (h b : Z) : option (list Z) :=
  if (0 <=? h) && (h <=? 0xFFFF) && is_byteb b
  then Some [Z.land h 0xFF; Z.shiftr h 8; b] else None.

Definition pack_BH (b h : Z) : option (list Z) :=
  if is_byteb b && (0 <=? h) && (h <=? 0xFFFF)
  then Some [b; Z.land h 0xFF; Z.shiftr h 8] else None.

(** First loop of [read_packet]: discard bytes up to the SLIP start. *)
Fixpoint skip_to_start (rx : list Z) : option (list Z) :=
  match rx with
  | [] => None
  | b :: rest => if b =? 0xC0 then Some rest else skip_to_start rest
  end.

(** Second loop: append bytes to [packet] until the next [0xC0]. *)
Fixpoint read_to_end (packet rx : list Z) : option (list Z * list Z) :=
  match rx with
  | [] => None
  | b :: rest =>
    let packet' := packet ++ [b] in
    if (b =? 0xC0) && (1 <? length packet')%nat then Some (packet', rest)
    else read_to_end packet' rest
  end.

Definition read_packet (self : Loader) : result LoaderError (list Z) * Loader :=
  match skip_to_start (rx self) with
  | None => (Raise TimeoutNoResponse, mkLoader (h5 self) (tx self) [])
  | Some rest =>
    match read_to_end [0xC0] rest with
    | None => (Raise TimeoutIncomplete, mkLoader (h5 self) (tx self) [])
    | Some (packet, rest') =>
      match H5.parse_packet (h5 self) packet with
      | (Ok (_, payload), h5') => (Ok payload, mkLoader h5' (tx self) rest')
      | (Raise e, h5') => (Raise (H5Failure e), mkLoader h5' (tx self) rest')
      end
    end
  end.

Definition send_hci_command (opcode : Z) (params : list Z) (self : Loader)
    : result LoaderError (list Z) * Loader :=
  match pack_HB opcode (Z.of_nat (length params)) with
  | None => (Raise StructError, self)
  | Some hdr =>
    let cmd := hdr ++ params in
    match H5.create_packet (h5 self) H5.HCI_COMMAND cmd with
    | (Raise e, h5') => (Raise (H5Failure e), mkLoader h5' (tx self) (rx self))
    | (Ok packet, h5') =>
      read_packet (mkLoader h5' (tx self ++ [packet]) (rx self))
    end
  end.

Definition chunk_size : nat := 252.
Definition header_size : nat := 16.

(** The [while offset < len(fw_data)] loop of [load_firmware]; the progress
    arithmetic only feeds the logger and is left out.  [fuel] bounds the
    number of iterations; [None] is fuel exhaustion. *)
Fixpoint download_loop (fuel : nat) (fw_data : list Z) (offset : nat) (self : Loader)
    : option (result LoaderError unit * Loader) :=
  match fuel with
  | O => None
  | S fuel' =>
    if (offset <? length fw_data)%nat then
      let chunk := slice fw_data offset (offset + chunk_size) in
      match chunk with
      | [] => Some (Ok tt, self)
      | _ :: _ =>
        match pack_BH 0x20 (Z.of_nat (length chunk)) with
        | None => Some (Raise StructError, self)
        | Some prefix =>
          let download_packet := prefix ++ chunk in
          match send_hci_command 0xFC20 download_packet self with
          | (Raise e, self') => Some (Raise e, self')
          | (Ok _, self') => download_loop fuel' fw_data (offset + chunk_size) self'
          end
        end
      end
    else Some (Ok tt, self)
  end.

(** [struct.unpack('<H', b)[0]] and [struct.unpack('<I', b)[0]]; [None] is
    [struct.error] (wrong buffer size). *)
Definition unpack_H (b : list Z) : option Z :=
  match b with
  | [b0; b1] => Some (b0 + 256 * b1)
  | _ => None
  end.

Definition unpack_I (b : list Z) : option Z :=
  match b with
  | [b0; b1; b2; b3] => Some (b0 + 256 * b1 + 65536 * b2 + 16777216 * b3)
  | _ => None
  end.

Record FirmwareHeader : Type := mkHeader {
  signature : list Z;
  version : Z;
  num_patches : Z;
  patch_length : Z
}.

(** [FirmwareHeader.from_bytes]. *)
Definition from_bytes (data : list Z) : option FirmwareHeader :=
  ver ← unpack_H (slice data 8 10);
  num ← unpack_H (slice data 10 12);
  len ← unpack_I (slice data 12 16);
  Some (mkHeader (slice data 0 8) ver num len).

(** Steps 4 and 5 of [load_firmware], from the bytes of the firmware file:
    parse the header of [fw_data[:16]] (its fields only feed the logger),
    then [offset = 16] and the loop.  One iteration per started chunk, so
    [length fw_data] iterations plus the final test always suffice. *)
Definition download_firmware (fw_data : list Z) (self : Loader)
    : option (result LoaderError unit * Loader) :=
  match from_bytes (slice fw_data 0 16) with
  | None => Some (Raise StructError, self)
  | Some _ => download_loop (S (length fw_data)) fw_data header_size self
  end.

(** The [k]-th chunk of the firmware body. *)
Definition chunk_at (fw_data : list Z) (k : nat) : list Z :=
  slice fw_data (header_size + k * chunk_size) (header_size + k * chunk_size + chunk_size).

(** The bytes of the HCI command packet [send_hci_command] builds. *)
Definition hci_command_bytes (opcode : Z) (params : list Z) : list Z :=
  [Z.land opcode 0xFF; Z.shiftr opcode 8; Z.of_nat (length params)] ++ params.

(** The parameters of the download command for one chunk. *)
Definition download_params (chunk : list Z) : list Z :=
  let n := Z.of_nat (length chunk) in
  [0x20; Z.land n 0xFF; Z.shiftr n 8] ++ chunk.

(** The HCI command that carries the [k]-th chunk. *)
Definition chunk_command (fw_data : list Z) (k : nat) : list Z :=
  hci_command_bytes 0xFC20 (download_params (chunk_at fw_data k)).

(** The HCI command a written frame carries, as the peer parses it. *)
Definition command_in (frame : list Z) : option (list Z) :=
  match H5.parse_packet H5.init frame with
  | (Ok (H5.HCI_COMMAND, cmd), _) => Some cmd
  | _ => None
  end.

(** The reading of the download step in which the first parameter byte of
    the [k]-th download command is the chunk's running index, counted
    from [base]. *)
Definition index_prefixed (base : Z) (fw_data : list Z) (self : Loader) : Prop :=
  forall r self' k frame cmd,
    download_firmware fw_data self = Some (r, self') ->
    tx self' !! k = Some frame ->
    command_in frame = Some cmd ->
    cmd !! 3%nat = Some (base + Z.of_nat k).

(** A device that acknowledges [n] commands, each with the empty-payload
    event frame [C0 00 04 00 04 C0]. *)
Definition ack_frame : list Z := [0xC0; 0x00; 0x04; 0x00; 0x04; 0xC0].
Definition acks (n : nat) : list Z := concat (replicate n ack_frame).

(** A firmware image with a 300-byte body (two chunks), and a device that
    acknowledges both download commands. *)
Definition sample_fw : list Z := repeat 0 16 ++ repeat 7 300.
Definition sample_loader : Loader := mkLoader H5.init [] (acks 2).

End FirmwareLoader.

(** ** [auto_connect_manager.py]: retry policy of a managed connection *)

Module AutoConnect.

Inductive ConnectionState : Type :=
| DISCONNECTED | CONNECTING | CONNECTED | RECONNECTING | FAILED | PAUSED.

Inductive ConnectionPriority : Type := HIGH | MEDIUM | LOW.

Inductive RetryStrategy : Type :=
| EXPONENTIAL_BACKOFF | FIXED_INTERVAL | LINEAR_BACKOFF.

Record ConnectionConfig : Type := mkConfig {
  max_retries : Z;
  initial_retry_delay : Q;
  max_retry_delay : Q;
  retry_strategy : RetryStrategy;
  connection_timeout : Q;
  stability_check_interval : Q;
  reconnect_on_failure : bool;
  health_check_interval : Q;
  max_consecutive_failures : Z;
  priority : ConnectionPriority;
  max_concurrent_connections : Z
}.

(** The dataclass defaults. *)
Definition default_config : ConnectionConfig :=
  mkConfig 5 1 60 EXPONENTIAL_BACKOFF 30 10 true 30 3 MEDIUM 5.

(** Counters start at zero and are only incremented or reset, so they are
    natural numbers; instants ([datetime], [time.time()]) are seconds. *)
Record ConnectionMetrics : Type := mkMetrics {
  total_attempts : N;
  successful_connections : N;
  failed_connections : N;
  last_connected : option Q;
  last_failure : option Q;
  average_connection_time : Q;
  connection_uptime : Q;
  stability_score : Q;
  consecutive_failures : N
}.

Definition new_metrics : ConnectionMetrics :=
  mkMetrics 0 0 0 None None 0 0 0 0.

Record ManagedConnection : Type := mkConnection {
  config : ConnectionConfig;
  state : ConnectionState;
  metrics : ConnectionMetrics;
  retry_count : Z;
  connection_start_time : option Q;
  last_activity : option Q;
  is_enabled : bool;
  pause_until : option Q
}.

(** [ManagedConnection.__init__]. *)
Definition new_connection (cfg : ConnectionConfig) : ManagedConnection :=
  mkConnection cfg DISCONNECTED new_metrics 0 None None true None.

(** Python's [min(a, b)]: [b] when [b < a], otherwise [a]. *)
Definition py_min (a b : Q) : Q := if Qle_bool a b then a else b.

(** [calculate_retry_delay()] on exact rationals.  For a float
    [initial_retry_delay] the code raises [OverflowError] when
    [2 ** retry_count] does not fit a float, that is from a retry count of
    1024 on; the value below is what it returns for retry counts from 0 to
    1023. *)
Definition calculate_retry_delay (self : ManagedConnection) : Q :=
  let cfg := config self in
  let delay :=
    match retry_strategy cfg with
    | EXPONENTIAL_BACKOFF => (initial_retry_delay cfg * Qpower 2 (retry_count self))%Q
    | LINEAR_BACKOFF => (initial_retry_delay cfg * inject_Z (1 + retry_count self))%Q
    | FIXED_INTERVAL => initial_retry_delay cfg
    end in
  py_min delay (max_retry_delay cfg).

Definition with_metrics (self : ManagedConnection) (m : ConnectionMetrics) : ManagedConnection :=
  mkConnection (config self) (state self) m (retry_count self)
    (connection_start_time self) (last_activity self) (is_enabled self) (pause_until self).

Definition with_state (self : ManagedConnection) (s : ConnectionState) : ManagedConnection :=
  mkConnection (config self) s (metrics self) (retry_count self)
    (connection_start_time self) (last_activity self) (is_enabled self) (pause_until self).

Definition with_retry_count (self : ManagedConnection) (r : Z) : ManagedConnection :=
  mkConnection (config self) (state self) (metrics self) r
    (connection_start_time self) (last_activity self) (is_enabled self) (pause_until self).

Definition with_last_activity (self : ManagedConnection) (t : Q) : ManagedConnection :=
  mkConnection (config self) (state self) (metrics self) (retry_count self)
    (connection_start_time self) (Some t) (is_enabled self) (pause_until self).

Definition with_enabled (self : ManagedConnection) (b : bool) : ManagedConnection :=
  mkConnection (config self) (state self) (metrics self) (retry_count self)
    (connection_start_time self) (last_activity self) b (pause_until self).

(** A truthy [connection_time]: given and non-zero. *)
Definition truthy_time (t : option Q) : option Q :=
  match t with
  | Some q => if Qeq_bool q 0 then None else Some q
  | None => None
  end.

(** [update_metrics(success, connection_time)], [now] being [datetime.now()]. *)
Definition update_metrics (success : bool) (connection_time : option Q) (now : Q)
    (self : ManagedConnection) : ManagedConnection :=
  let m := metrics self in
  let total := (total_attempts m + 1)%N in
  let m1 :=
    if success then
      let succ := (successful_connections m + 1)%N in
      let avg :=
        match truthy_time connection_time with
        | Some ct =>
          let total_time := (average_connection_time m * inject_Z (Z.of_N succ - 1))%Q in
          ((total_time + ct) / inject_Z (Z.of_N succ))%Q
        | None => average_connection_time m
        end in
      mkMetrics total succ (failed_connections m) (Some now) (last_failure m)
        avg (connection_uptime m) (stability_score m) 0
    else
      mkMetrics total (successful_connections m) (failed_connections m + 1)%N
        (last_connected m) (Some now) (average_connection_time m)
        (connection_uptime m) (stability_score m) (consecutive_failures m + 1)%N in
  let score := (inject_Z (Z.of_N (successful_connections m1)) / inject_Z (Z.of_N total))%Q in
  with_metrics self
    (mkMetrics (total_attempts m1) (successful_connections m1) (failed_connections m1)
       (last_connected m1) (last_failure m1) (average_connection_time m1)
       (connection_uptime m1) score (consecutive_failures m1)).

(** [should_retry()], [now] being [datetime.now()]. *)
Definition should_retry (now : Q) (self : ManagedConnection) : bool :=
  if negb (is_enabled self) then false
  else if match pause_until self with
          | Some t => negb (Qle_bool t now)
          | None => false
          end then false
  else if retry_count self >=? max_retries (config self) then false
  else if Z.of_N (consecutive_failures (metrics self))
          >=? max_consecutive_failures (config self) then false
  else true.

(** [pause(duration)]. *)
Definition pause (duration now : Q) (self : ManagedConnection) : ManagedConnection :=
  mkConnection (config self) PAUSED (metrics self) (retry_count self)
    (connection_start_time self) (last_activity self) (is_enabled self)
    (Some (now + duration)%Q).

(** What [await asyncio.wait_for(ble_interface.connect(address), timeout)]
    does: returns a truthy or falsy value, times out, or raises. *)
Inductive ConnectOutcome : Type :=
| ConnectTrue | ConnectFalse | ConnectTimeout | ConnectRaises (msg : string).

(** The events [_attempt_connection] hands to [_emit_event], with their data. *)
Inductive Event : Type :=
| connection_attempt (retry : Z)
| connection_success (connection_time : Q) (retry : Z)
| connection_failed (retry : Z) (next_retry_delay : Q)
| connection_timeout_event (retry : Z) (timeout : Q)
| connection_error (msg : string) (retry : Z).

(** [_attempt_connection] on one managed connection.  [t0] and [t1] are the
    two readings of [time.time()], [now] the reading of [datetime.now()].
    Delays are exact rationals: the path on which [calculate_retry_delay]
    raises [OverflowError] inside the [try] (a retry count of 1024 or more
    under exponential back-off), where the [except Exception] branch counts
    the failure and the retry a second time, is not modelled. *)
Definition attempt_connection (outcome : ConnectOutcome) (t0 t1 now : Q)
    (self : ManagedConnection) : ManagedConnection * list Event :=
  let c0 := mkConnection (config self) CONNECTING (metrics self) (retry_count self)
              (Some t0) (last_activity self) (is_enabled self) (pause_until self) in
  let ev0 := connection_attempt (retry_count c0) in
  let failed c := update_metrics false None now
                    (with_retry_count (with_state c FAILED) (retry_count c + 1)) in
  match outcome with
  | ConnectTrue =>
    let connection_time := (t1 - t0)%Q in
    let c1 := with_last_activity (with_retry_count (with_state c0 CONNECTED) 0) now in
    let c2 := update_metrics true (Some connection_time) now c1 in
    (c2, [ev0; connection_success connection_time (retry_count c2)])
  | ConnectFalse =>
    let c1 := failed c0 in
    (c1, [ev0; connection_failed (retry_count c1) (calculate_retry_delay c1)])
  | ConnectTimeout =>
    let c1 := failed c0 in
    (c1, [ev0; connection_timeout_event (retry_count c1) (connection_timeout (config c1))])
  | ConnectRaises msg =>
    let c1 := failed c0 in
    (c1, [ev0; connection_error msg (retry_count c1)])
  end.

(** What happens to one connection between two looks at [should_retry]:
    the branches of [_connection_manager], [_monitor_connection_health],
    [_stability_monitor] and [_on_ble_event], the enable, disable and pause
    entry points, and the reset-metrics route of [fastapi_server.py]. *)
Inductive Op : Type :=
| OpAttempt (outcome : ConnectOutcome) (t0 t1 now : Q)
| OpRetryWait                 (* FAILED: sleep, then DISCONNECTED *)
| OpPauseExpired              (* PAUSED: deadline passed *)
| OpHealthLost                (* health check failed: DISCONNECTED *)
| OpHealthOk (now : Q)        (* health check answered *)
| OpUptime (uptime : Q)       (* stability monitor pass *)
| OpBleConnection (now : Q)   (* a "connection" packet *)
| OpBleDisconnection (now : Q)
| OpEnable
| OpDisable
| OpPause (duration now : Q)
| OpResetMetrics.             (* the reset-metrics API route *)

Definition apply_op (op : Op) (self : ManagedConnection) : ManagedConnection :=
  match op with
  | OpAttempt outcome t0 t1 now => fst (attempt_connection outcome t0 t1 now self)
  | OpRetryWait => with_state self DISCONNECTED
  | OpPauseExpired =>
    mkConnection (config self) DISCONNECTED (metrics self) (retry_count self)
      (connection_start_time self) (last_activity self) (is_enabled self) None
  | OpHealthLost => with_state self DISCONNECTED
  | OpHealthOk now => with_last_activity self now
  | OpUptime uptime =>
    match state self, connection_start_time self with
    | CONNECTED, Some _ =>
      let m := metrics self in
      with_metrics self
        (mkMetrics (total_attempts m) (successful_connections m) (failed_connections m)
           (last_connected m) (last_failure m) (average_connection_time m)
           uptime (stability_score m) (consecutive_failures m))
    | _, _ => self
    end
  | OpBleConnection now =>
    with_retry_count (with_state (with_last_activity self now) CONNECTED) 0
  | OpBleDisconnection now =>
    let c := with_last_activity self now in
    if reconnect_on_failure (config c)
    then with_retry_count (with_state c DISCONNECTED) 0 else c
  | OpEnable => with_enabled self true
  | OpDisable => with_enabled self false
  | OpPause duration now => pause duration now self
  | OpResetMetrics => with_retry_count (with_metrics self new_metrics) 0
  end.

(** A successful connection attempt. *)
Definition is_success (op : Op) : bool :=
  match op with
  | OpAttempt ConnectTrue _ _ _ => true
  | _ => false
  end.


(** An attempt that did not connect. *)
Definition failed (o : ConnectOutcome) : Prop := o <> ConnectTrue.

Definition run_ops (ops : list Op) (self : ManagedConnection) : ManagedConnection :=
  fold_left (fun c op => apply_op op c) ops self.

(** Scenario configuration: three retries, exponential back-off from 1 s,
    capped at 60 s, everything else at its default. *)
Definition scenario_config : ConnectionConfig :=
  mkConfig 3 1 60 EXPONENTIAL_BACKOFF 30 10 true 30 3 MEDIUM 5.

(** The [next_retry_delay] carried by a [connection_failed] event. *)
Definition next_retry_delay_of (evs : list Event) : option Q :=
  match evs with
  | [_; connection_failed _ d] => Some d
  | _ => None
  end.

End AutoConnect.

(** ** Python [str] operations used by the HFP handler

    Commands are ASCII text; a character is an [ascii]. *)

Module PyStr.

Local Open Scope string_scope.
Local Open Scope char_scope.

Definition code (a : ascii) : nat := nat_of_ascii a.

(** ASCII characters [str.strip()] treats as whitespace. *)
Definition is_space (a : ascii) : bool :=
  let c := code a in
  (((9 <=? c) && (c <=? 13)) || ((28 <=? c) && (c <=? 32)))%nat.

Definition is_digit (a : ascii) : bool :=
  let c := code a in ((48 <=? c) && (c <=? 57))%nat.

(** [\w] on ASCII text: letters, digits and the underscore. *)
Definition is_word (a : ascii) : bool :=
  let c := code a in
  (is_digit a || ((65 <=? c) && (c <=? 90)) || ((97 <=? c) && (c <=? 122))
   || (c =? 95))%nat.

(** The class [[0-9,-]]. *)
Definition is_range_char (a : ascii) : bool :=
  is_digit a || Ascii.eqb a "," || Ascii.eqb a "-".

Fixpoint lstrip (s : string) : string :=
  match s with
  | String a rest => if is_space a then lstrip rest else s
  | EmptyString => EmptyString
  end.

Fixpoint rstrip (s : string) : string :=
  match s with
  | String a rest =>
    match rstrip rest with
    | EmptyString => if is_space a then EmptyString else String a EmptyString
    | rest' => String a rest'
    end
  | EmptyString => EmptyString
  end.

Definition strip (s : string) : string := rstrip (lstrip s).

Definition startswith (s prefix : string) : bool := String.prefix prefix s.

(** [s.split(sep)] for a one-character separator: the current piece and the
    pieces after it. *)
Fixpoint split_aux (sep : ascii) (s : string) : string * list string :=
  match s with
  | EmptyString => (EmptyString, [])
  | String a rest =>
    let '(cur, more) := split_aux sep rest in
    if Ascii.eqb a sep then (EmptyString, cur :: more) else (String a cur, more)
  end.

Definition split (sep : ascii) (s : string) : list string :=
  let '(cur, more) := split_aux sep s in cur :: more.

(** The digits of an [int()] literal: decimal digits, single underscores
    allowed between digits.  [acc] is the value read so far, [after_digit]
    tells whether the previous character was a digit. *)
Fixpoint digits (s : string) (acc : Z) (after_digit : bool) : option Z :=
  match s with
  | EmptyString => if after_digit then Some acc else None
  | String a rest =>
    if is_digit a then digits rest (10 * acc + Z.of_nat (code a - 48)) true
    else if Ascii.eqb a "_" && after_digit then digits rest acc false
    else None
  end.

(** ASCII characters [int()] skips around a literal: tab to carriage
    return and the space.  The separators 28 to 31, which [str.strip()]
    removes, make [int()] raise. *)
Definition is_int_space (a : ascii) : bool :=
  let c := code a in
  (((9 <=? c) && (c <=? 13)) || (c =? 32))%nat.

Fixpoint int_lstrip (s : string) : string :=
  match s with
  | String a rest => if is_int_space a then int_lstrip rest else s
  | EmptyString => EmptyString
  end.

Fixpoint int_rstrip (s : string) : string :=
  match s with
  | String a rest =>
    match int_rstrip rest with
    | EmptyString => if is_int_space a then EmptyString else String a EmptyString
    | rest' => String a rest'
    end
  | EmptyString => EmptyString
  end.

(** [int(s)] in base 10; [None] is [ValueError]. *)
Definition int (s : string) : option Z :=
  match int_rstrip (int_lstrip s) with
  | String "-" rest => option_map Z.opp (digits rest 0 false)
  | String "+" rest => digits rest 0 false
  | body => digits body 0 false
  end.

(** The longest prefix of characters satisfying [p], and the rest. *)
Fixpoint span (p : ascii -> bool) (s : string) : string * string :=
  match s with
  | String a rest =>
    if p a then let '(pre, post) := span p rest in (String a pre, post)
    else (EmptyString, s)
  | EmptyString => (EmptyString, EmptyString)
  end.

(** The line feed. *)
Definition nl : ascii := ascii_of_nat 10.

(** [c not in s]. *)
Fixpoint free_of (c : ascii) (s : string) : bool :=
  match s with
  | EmptyString => true
  | String a rest => negb (Ascii.eqb a c) && free_of c rest
  end.

End PyStr.

(** ** [hfp_handler.py]: the HFP protocol handler *)

Module HFP.

Local Open Scope string_scope.
Local Open Scope Z_scope.

Inductive HFPState : Type :=
| DISCONNECTED | CONNECTING | SLC_CONNECTING | CONNECTED
| AUDIO_CONNECTING | AUDIO_CONNECTED | DISCONNECTING.

Inductive HFPRole : Type := AG | HF.

Record ATCommand : Type := mkAT {
  timestamp : Q;
  command : string;
  response : string;
  direction : string;
  at_state : HFPState
}.

Record HFPFeatures : Type := mkFeatures {
  ec_nr : bool;
  three_way_calling : bool;
  cli_presentation : bool;
  voice_recognition : bool;
  remote_volume_control : bool;
  enhanced_call_status : bool;
  enhanced_call_control : bool;
  codec_negotiation : bool;
  hf_indicators : bool;
  esco_s4 : bool;
  ag_three_way_calling : bool;
  ag_ec_nr : bool;
  ag_voice_recognition : bool;
  ag_inband_ringtone : bool;
  ag_voice_tag : bool;
  ag_reject_call : bool;
  ag_enhanced_call_status : bool;
  ag_enhanced_call_control : bool;
  ag_extended_error : bool;
  ag_codec_negotiation : bool
}.

Definition no_features : HFPFeatures :=
  mkFeatures false false false false false false false false false false
             false false false false false false false false false false.

(** One entry of [self.indicators]: [{'range': ..., 'value': ...}]. *)
Record Indicator : Type := mkIndicator { ind_range : string; ind_value : Z }.

Record CallState : Type := mkCall {
  active : bool;
  incoming : bool;
  outgoing : bool;
  number : option string
}.

(** The handler object.  [indicators] is a Python [dict]: keys are unique and
    kept in insertion order, which [_handle_indicator_event] relies on. *)
Record Handler : Type := mkHandler {
  role : HFPRole;
  state : HFPState;
  features : HFPFeatures;
  at_command_flow : list ATCommand;
  supported_codecs : list string;
  selected_codec : string;
  indicators : list (string * Indicator);
  call_state : CallState
}.

(** [HFPProtocolHandler.__init__]. *)
Definition new_handler (r : HFPRole) : Handler :=
  mkHandler r DISCONNECTED no_features [] ["CVSD"] "CVSD" []
    (mkCall false false false None).

Inductive HFPError : Type :=
| ValueError (literal : string)   (* int(): invalid literal for base 10 *)
| IndexError.                     (* list index out of range *)

(** [bool(features & bit)]. *)
Definition has (feat bit : Z) : bool := negb (Z.land feat bit =? 0).

Definition parse_hf_features (feat : Z) (f : HFPFeatures) : HFPFeatures :=
  mkFeatures (has feat 0x01) (has feat 0x02) (has feat 0x04) (has feat 0x08)
    (has feat 0x10) (has feat 0x20) (has feat 0x40) (has feat 0x80)
    (has feat 0x100) (has feat 0x200)
    (ag_three_way_calling f) (ag_ec_nr f) (ag_voice_recognition f)
    (ag_inband_ringtone f) (ag_voice_tag f) (ag_reject_call f)
    (ag_enhanced_call_status f) (ag_enhanced_call_control f)
    (ag_extended_error f) (ag_codec_negotiation f).

Definition parse_ag_features (feat : Z) (f : HFPFeatures) : HFPFeatures :=
  mkFeatures (ec_nr f) (three_way_calling f) (cli_presentation f)
    (voice_recognition f) (remote_volume_control f) (enhanced_call_status f)
    (enhanced_call_control f) (codec_negotiation f) (hf_indicators f) (esco_s4 f)
    (has feat 0x01) (has feat 0x02) (has feat 0x04) (has feat 0x08)
    (has feat 0x10) (has feat 0x20) (has feat 0x40) (has feat 0x80)
    (has feat 0x100) (has feat 0x200).

Definition set_state (s : HFPState) (h : Handler) : Handler :=
  mkHandler (role h) s (features h) (at_command_flow h) (supported_codecs h)
    (selected_codec h) (indicators h) (call_state h).

Definition set_features (f : HFPFeatures) (h : Handler) : Handler :=
  mkHandler (role h) (state h) f (at_command_flow h) (supported_codecs h)
    (selected_codec h) (indicators h) (call_state h).

Definition set_flow (fl : list ATCommand) (h : Handler) : Handler :=
  mkHandler (role h) (state h) (features h) fl (supported_codecs h)
    (selected_codec h) (indicators h) (call_state h).

Definition set_supported (cs : list string) (h : Handler) : Handler :=
  mkHandler (role h) (state h) (features h) (at_command_flow h) cs
    (selected_codec h) (indicators h) (call_state h).

Definition set_selected (c : string) (h : Handler) : Handler :=
  mkHandler (role h) (state h) (features h) (at_command_flow h) (supported_codecs h)
    c (indicators h) (call_state h).

Definition set_indicators (i : list (string * Indicator)) (h : Handler) : Handler :=
  mkHandler (role h) (state h) (features h) (at_command_flow h) (supported_codecs h)
    (selected_codec h) i (call_state h).

Definition set_call_state (c : CallState) (h : Handler) : Handler :=
  mkHandler (role h) (state h) (features h) (at_command_flow h) (supported_codecs h)
    (selected_codec h) (indicators h) c.

(** [parts[1]] of a split; the callers have checked that it exists. *)
Definition second (parts : list string) : string := nth 1 parts "".

(** [int(text)], raising [ValueError] on a bad literal. *)
Definition int_or_raise (text : string) : result HFPError Z :=
  match PyStr.int text with
  | Some z => Ok z
  | None => Raise (ValueError text)
  end.

Definition handle_outgoing_command (cmd : string) (h : Handler)
    : result HFPError unit * Handler :=
  if PyStr.startswith cmd "AT+BRSF=" then
    match int_or_raise (second (PyStr.split "="%char cmd)) with
    | Raise e => (Raise e, h)
    | Ok feat =>
      (Ok tt, set_state SLC_CONNECTING (set_features (parse_hf_features feat (features h)) h))
    end
  else if String.eqb cmd "AT+BAC" then (Ok tt, set_state SLC_CONNECTING h)
  else if String.eqb cmd "AT+CIND=?" then (Ok tt, h)
  else if String.eqb cmd "AT+CIND?" then (Ok tt, h)
  else if String.eqb cmd "AT+CMER" then (Ok tt, set_state CONNECTED h)
  else if String.eqb cmd "AT+BCC" then (Ok tt, set_state AUDIO_CONNECTING h)
  else (Ok tt, h).

(** The double-quote character. *)
Definition dquote : ascii := ascii_of_nat 34.

Definition expect (c : ascii) (s : string) : option string :=
  match s with
  | String a rest => if Ascii.eqb a c then Some rest else None
  | EmptyString => None
  end.

(** One match of the pattern of [_parse_indicators] anchored at the head of
    [s]: a quoted [\w+] name, a comma, and a parenthesised [[0-9,-]+]
    range.  Both classes exclude the character that must follow them, so
    the greedy match is the only one.  Returns the two groups and the text
    after the match. *)
Definition match_indicator (s : string) : option (string * string * string) :=
  s1 ← expect dquote s;
  let '(name, s2) := PyStr.span PyStr.is_word s1 in
  if String.eqb name "" then None else
  s3 ← expect dquote s2;
  s4 ← expect ","%char s3;
  s5 ← expect "("%char s4;
  let '(rng, s6) := PyStr.span PyStr.is_range_char s5 in
  if String.eqb rng "" then None else
  s7 ← expect ")"%char s6;
  Some (name, rng, s7).

(** [re.findall]: leftmost non-overlapping matches.  [skip] counts the
    characters still inside the match found last. *)
Fixpoint findall (skip : nat) (s : string) : list (string * string) :=
  match s with
  | EmptyString => []
  | String _ rest =>
    match skip with
    | S k => findall k rest
    | O =>
      match match_indicator s with
      | Some (name, rng, after) =>
        (name, rng) :: findall (String.length s - String.length after - 1) rest
      | None => findall 0 rest
      end
    end
  end.

(** [d[k] = v] on an insertion-ordered dict. *)
Fixpoint dict_set {V} (k : string) (v : V) (d : list (string * V)) : list (string * V) :=
  match d with
  | [] => [(k, v)]
  | (k', v') :: rest =>
    if String.eqb k k' then (k, v) :: rest else (k', v') :: dict_set k v rest
  end.

Fixpoint dict_get {V} (k : string) (d : list (string * V)) : option V :=
  match d with
  | [] => None
  | (k', v') :: rest => if String.eqb k k' then Some v' else dict_get k rest
  end.

Definition parse_indicators (cind_response : string) (h : Handler) : Handler :=
  let matches := findall 0 cind_response in
  set_indicators
    (fold_left (fun d '(name, range_str) => dict_set name (mkIndicator range_str 0) d)
               matches (indicators h)) h.

(** [l[j]] with Python's negative indices; [None] is [IndexError]. *)
Definition py_index {A} (l : list A) (j : Z) : option A :=
  let n := Z.of_nat (length l) in
  if (0 <=? j) && (j <? n) then l !! Z.to_nat j
  else if (- n <=? j) && (j <? 0) then l !! Z.to_nat (n + j)
  else None.

(** [self.indicators[ind_name]['value'] = value]. *)
Definition set_indicator_value (name : string) (value : Z)
    (d : list (string * Indicator)) : list (string * Indicator) :=
  match dict_get name d with
  | Some ind => dict_set name (mkIndicator (ind_range ind) value) d
  | None => d
  end.

Definition update_call_state (name : string) (value : Z) (c : CallState) : CallState :=
  if String.eqb name "call" then
    mkCall (value =? 1)%Z (incoming c) (outgoing c) (number c)
  else if String.eqb name "callsetup" then
    mkCall (active c) (value =? 1)%Z (value =? 2)%Z (number c)
  else c.

(** The part of [_handle_indicator_event] that follows the two [int()]
    conversions: map the index to an indicator name and store the value. *)
Definition update_indicator (indicator_idx value : Z) (h : Handler)
    : result HFPError unit * Handler :=
  let ind_names := map fst (indicators h) in
  if (indicator_idx <=? Z.of_nat (length ind_names))%Z then
    match py_index ind_names (indicator_idx - 1) with
    | None => (Raise IndexError, h)
    | Some ind_name =>
      (Ok tt,
       set_call_state (update_call_state ind_name value (call_state h))
         (set_indicators (set_indicator_value ind_name value (indicators h)) h))
    end
  else (Ok tt, h).

Definition handle_indicator_event (ciev_command : string) (h : Handler)
    : result HFPError unit * Handler :=
  let parts := PyStr.split ":"%char ciev_command in
  if (1 <? length parts)%nat then
    let ind_val := PyStr.split ","%char (second parts) in
    if (length ind_val =? 2)%nat then
      match int_or_raise (nth 0 ind_val "") with
      | Raise e => (Raise e, h)
      | Ok indicator_idx =>
        match int_or_raise (nth 1 ind_val "") with
        | Raise e => (Raise e, h)
        | Ok value => update_indicator indicator_idx value h
        end
      end
    else (Ok tt, h)
  else (Ok tt, h).

(** The codec names a [+BAC:] list contributes, in order. *)
Fixpoint codecs_of (codecs : list string) : list string :=
  match codecs with
  | [] => []
  | codec :: rest =>
    if String.eqb (PyStr.strip codec) "1" then "CVSD" :: codecs_of rest
    else if String.eqb (PyStr.strip codec) "2" then "mSBC" :: codecs_of rest
    else codecs_of rest
  end.

(** [_handle_incoming_command]; its [response] argument is never read. *)
Definition handle_incoming_command (cmd : string) (h : Handler)
    : result HFPError unit * Handler :=
  if PyStr.startswith cmd "+BRSF:" then
    match int_or_raise (second (PyStr.split ":"%char cmd)) with
    | Raise e => (Raise e, h)
    | Ok feat => (Ok tt, set_features (parse_ag_features feat (features h)) h)
    end
  else if PyStr.startswith cmd "+BAC:" then
    (Ok tt, set_supported
              (codecs_of (PyStr.split ","%char (second (PyStr.split ":"%char cmd)))) h)
  else if PyStr.startswith cmd "+BCS:" then
    match int_or_raise (second (PyStr.split ":"%char cmd)) with
    | Raise e => (Raise e, h)
    | Ok codec_id =>
      (Ok tt, set_state AUDIO_CONNECTED
                (set_selected (if (codec_id =? 2)%Z then "mSBC" else "CVSD") h))
    end
  else if PyStr.startswith cmd "+CIND:" then (Ok tt, parse_indicators cmd h)
  else if PyStr.startswith cmd "+CIEV:" then handle_indicator_event cmd h
  else (Ok tt, h).

(** [process_at_command(command, response, direction)]; [now] is the reading
    of [time.time()].  The trace entry is appended before the command is
    interpreted, so it stays when the interpretation raises. *)
Definition process_at_command (cmd resp dir : string) (now : Q) (h : Handler)
    : result HFPError unit * Handler :=
  let at_cmd := mkAT now (PyStr.strip cmd) (PyStr.strip resp) dir (state h) in
  let h1 := set_flow (at_command_flow h ++ [at_cmd])%list h in
  if String.eqb dir "TX" then handle_outgoing_command cmd h1
  else handle_incoming_command cmd h1.

Definition state_value (s : HFPState) : string :=
  match s with
  | DISCONNECTED => "DISCONNECTED" | CONNECTING => "CONNECTING"
  | SLC_CONNECTING => "SLC_CONNECTING" | CONNECTED => "CONNECTED"
  | AUDIO_CONNECTING => "AUDIO_CONNECTING" | AUDIO_CONNECTED => "AUDIO_CONNECTED"
  | DISCONNECTING => "DISCONNECTING"
  end.

Definition state_eqb (a b : HFPState) : bool := String.eqb (state_value a) (state_value b).

(** An element of [analysis['likely_issues']]: a fixed message, or the
    slow-response message, which embeds the average delay. *)
Inductive Issue : Type :=
| Msg (text : string)
| SlowCommandResponse (avg_delay : Q).

Record FlowEntry : Type := mkFlowEntry {
  fe_time : Q;
  fe_command : string;
  fe_direction : string;
  fe_state : string
}.

Record Analysis : Type := mkAnalysis {
  last_state : string;
  total_commands : nat;
  an_codec_negotiation : bool;
  an_selected_codec : string;
  an_supported_codecs : list string;
  likely_issues : list Issue;
  command_flow : list FlowEntry
}.

(** [timestamp[i] - timestamp[i-1]] for [i] from 1. *)
Fixpoint cmd_delays (flow : list ATCommand) : list Q :=
  match flow with
  | a :: (b :: _) as rest => (timestamp b - timestamp a)%Q :: cmd_delays rest
  | _ => []
  end.

Definition qsum (l : list Q) : Q := fold_left Qplus l 0%Q.

Definition in_strings (x : string) (l : list string) : bool :=
  existsb (String.eqb x) l.

Definition state_issues (h : Handler) : list Issue :=
  if state_eqb (state h) SLC_CONNECTING then
    ([Msg "Service Level Connection failed"] ++
     (if codec_negotiation (features h)
         && negb (existsb (fun c => PyStr.startswith (command c) "+BCS") (at_command_flow h))
      then [Msg "Codec negotiation incomplete"] else []))%list
  else if state_eqb (state h) AUDIO_CONNECTING then
    ([Msg "SCO audio connection failed"] ++
     (if in_strings "mSBC" (supported_codecs h) && String.eqb (selected_codec h) "CVSD"
      then [Msg "mSBC available but not selected"] else []))%list
  else [].

Definition timing_issues (h : Handler) : list Issue :=
  if (1 <? length (at_command_flow h))%nat then
    let ds := cmd_delays (at_command_flow h) in
    let avg_delay := (qsum ds / inject_Z (Z.of_nat (length ds)))%Q in
    if negb (Qle_bool avg_delay 1) then [SlowCommandResponse avg_delay] else []
  else [].

Definition analyze_failure (h : Handler) : Analysis :=
  let flow := at_command_flow h in
  let t0 := match flow with c :: _ => timestamp c | [] => 0%Q end in
  mkAnalysis (state_value (state h)) (length flow)
    (codec_negotiation (features h) && ag_codec_negotiation (features h))
    (selected_codec h) (supported_codecs h)
    (state_issues h ++ timing_issues h)%list
    (map (fun c => mkFlowEntry (timestamp c - t0)%Q (command c) (direction c)
                     (state_value (at_state c)))
         (drop (length flow - 10) flow)).

(** A step of a command trace: command text, direction and the clock. *)
Definition Step : Type := (string * string * Q)%type.

(** Feed a trace to the handler one call at a time.  A call that raises
    leaves the handler as the exception found it and the next call goes
    on from there, as for the API route that calls [process_at_command]
    once per request. *)
Definition run_trace (steps : list Step) (h : Handler) : Handler :=
  fold_left (fun h '(cmd, dir, now) => snd (process_at_command cmd "" dir now h)) steps h.

(** The outcomes of the calls of a trace, in order. *)
Fixpoint trace_outcomes (steps : list Step) (h : Handler) : list (result HFPError unit) :=
  match steps with
  | [] => []
  | (cmd, dir, now) :: rest =>
    let '(r, h') := process_at_command cmd "" dir now h in
    r :: trace_outcomes rest h'
  end.

Definition q : string := String dquote EmptyString.

(** The command texts of the stall-diagnosis scenario. *)
Definition cind_text : string :=
  "+CIND: (" ++ q ++ "call" ++ q ++ ",(0,1)),(" ++ q ++ "callsetup" ++ q ++ ",(0-3))".

Definition slc_trace (t1 t2 t3 t4 t5 t6 : Q) : list Step :=
  [ ("AT+BRSF=0x80", "TX", t1);
    ("+BRSF:0x200", "RX", t2);
    ("AT+BAC=1,2", "TX", t3);
    ("AT+CIND=?", "TX", t4);
    (cind_text, "RX", t5);
    ("AT+CMER=3,0,0,1", "TX", t6) ].

Definition bcc_step (t7 : Q) : Step := ("AT+BCC", "TX", t7).

(** [update_indicator] stored [value] in the [j]-th registered indicator
    and left the other entries, the names and the ranges as they were. *)
Definition updated_at (j : nat) (value : Z) (h : Handler)
    (out : result HFPError unit * Handler) : Prop :=
  exists name ind,
    indicators h !! j = Some (name, ind)
    /\ fst out = Ok tt
    /\ indicators (snd out) = <[j := (name, mkIndicator (ind_range ind) value)]> (indicators h).

(** The handler once the two indicators of the scenario are registered. *)
Definition two_indicators : Handler :=
  snd (process_at_command cind_text "" "RX" 0 (new_handler HF)).

Definition has_issue (text : string) (a : Analysis) : bool :=
  existsb (fun i => match i with Msg m => String.eqb m text | _ => false end)
          (likely_issues a).

End HFP.

(** ** [advanced_sco_monitor.py]: [_calculate_mos] *)

Module SCOMonitor.

Local Open Scope Q_scope.

(** Python's [round(x)] to the nearest integer, ties to even. *)
Definition round_half_even (x : Q) : Z :=
  let f := Qfloor x in
  let d := x - inject_Z f in
  if Qle_bool d (1 # 2) then
    if Qle_bool (1 # 2) d then (if Z.even f then f else f + 1)%Z else f
  else (f + 1)%Z.

(** [round(x, 2)] of the exact rational; the code rounds the binary
    float, which can fall 0.01 to the other side at a decimal tie. *)
Definition round2 (x : Q) : Q := inject_Z (round_half_even (x * 100)) / 100.

Definition Qgtb (a b : Q) : bool := negb (Qle_bool a b).
Definition Qltb (a b : Q) : bool := negb (Qle_bool b a).

Section WithLog.

(** [numpy.log], the natural logarithm, is not part of the repository
    and is taken as given. *)
Variable np_log : Q -> Q.

Definition r_factor (loss latency jitter : Q) : Q :=
  let r0 := 932 # 10 in
  let r1 := if Qgtb loss 0 then r0 - (25 # 10) * np_log (1 + 10 * loss) else r0 in
  let r2 := if Qgtb latency 150 then r1 - (latency - 150) * (2 # 100) else r1 in
  r2 - jitter * (1 # 10).

Definition calculate_mos (loss latency jitter : Q) : Q :=
  let r := r_factor loss latency jitter in
  let mos :=
    if Qltb r 0 then 1
    else if Qgtb r 100 then 45 # 10
    else 1 + (35 # 1000) * r + (7 # 1000000) * r * (r - 60) * (100 - r) in
  round2 mos.

End WithLog.

End SCOMonitor.

(** ** Lower-case hexadecimal formatting *)

Module Hex.

Local Open Scope string_scope.

Definition hex_digit (d : N) : ascii :=
  match d with
  | 0%N => "0" | 1%N => "1" | 2%N => "2" | 3%N => "3" | 4%N => "4" | 5%N => "5"
  | 6%N => "6" | 7%N => "7" | 8%N => "8" | 9%N => "9" | 10%N => "a"
  | 11%N => "b" | 12%N => "c" | 13%N => "d" | 14%N => "e" | _ => "f"
  end%char.

(** The digits of [n], most significant first, in front of [acc]. *)
Fixpoint to_hex_aux (fuel : nat) (n : N) (acc : string) : string :=
  let acc' := String (hex_digit (n mod 16)) acc in
  match fuel with
  | O => acc'
  | S fuel' => if (n / 16 =? 0)%N then acc' else to_hex_aux fuel' (n / 16)%N acc'
  end.

(** [format(n, 'x')] for a non-negative [n]. *)
Definition to_hex (n : N) : string := to_hex_aux (N.size_nat n) n "".

(** [s.rjust(width, '0')] and [s.ljust(width)]. *)
Definition zfill (width : nat) (s : string) : string :=
  string_of_list_ascii (repeat "0"%char (width - String.length s)) ++ s.

Definition ljust (width : nat) (s : string) : string :=
  s ++ string_of_list_ascii (repeat " "%char (width - String.length s)).

(** [f"{n:02x}"] and [f"{n:04x}"]. *)
Definition hex02 (n : N) : string := zfill 2 (to_hex n).
Definition hex04 (n : N) : string := zfill 4 (to_hex n).

(** [bytes.hex()]. *)
Definition bytes_hex (l : list Z) : string :=
  String.concat "" (map (fun b => hex02 (Z.to_N b)) l).

End Hex.

(** ** [hex_pattern_matcher.py]: repeating byte patterns *)

Module PatternMatcher.

Local Open Scope nat_scope.

Record Pattern : Type := mkPattern {
  pattern : list Z;
  hex_pattern : string;
  positions : list nat;
  length : nat;
  count : nat;
  frequency : Q
}.

Record HexPatternMatcher : Type := mkMatcher {
  min_pattern_length : nat;
  max_pattern_length : nat
}.

Definition default_matcher : HexPatternMatcher := mkMatcher 2 32.

Fixpoint is_prefix (p l : list Z) : bool :=
  match p, l with
  | [], _ => true
  | a :: p', b :: l' => (a =? b)%Z && is_prefix p' l'
  | _ :: _, [] => false
  end.

(** [pos] counts the bytes already passed; the first occurrence of [p] in
    [suffix], as an index into the whole data. *)
Fixpoint find_in (suffix p : list Z) (pos : nat) : option nat :=
  if is_prefix p suffix then Some pos
  else match suffix with
       | [] => None
       | _ :: rest => find_in rest p (S pos)
       end.

(** [data.find(p, start)]; [None] is the result [-1]. *)
Definition find (data p : list Z) (start : nat) : option nat :=
  if start <=? List.length data then find_in (drop start data) p start else None.

(** The [while True] loop of [_find_pattern_positions], from [start]. *)
Fixpoint positions_from (fuel : nat) (data p : list Z) (start : nat) : list nat :=
  match fuel with
  | O => []
  | S fuel' =>
    match find data p start with
    | None => []
    | Some pos => pos :: positions_from fuel' data p (pos + 1)
    end
  end.

(** Every iteration moves [start] past one more index of [data], and a
    search from beyond the end fails, so [len(data) + 2] iterations reach
    the [break]. *)
Definition find_pattern_positions (data p : list Z) : list nat :=
  positions_from (List.length data + 2) data p 0.

(** The [patterns] dict: keyed by the hex text, in insertion order. *)
Definition PatternDict : Type := list (string * Pattern).

Definition has_key (k : string) (d : PatternDict) : bool :=
  existsb (fun e => String.eqb k (fst e)) d.

(** The body of the inner [for start] loop. *)
Definition visit (data : list Z) (pattern_len start : nat) (patterns : PatternDict)
    : PatternDict :=
  let data_len := List.length data in
  let pattern_bytes := slice data start (start + pattern_len) in
  let pattern_key := Hex.bytes_hex pattern_bytes in
  if has_key pattern_key patterns then patterns
  else
    let ps := find_pattern_positions data pattern_bytes in
    if 2 <=? List.length ps then
      patterns ++
      [(pattern_key,
        mkPattern pattern_bytes pattern_key ps pattern_len (List.length ps)
          (inject_Z (Z.of_nat (List.length ps))
           / inject_Z (Z.of_nat (data_len - pattern_len + 1)))%Q)]
    else patterns.

(** [range(lo, hi)]. *)
Definition range (lo hi : nat) : list nat := seq lo (hi - lo).

Definition collect (self : HexPatternMatcher) (data : list Z) : PatternDict :=
  let data_len := List.length data in
  fold_left
    (fun patterns pattern_len =>
       fold_left (fun patterns start => visit data pattern_len start patterns)
                 (range 0 (data_len - pattern_len + 1)) patterns)
    (range (min_pattern_length self)
           (Nat.min (max_pattern_length self + 1) (data_len / 2 + 1)))
    [].

(** Lexicographic [<=] on the sort keys. *)
Definition key_le (a b : nat * nat) : bool :=
  (fst a <? fst b) || ((fst a =? fst b) && (snd a <=? snd b)).

(** [sorted(l, key=key, reverse=True)]: descending by key, elements with
    equal keys in their original order. *)
Fixpoint insert_desc {A} (key : A -> nat * nat) (x : A) (l : list A) : list A :=
  match l with
  | [] => [x]
  | y :: rest => if key_le (key y) (key x) then x :: l else y :: insert_desc key x rest
  end.

Fixpoint sorted_desc {A} (key : A -> nat * nat) (l : list A) : list A :=
  match l with
  | [] => []
  | x :: rest => insert_desc key x (sorted_desc key rest)
  end.

(** [set(range(pos, pos + n))]. *)
Definition pos_range (pos n : nat) : gset nat := list_to_set (seq pos n).

(** The inner loop of [_filter_overlapping_patterns]: the positions a
    pattern adds to what is covered. *)
Definition new_positions (p : Pattern) (covered : gset nat) : gset nat :=
  fold_left
    (fun acc pos =>
       let r := pos_range pos (length p) in
       if bool_decide (r ⊆ covered) then acc else acc ∪ r)
    (positions p) ∅.

Definition filter_step (st : list Pattern * gset nat) (p : Pattern)
    : list Pattern * gset nat :=
  let '(filtered, covered) := st in
  let fresh := new_positions p covered in
  if bool_decide (fresh = ∅) then (filtered, covered)
  else (filtered ++ [p], covered ∪ fresh).

Definition filter_overlapping_patterns (patterns : list Pattern) : list Pattern :=
  let sorted_patterns := sorted_desc (fun p => (length p, count p)) patterns in
  fst (fold_left filter_step sorted_patterns ([], ∅)).

Definition find_all_patterns (self : HexPatternMatcher) (data : list Z) : list Pattern :=
  filter_overlapping_patterns (map snd (collect self data)).

Definition calculate_coverage (data : list Z) (patterns : list Pattern) : Q :=
  match data with
  | [] => 0
  | _ =>
    let covered : gset nat :=
      fold_left (fun acc p =>
                   fold_left (fun acc pos => acc ∪ pos_range pos (length p))
                             (positions p) acc)
                patterns ∅ in
    (inject_Z (Z.of_nat (size covered)) / inject_Z (Z.of_nat (List.length data)))%Q
  end.

(** The result of [analyze] without its [entropy] field, a base-2
    logarithm that no other field depends on. *)
Record PatternMatch : Type := mkMatch {
  pm_data : list Z;
  hex_data : string;
  patterns : list Pattern;
  most_frequent : option Pattern;
  coverage : Q
}.

Definition analyze (self : HexPatternMatcher) (data : list Z) : PatternMatch :=
  if (List.length data =? 0) || (List.length data <? min_pattern_length self) then
    mkMatch data (Hex.bytes_hex data) [] None 0
  else
    let found := find_all_patterns self data in
    let sorted_patterns := sorted_desc (fun p => (count p, length p)) found in
    mkMatch data (Hex.bytes_hex data) sorted_patterns (head sorted_patterns)
      (calculate_coverage data sorted_patterns).

(** Byte position [i] lies inside an occurrence of [p]. *)
Definition covers (p : Pattern) (i : nat) : Prop :=
  exists pos, In pos (positions p) /\ pos <= i < pos + length p.

(** [data[pos:pos+len(pat)] == pat], at an index [bytes.find] can return. *)
Definition occurs (data pat : list Z) (pos : nat) : Prop :=
  pos <= List.length data /\ slice data pos (pos + List.length pat) = pat.

(** What [_find_all_patterns] stores for a pattern it admits. *)
Definition recorded (data : list Z) (p : Pattern) : Prop :=
  count p = List.length (positions p)
  /\ 2 <= count p
  /\ positions p = find_pattern_positions data (pattern p)
  /\ List.length (pattern p) = length p.

(** The order [sorted(..., reverse=True)] leaves the keys in. *)
Definition key_ge {A} (key : A -> nat * nat) (a b : A) : Prop :=
  key_le (key b) (key a) = true.

(** A kept pattern has a byte position no longer kept pattern covers. *)
Definition adds_to (kept : list Pattern) (p : Pattern) : Prop :=
  exists i, covers p i /\
    forall q, In q kept -> length p < length q -> ~ covers q i.

End PatternMatcher.

(** ** [packet_inspector.py]: [_to_hex_dump] *)

Module PacketInspector.

Local Open Scope string_scope.

Definition newline : string := String PyStr.nl "".

(** [chr(b) if 32 <= b < 127 else '.']. *)
Definition printable (b : Z) : ascii :=
  if ((32 <=? b) && (b <? 127))%Z then ascii_of_N (Z.to_N b) else "."%char.

Definition hex_part (chunk : list Z) : string :=
  String.concat " " (map (fun b => Hex.hex02 (Z.to_N b)) chunk).

Definition ascii_part (chunk : list Z) : string :=
  string_of_list_ascii (map printable chunk).

(** [f"{i:04x}: {hex_part:<48} {ascii_part}"]. *)
Definition line (i : nat) (chunk : list Z) : string :=
  Hex.hex04 (N.of_nat i) ++ ": " ++ Hex.ljust 48 (hex_part chunk) ++ " " ++ ascii_part chunk.

(** [for i in range(0, len(data), 16)], from offset [i] on. *)
Fixpoint lines_from (fuel : nat) (data : list Z) (i : nat) : list string :=
  match fuel with
  | O => []
  | S fuel' =>
    if (i <? List.length data)%nat
    then line i (slice data i (i + 16)) :: lines_from fuel' data (i + 16)
    else []
  end.

(** The range has at most [len(data)] elements. *)
Definition hex_lines (data : list Z) : list string :=
  lines_from (List.length data) data 0.

Definition to_hex_dump (data : list Z) : string :=
  match data with
  | [] => ""
  | _ => String.concat newline (hex_lines data)
  end.

(** [ceil(n / 16)]. *)
Definition ceil16 (n : nat) : nat := ((n + 15) / 16)%nat.

End PacketInspector.

(** ** [rtk_firmware_loader.py]: frames on the wire, the version read-out and
    [load_firmware] as a whole *)

Module Bringup.

Import H5 FirmwareLoader.

(** Successive [create_packet] calls on one protocol object: the results in
    order and the object afterwards. *)
Fixpoint create_packets (self : H5Protocol) (msgs : list (H5PacketType * list Z))
    : list (result H5Error (list Z)) * H5Protocol :=
  match msgs with
  | [] => ([], self)
  | (t, p) :: rest =>
    let '(r, self1) := create_packet self t p in
    let '(rs, self2) := create_packets self1 rest in
    (r :: rs, self2)
  end.

(** No byte of [l] is the SLIP delimiter. *)
Definition delimiter_free (l : list Z) : Prop := Forall (fun b => b <> 0xC0) l.

(** The bytes of a frame between its first and its last byte. *)
Definition interior (frame : list Z) : list Z := slice frame 1 (length frame - 1).

(** The dict [read_local_version] returns. *)
Record Version : Type := mkVersion {
  hci_version : Z;
  hci_revision : Z;
  lmp_version : Z;
  manufacturer : Z;
  lmp_subversion : Z
}.

Inductive LoadError : Type :=
| Lower (e : LoaderError)      (* raised by [send_hci_command] *)
| InvalidVersionResponse       (* ValueError("Invalid version response") *)
| MissingFile.                 (* [Path.read_bytes] failed *)

Definition read_local_version (self : Loader) : result LoadError Version * Loader :=
  match send_hci_command 0x1001 [] self with
  | (Raise e, s) => (Raise (Lower e), s)
  | (Ok response, s) =>
    if (length response <? 14)%nat then (Raise InvalidVersionResponse, s)
    else
      match unpack_H (slice response 7 9), unpack_H (slice response 10 12),
            unpack_H (slice response 12 14) with
      | Some rev, Some man, Some sub =>
        (Ok (mkVersion (default 0 (response !! 6%nat)) rev
                       (default 0 (response !! 9%nat)) man sub), s)
      | _, _, _ => (Raise (Lower StructError), s)
      end
  end.

(** [self.serial.write(bytes)] outside any H5 frame. *)
Definition write_raw (bytes : list Z) (self : Loader) : Loader :=
  mkLoader (h5 self) (tx self ++ [bytes]) (rx self).

Definition download_cmd : list Z := [0x01; 0x00; 0xFC; 0x01; 0x01].
Definition launch_cmd : list Z := [0x01; 0x00; 0xFC; 0x01; 0x00].

(** [load_firmware(fw_path, config_path)].  The two files are given by their
    contents, [None] when reading them raises; the sleeps are left out.
    Every exception ends in [return False]; the outer [None] is fuel
    exhaustion of the download loop. *)
Definition load_firmware (fw_file config_file : option (list Z)) (self : Loader)
    : option (bool * Loader) :=
  match send_hci_command 0x0C03 [] self with
  | (Raise _, s) => Some (false, s)
  | (Ok _, s1) =>
    match read_local_version s1 with
    | (Raise _, s) => Some (false, s)
    | (Ok version, s2) =>
      if lmp_subversion version =? 0x8723 then Some (true, s2)
      else
        let s3 := write_raw download_cmd s2 in
        match fw_file with
        | None => Some (false, s3)
        | Some fw_data =>
          match download_firmware fw_data s3 with
          | None => None
          | Some (Raise _, s) => Some (false, s)
          | Some (Ok _, s4) =>
            match config_file with
            | None => Some (false, s4)
            | Some config_data =>
              match send_hci_command 0xFC61 config_data s4 with
              | (Raise _, s) => Some (false, s)
              | (Ok _, s5) =>
                let s6 := write_raw launch_cmd s5 in
                match send_hci_command 0x0C03 [] s6 with
                | (Raise _, s) => Some (false, s)
                | (Ok _, s7) =>
                  match read_local_version s7 with
                  | (Raise _, s) => Some (false, s)
                  | (Ok new_version, s8) =>
                    Some (negb (lmp_subversion new_version =? lmp_subversion version), s8)
                  end
                end
              end
            end
          end
        end
    end
  end.

(** Files with which the download cannot go through: one is missing, the
    firmware is shorter than its header, or the configuration does not fit
    the one-byte parameter length of an HCI command. *)
Definition unusable_files (fw_file config_file : option (list Z)) : Prop :=
  match fw_file, config_file with
  | Some fw_data, Some config_data =>
    (length fw_data < 16)%nat \/ (255 < length config_data)%nat
  | _, _ => True
  end.

(** Whether the device answers the reset and reports LMP subversion
    [0x8723] on the version read that follows it. *)
Definition reports_patched (self : Loader) : bool :=
  match send_hci_command 0x0C03 [] self with
  | (Raise _, _) => false
  | (Ok _, s1) =>
    match read_local_version s1 with
    | (Raise _, _) => false
    | (Ok version, _) => lmp_subversion version =? 0x8723
    end
  end.

(** [struct.pack('<I', v)]; [None] is [struct.error]. *)
Definition pack_I (v : Z) : option (list Z) :=
  if (0 <=? v) && (v <=? 0xFFFFFFFF)
  then Some [Z.land v 0xFF; Z.land (Z.shiftr v 8) 0xFF; Z.land (Z.shiftr v 16) 0xFF;
             Z.shiftr v 24]
  else None.

(** The loader with the baud rate it believes the UART runs at. *)
Record Uart : Type := mkUart { loader : Loader; baud_rate : Z }.

(** [change_baud_rate(new_baud)]: the first command is sent outside the
    [try], so its exceptions reach the caller; the bare [except] around the
    version read turns every exception into [False]. *)
Definition change_baud_rate (new_baud : Z) (self : Uart) : result LoaderError bool * Uart :=
  match pack_I new_baud with
  | None => (Raise StructError, self)
  | Some baud_cmd =>
    match send_hci_command 0xFC17 baud_cmd (loader self) with
    | (Raise e, s) => (Raise e, mkUart s (baud_rate self))
    | (Ok _, s1) =>
      match send_hci_command 0x1001 [] s1 with
      | (Raise _, s2) => (Ok false, mkUart s2 new_baud)
      | (Ok _, s2) => (Ok true, mkUart s2 new_baud)
      end
    end
  end.

(** A version event whose LMP subversion is [0x8723], as an H5 frame. *)
Definition patched_version_payload : list Z :=
  [0x0E; 0x0C; 0x01; 0x01; 0x10; 0x00; 0x06; 0x00; 0x00; 0x06; 0x5D; 0x00; 0x23; 0x87].

Definition patched_device : Loader :=
  mkLoader H5.init []
    (ack_frame ++ H5.frame_of H5.init H5.HCI_EVENT patched_version_payload).

End Bringup.


(** ** [auto_connect_manager.py]: connection slots by priority, the connection
    queue and the analytics *)

Module Manager.

Import AutoConnect.

(** The connection times [update_metrics] has been given since the metrics
    were last reset, oldest first. *)
Definition record_time (acc : list Q) (op : Op) : list Q :=
  match op with
  | OpAttempt ConnectTrue t0 t1 _ => acc ++ [(t1 - t0)%Q]
  | OpResetMetrics => []
  | _ => acc
  end.

Definition connect_times (ops : list Op) : list Q := fold_left record_time ops [].

Definition total_time (l : list Q) : Q := fold_right Qplus 0%Q l.

(** What [update_metrics] keeps true of the counters. *)
Definition consistent (m : ConnectionMetrics) : Prop :=
  total_attempts m = (successful_connections m + failed_connections m)%N
  /\ (consecutive_failures m <= failed_connections m)%N
  /\ (stability_score m
      == inject_Z (Z.of_N (successful_connections m)) / inject_Z (Z.of_N (total_attempts m)))%Q.

(** [self.managed_connections]: a dict, in insertion order. *)
Definition Devices : Type := list (string * ManagedConnection).

Definition priority_eqb (p q : ConnectionPriority) : bool :=
  match p, q with
  | HIGH, HIGH | MEDIUM, MEDIUM | LOW, LOW => true
  | _, _ => false
  end.

(** [priority_groups[p]] after the first loop of
    [_start_priority_connections]. *)
Definition priority_group (p : ConnectionPriority) (devices : Devices) : list string :=
  map fst
    (List.filter (fun d => is_enabled (snd d) && priority_eqb (priority (config (snd d))) p)
       devices).

(** The data of a [connection_queued] event. *)
Record Queued : Type := mkQueued {
  queued_address : string;
  queued_priority : ConnectionPriority;
  queue_position : Z
}.

(** The loop state of [_start_priority_connections]: the counter, the
    addresses tasks were created for, and the events emitted. *)
Record Slots : Type := mkSlots {
  active_connections : Z;
  started : list string;
  queued : list Queued
}.

Definition take_slot (max_concurrent : Z) (p : ConnectionPriority) (st : Slots)
    (address : string) : Slots :=
  if active_connections st >=? max_concurrent then
    mkSlots (active_connections st) (started st)
      (queued st ++ [mkQueued address p (active_connections st - max_concurrent + 1)])
  else
    mkSlots (active_connections st + 1) (started st ++ [address]) (queued st).

Definition start_priority_connections (max_concurrent : Z) (devices : Devices) : Slots :=
  fold_left (fun st p => fold_left (take_slot max_concurrent p) (priority_group p devices) st)
    [HIGH; MEDIUM; LOW] (mkSlots 0 [] []).

Definition take_slot_of (max_concurrent : Z) (st : Slots)
    (d : string * ConnectionPriority) : Slots :=
  take_slot max_concurrent (snd d) st (fst d).

(** The event a device gets that finds every slot taken. *)
Definition queued_first (d : string * ConnectionPriority) : Queued :=
  mkQueued (fst d) (snd d) 1.

(** The enabled devices in the order the second loop visits them. *)
Definition visiting_order (devices : Devices) : list (string * ConnectionPriority) :=
  flat_map (fun p => map (fun a => (a, p)) (priority_group p devices)) [HIGH; MEDIUM; LOW].

(** [_compare_priority]. *)
Definition priority_value (p : ConnectionPriority) : Z :=
  match p with HIGH => 3 | MEDIUM => 2 | LOW => 1 end.

Definition compare_priority (p1 p2 : ConnectionPriority) : Z :=
  priority_value p1 - priority_value p2.

Definition is_active (c : ManagedConnection) : bool :=
  match state c with
  | CONNECTED | CONNECTING => true
  | _ => false
  end.

(** The test of the loop in [_check_connection_queue]; [tasks] are the keys
    of [self.connection_tasks]. *)
Definition eligible (tasks : list string) (d : string * ManagedConnection) : bool :=
  is_enabled (snd d)
  && match state (snd d) with DISCONNECTED => true | _ => false end
  && negb (existsb (String.eqb (fst d)) tasks).

(** One iteration: [(best_candidate, best_priority)] before and after. *)
Definition better (tasks : list string) (best : option (string * ConnectionPriority))
    (d : string * ManagedConnection) : option (string * ConnectionPriority) :=
  if eligible tasks d then
    match best with
    | None => Some (fst d, priority (config (snd d)))
    | Some (_, best_priority) =>
      if compare_priority (priority (config (snd d))) best_priority >? 0
      then Some (fst d, priority (config (snd d)))
      else best
    end
  else best.

(** [_check_connection_queue]: the device a task is created for, with the
    priority of its [connection_dequeued] event.  [if best_candidate:] is
    false for the empty address as well as for [None]. *)
Definition check_connection_queue (max_concurrent : Z) (devices : Devices)
    (tasks : list string) : option (string * ConnectionPriority) :=
  let active_count := Z.of_nat (length (List.filter (fun d => is_active (snd d)) devices)) in
  if active_count <? max_concurrent then
    match fold_left (better tasks) devices None with
    | Some (a, p) => if String.eqb a EmptyString then None else Some (a, p)
    | None => None
    end
  else None.

(** The reading of the result of [_check_connection_queue]: [a] is the
    [i]-th device, it was eligible, and no eligible device has a higher
    priority or the same priority and an earlier place. *)
Definition best_at (tasks : list string) (devices : list (string * ManagedConnection))
    (i : nat) (a : string)
    (p : ConnectionPriority) : Prop :=
  exists c,
    devices !! i = Some (a, c)
    /\ eligible tasks (a, c) = true
    /\ priority (config c) = p
    /\ forall j d, devices !! j = Some d -> eligible tasks d = true ->
         priority_value (priority (config (snd d))) <= priority_value p
         /\ (priority_value (priority (config (snd d))) = priority_value p -> (i <= j)%nat).

(** [_calculate_device_health]: the score and the status. *)
Inductive HealthStatus : Type := healthy | degraded | unhealthy.

Definition Qlt_bool (a b : Q) : bool := negb (Qle_bool b a).

(** Python's [max(a, b)]: [b] when [b > a], otherwise [a]. *)
Definition py_max (a b : Q) : Q := if Qlt_bool a b then b else a.

Definition health_score (connection : ManagedConnection) : Q :=
  let m := metrics connection in
  if (total_attempts m =? 0)%N then 50%Q
  else
    let success_rate := (stability_score m * 40)%Q in
    let time_score :=
      if Qlt_bool 0 (average_connection_time m)
      then py_max 0 (20 - (average_connection_time m - 2) * 2)%Q
      else 10%Q in
    let failure_penalty :=
      py_max 0 (20 - inject_Z (Z.of_N (consecutive_failures m)) * 5)%Q in
    let uptime_score :=
      if Qlt_bool 0 (connection_uptime m)
      then py_min 20 (connection_uptime m / 300)%Q
      else 0%Q in
    (success_rate + time_score + failure_penalty + uptime_score)%Q.

Definition health_status (score : Q) : HealthStatus :=
  if Qle_bool 80 score then healthy
  else if Qle_bool 50 score then degraded
  else unhealthy.

End Manager.

(** ** [hfp_handler.py]: the indicator list, the states a trace can reach
    and the timing check *)

Module Indicators.

Import HFP.
Local Open Scope string_scope.
Local Open Scope Z_scope.

(** Every character of [s] satisfies [p]. *)
Fixpoint all_chars (p : ascii -> bool) (s : string) : bool :=
  match s with
  | EmptyString => true
  | String a rest => p a && all_chars p rest
  end.

(** One entry of a [+CIND:] test response, [("name",(range))], and the
    response that lists [entries]. *)
Definition cind_entry (e : string * string) : string :=
  "(" ++ q ++ fst e ++ q ++ ",(" ++ snd e ++ "))".

Definition cind_response (entries : list (string * string)) : string :=
  "+CIND: " ++ String.concat "," (map cind_entry entries).

(** A name of word characters and a range of digits, commas and dashes,
    neither empty. *)
Definition entry_ok (e : string * string) : Prop :=
  fst e <> "" /\ all_chars PyStr.is_word (fst e) = true
  /\ snd e <> "" /\ all_chars PyStr.is_range_char (snd e) = true.

(** The text one match covers. *)
Definition match_text (e : string * string) : string :=
  q ++ fst e ++ q ++ ",(" ++ snd e ++ ")".

(** The entry [_parse_indicators] stores for a match. *)
Definition registered (e : string * string) : string * Indicator :=
  (fst e, mkIndicator (snd e) 0).

(** The two codec names the handler knows. *)
Definition codec_name (s : string) : Prop := s = "CVSD" \/ s = "mSBC".

(** The states [process_at_command] can set. *)
Definition settable (s : HFPState) : Prop :=
  s = SLC_CONNECTING \/ s = CONNECTED \/ s = AUDIO_CONNECTING \/ s = AUDIO_CONNECTED.

(** What one call keeps and what it can change. *)
Definition kept (h h' : Handler) : Prop :=
  role h' = role h
  /\ (state h' = state h \/ settable (state h'))
  /\ (codec_name (selected_codec h) -> codec_name (selected_codec h'))
  /\ (Forall codec_name (supported_codecs h) -> Forall codec_name (supported_codecs h')).

(** The time from the first to the last command of the trace. *)
Definition span_of (flow : list ATCommand) : Q :=
  match flow with
  | [] => 0%Q
  | a :: rest => (timestamp (List.last rest a) - timestamp a)%Q
  end.

End Indicators.

(** ** [hex_pattern_matcher.py]: the size of a reported pattern and the
    byte-level arithmetic sequences *)

Module PatternReport.

Import PatternMatcher.
Local Open Scope nat_scope.

(** What the two loops of [_find_all_patterns] fix for a pattern of
    [data]: its length is one the outer loop tries, and its frequency is
    its count over the number of windows of that length. *)
Definition sized (self : HexPatternMatcher) (data : list Z) (p : Pattern) : Prop :=
  min_pattern_length self <= length p <= max_pattern_length self
  /\ 2 * length p <= List.length data
  /\ hex_pattern p = Hex.bytes_hex (pattern p)
  /\ frequency p
     = (inject_Z (Z.of_nat (count p))
        / inject_Z (Z.of_nat (List.length data - length p + 1)))%Q.

(** One entry of the list [find_sequences] returns for the byte-level
    arithmetic sequences. *)
Record Sequence : Type := mkSequence {
  start_pos : nat;
  seq_length : nat;
  start_value : Z;
  difference : Z;
  values : list Z
}.

(** [data[i]]; the loops keep the index within the data. *)
Definition byte_at (data : list Z) (i : nat) : Z := default 0%Z (data !! i).

(** The loop [while j < len(data) and data[j] - data[j-1] == diff]: the
    value of [length] when it ends.  [j] grows with every iteration, so
    [len(data)] iterations are enough. *)
Fixpoint extend (fuel : nat) (data : list Z) (diff : Z) (j len : nat) : nat :=
  match fuel with
  | O => len
  | S fuel' =>
    if (j <? List.length data) && (byte_at data j - byte_at data (j - 1) =? diff)%Z
    then extend fuel' data diff (j + 1) (len + 1)
    else len
  end.

(** The test that opens a sequence at [i]. *)
Definition progression_at (data : list Z) (i : nat) : bool :=
  (byte_at data (i + 1) - byte_at data i =? byte_at data (i + 2) - byte_at data (i + 1))%Z.

(** The body of the first [for i] loop of [find_sequences]. *)
Definition sequence_at (data : list Z) (i : nat) : list Sequence :=
  if progression_at data i then
    let diff := (byte_at data (i + 1) - byte_at data i)%Z in
    let len := extend (List.length data) data diff (i + 3) 3 in
    if 3 <=? len
    then [mkSequence i len (byte_at data i) diff (slice data i (i + len))]
    else []
  else [].

(** The entries of type "arithmetic" of [find_sequences], which come
    first in its result. *)
Definition byte_sequences (data : list Z) : list Sequence :=
  if List.length data <? 3 then []
  else flat_map (sequence_at data) (range 0 (List.length data - 2)).

(** The bytes of [s] are in [data] from [start_pos], step by the common
    difference, and the sequence cannot be extended to the right. *)
Definition maximal_run (data : list Z) (s : Sequence) : Prop :=
  3 <= seq_length s
  /\ start_pos s + seq_length s <= List.length data
  /\ start_value s = byte_at data (start_pos s)
  /\ values s = slice data (start_pos s) (start_pos s + seq_length s)
  /\ (forall k, k + 1 < seq_length s ->
        (byte_at data (start_pos s + k + 1) - byte_at data (start_pos s + k))%Z
        = difference s)
  /\ (start_pos s + seq_length s < List.length data ->
        (byte_at data (start_pos s + seq_length s)
         - byte_at data (start_pos s + seq_length s - 1))%Z
        <> difference s).

(** [int.from_bytes(b, 'little')]. *)
Fixpoint from_bytes_little (b : list Z) : Z :=
  match b with
  | [] => 0%Z
  | x :: rest => (x + 256 * from_bytes_little rest)%Z
  end.

(** [int.from_bytes(data[i:i+byte_size], 'little')]; the slice is shorter
    than [byte_size] when it reaches the end of the data. *)
Definition word_at (byte_size : nat) (data : list Z) (i : nat) : Z :=
  from_bytes_little (slice data i (i + byte_size)).

(** One entry of type "arithmetic_uint16" or "arithmetic_uint32". *)
Record WordSequence : Type := mkWordSequence {
  w_start_pos : nat;
  w_length : nat;
  w_byte_size : nat;
  w_start_value : Z;
  w_difference : Z
}.

(** The loop [while j + byte_size <= len(data)] with its [break]. *)
Fixpoint extend_words (fuel byte_size : nat) (data : list Z) (diff : Z) (j len : nat) : nat :=
  match fuel with
  | O => len
  | S fuel' =>
    if j + byte_size <=? List.length data then
      if (word_at byte_size data j - word_at byte_size data (j - byte_size) =? diff)%Z
      then extend_words fuel' byte_size data diff (j + byte_size) (len + 1)
      else len
    else len
  end.

Definition word_sequence_at (byte_size : nat) (data : list Z) (i : nat) : list WordSequence :=
  let val1 := word_at byte_size data i in
  let val2 := word_at byte_size data (i + byte_size) in
  let val3 := word_at byte_size data (i + 2 * byte_size) in
  if (val2 - val1 =? val3 - val2)%Z then
    let diff := (val2 - val1)%Z in
    let len := extend_words (List.length data) byte_size data diff (i + 3 * byte_size) 3 in
    if 3 <=? len then [mkWordSequence i len byte_size val1 diff] else []
  else [].

(** [range(0, stop, step)] for a positive [step]. *)
Definition range_step (stop step : nat) : list nat :=
  map (fun k => k * step) (seq 0 ((stop + step - 1) / step)).

(** The second loop of [find_sequences] for one [byte_size]. *)
Definition word_sequences (byte_size : nat) (data : list Z) : list WordSequence :=
  if byte_size * 3 <=? List.length data
  then flat_map (word_sequence_at byte_size data)
         (range_step (List.length data - byte_size * 2) byte_size)
  else [].

(** The list [find_sequences] returns. *)
Inductive Found : Type :=
| Arithmetic (s : Sequence)
| ArithmeticUint (w : WordSequence).

Definition find_sequences (data : list Z) : list Found :=
  if List.length data <? 3 then []
  else (map Arithmetic (byte_sequences data)
        ++ map ArithmeticUint (word_sequences 2 data)
        ++ map ArithmeticUint (word_sequences 4 data))%list.

End PatternReport.

(** ** [packet_inspector.py]: the history and the statistics *)

Module Inspector.

Import HFP.
Local Open Scope string_scope.
Local Open Scope nat_scope.

(** [_add_to_history]: append, then drop the oldest entry when the list
    has grown beyond [max_history]. *)
Definition add_to_history {A} (max_history : Z) (packet_history : list A) (result : A)
    : list A :=
  let h := (packet_history ++ [result])%list in
  if (max_history <? Z.of_nat (List.length h))%Z then drop 1 h else h.

(** The fields of [InspectionResult] the statistics read. *)
Record InspectionResult : Type := mkResult {
  protocol : option string;
  warnings : list string;
  security_flags : list (string * bool)
}.

Section Security.

(** [len(set(data)) > len(data) * 0.7], a comparison of an integer with a
    floating-point product, is taken as given. *)
Variable high_entropy : list Z -> bool.

(** [_analyze_security] on [packet.data]. *)
Definition analyze_security (data : list Z) : list (string * bool) :=
  let flags := [("encrypted", false); ("authenticated", false);
                ("contains_key", false); ("pairing_request", false)] in
  if List.length data <? 2 then flags
  else
    let opcode := default 0%Z (data !! 0) in
    let flags1 :=
      if (opcode =? 1)%Z || (opcode =? 2)%Z
      then dict_set "pairing_request" true flags else flags in
    if 16 <? List.length data then
      if high_entropy data then dict_set "encrypted" true flags1 else flags1
    else flags1.

(** A result as [inspect_packet] builds it: its flags are those of
    [_analyze_security] on the packet's data. *)
Definition inspected (r : InspectionResult) : Prop :=
  exists data, security_flags r = analyze_security data.

End Security.

(** What [get_statistics] returns: [{"total_packets": 0}] for an empty
    history, the four entries otherwise. *)
Inductive Statistics : Type :=
| NoPackets
| Stats (total_packets : nat) (protocols : list (string * nat))
        (security : list (string * nat)) (warnings_count : nat).

(** [if value and flag in security_stats: security_stats[flag] += 1]. *)
Definition count_flag (security_stats : list (string * nat)) (item : string * bool)
    : list (string * nat) :=
  if snd item then
    match dict_get (fst item) security_stats with
    | Some n => dict_set (fst item) (n + 1) security_stats
    | None => security_stats
    end
  else security_stats.

(** One iteration of the loop over the history. *)
Definition count_result (st : list (string * nat) * list (string * nat))
    (result : InspectionResult) : list (string * nat) * list (string * nat) :=
  let '(protocols, security_stats) := st in
  let protocols' :=
    match protocol result with
    | Some p =>
      if String.eqb p "" then protocols
      else dict_set p (default 0 (dict_get p protocols) + 1) protocols
    | None => protocols
    end in
  (protocols', fold_left count_flag (security_flags result) security_stats).

Definition get_statistics (packet_history : list InspectionResult) : Statistics :=
  match packet_history with
  | [] => NoPackets
  | _ =>
    let '(protocols, security_stats) :=
      fold_left count_result packet_history
        ([], [("encrypted", 0); ("authenticated", 0); ("pairing_requests", 0)]) in
    Stats (List.length packet_history) protocols security_stats
      (list_sum (map (fun r => List.length (warnings r)) packet_history))
  end.

(** Whether a result carries a true [encrypted] flag. *)
Definition is_encrypted (r : InspectionResult) : bool :=
  default false (dict_get "encrypted" (security_flags r)).

(** [_detect_protocol] on [packet.packet_type] and [packet.data]; the
    result [None] is [Ok None], and [struct.error] would be [Raise]. *)
Definition detect_protocol (packet_type : string) (data : list Z)
    : result FirmwareLoader.LoaderError (option string) :=
  if String.eqb packet_type "advertisement" then Ok (Some "ADV")
  else if List.length data <? 1 then Ok None
  else
    let first_byte := default 0%Z (data !! 0) in
    let rest :=
      if ((1 <=? first_byte) && (first_byte <=? 0x1E))%Z
         || (first_byte =? 0x52)%Z || (first_byte =? 0xD2)%Z
      then Some "ATT"
      else if existsb (Z.eqb first_byte) [1; 2; 3; 4; 5; 6]%Z
              && (first_byte =? 1)%Z
      then Some "ATT"
      else Some "UNKNOWN" in
    if 4 <=? List.length data then
      match FirmwareLoader.unpack_H (slice data 2 4) with
      | None => Raise FirmwareLoader.StructError
      | Some cid =>
        if (cid =? 0x0004)%Z then Ok (Some "L2CAP_ATT")
        else if (cid =? 0x0005)%Z then
          match FirmwareLoader.unpack_H (slice data 0 2) with
          | None => Raise FirmwareLoader.StructError
          | Some len =>
            if (0 <? len)%Z && (len <? 100)%Z then Ok (Some "L2CAP_SIG") else Ok rest
          end
        else Ok rest
      end
    else Ok rest.

(** The labels [_detect_protocol] can give. *)
Definition labels : list string := ["ADV"; "L2CAP_ATT"; "L2CAP_SIG"; "ATT"; "UNKNOWN"].

End Inspector.
(** * Theorems *)

Module PyFacts.

Lemma is_byteb_spec b : is_byteb b = true <-> is_byte b.
Proof. unfold is_byteb, is_byte. rewrite andb_true_iff. lia. Qed.

Lemma is_byte_land b : is_byte b <-> Z.land b 255 = b.
Proof.
  unfold is_byte. change 255 with (Z.ones 8).
  rewrite Z.land_ones by lia. change (2 ^ 8) with 256. split.
  - intros H. apply Z.mod_small. lia.
  - intros <-. apply Z.mod_pos_bound. lia.
Qed.

Lemma is_byte_lxor a b : is_byte a -> is_byte b -> is_byte (Z.lxor a b).
Proof.
  rewrite !is_byte_land. intros Ha Hb.
  rewrite <- Ha, <- Hb at 2. apply Z.bits_inj'. intros n _.
  rewrite Z.land_spec, !Z.lxor_spec, !Z.land_spec.
  destruct (Z.testbit a n), (Z.testbit b n), (Z.testbit 255 n); reflexivity.
Qed.

Lemma xor_all_byte l : forall acc, is_byte acc -> bytes_ok l -> is_byte (xor_all acc l).
Proof.
  unfold xor_all, bytes_ok. induction l as [|b l IH]; intros acc Hacc Hl; simpl.
  - exact Hacc.
  - inversion Hl; subst. apply IH; [apply is_byte_lxor|]; assumption.
Qed.

Lemma xor_all_app l1 l2 acc : xor_all acc (l1 ++ l2) = xor_all (xor_all acc l1) l2.
Proof. unfold xor_all. apply fold_left_app. Qed.

Lemma slice_length {A} (l : list A) lo hi :
  (hi <= length l)%nat -> length (slice l lo hi) = (hi - lo)%nat.
Proof. intros H. unfold slice. rewrite length_take, length_drop. lia. Qed.

Lemma slice_le {A} (l : list A) lo hi : (length (slice l lo hi) <= hi - lo)%nat.
Proof. unfold slice. rewrite length_take. lia. Qed.

Lemma bytes_ok_slice l lo hi : bytes_ok l -> bytes_ok (slice l lo hi).
Proof.
  unfold bytes_ok, slice. intros H.
  apply Forall_take, Forall_drop, H.
Qed.

End PyFacts.

Module H5Facts.

Import H5 PyFacts.

Lemma type_roundtrip t :
  type_of_value (Z.land (Z.land (type_value t) 0x0F) 0x0F) = Some t.
Proof. destruct t; reflexivity. Qed.

Lemma header1_byte st :
  wf st -> is_byte (Z.lor (Z.shiftl (seq_num st) 3) (Z.land (ack_num st) 0x07)).
Proof.
  unfold wf. intros Hseq. apply is_byte_land.
  rewrite Z.land_lor_distr_l, <- Z.land_assoc. change (Z.land 7 255) with 7.
  f_equal.
  assert (Hs : seq_num st = 0 \/ seq_num st = 1 \/ seq_num st = 2 \/ seq_num st = 3 \/
               seq_num st = 4 \/ seq_num st = 5 \/ seq_num st = 6 \/ seq_num st = 7) by lia.
  destruct Hs as [-> | [-> | [-> | [-> | [-> | [-> | [-> | ->]]]]]]]; reflexivity.
Qed.

Lemma as_byte_ok v : is_byte v -> as_byte v = Ok v.
Proof. intros H. unfold as_byte. apply is_byteb_spec in H. rewrite H. reflexivity. Qed.

Lemma land_byte a m : 0 <= m < 256 -> is_byte (Z.land a m).
Proof.
  intros Hm. apply is_byte_land. rewrite <- Z.land_assoc. f_equal.
  apply is_byte_land. exact Hm.
Qed.

Lemma create_packet_frame st t p :
  wf st -> bytes_ok p ->
  create_packet st t p = (Ok (frame_of st t p), mkH5 ((seq_num st + 1) mod 8) (ack_num st)).
Proof.
  intros Hwf Hp. unfold create_packet.
  rewrite (as_byte_ok _ (header1_byte st Hwf)). cbv zeta.
  rewrite as_byte_ok.
  - reflexivity.
  - apply xor_all_byte; [|exact Hp]. simpl drop.
    apply xor_all_byte; [unfold is_byte; lia|].
    unfold bytes_ok. rewrite !Forall_cons. split_and!;
      [apply header1_byte, Hwf | apply land_byte; lia | apply land_byte; lia | constructor].
Qed.

(** What [parse_packet] does on a well-delimited frame. *)
Lemma parse_packet_frame st h1 h2 h3 p c :
  parse_packet st (0xC0 :: h1 :: h2 :: h3 :: p ++ [c; 0xC0]) =
  if negb (xor_all 0 (h1 :: h2 :: h3 :: p) =? c) then (Raise ChecksumMismatch, st)
  else match type_of_value (Z.land h2 0x0F) with
       | Some t => (Ok (t, p), mkH5 (seq_num st) (Z.land (Z.shiftr h1 3) 0x07))
       | None => (Raise (NotAPacketType (Z.land h2 0x0F)),
                  mkH5 (seq_num st) (Z.land (Z.shiftr h1 3) 0x07))
       end.
Proof.
  unfold parse_packet.
  set (data := 0xC0 :: h1 :: h2 :: h3 :: p ++ [c; 0xC0]).
  assert (Hn : length data = (length p + 6)%nat).
  { unfold data. simpl. rewrite length_app. simpl. lia. }
  rewrite Hn.
  replace (length p + 6 <? 6)%nat with false by (symmetry; apply Nat.ltb_ge; lia).
  assert (H0 : data !! 0%nat = Some 0xC0) by reflexivity.
  assert (Hlast : data !! (length p + 6 - 1)%nat = Some 0xC0).
  { replace (length p + 6 - 1)%nat with (4 + (length p + 1))%nat by lia.
    unfold data. simpl. rewrite lookup_app_r by lia.
    replace (length p + 1 - length p)%nat with 1%nat by lia. reflexivity. }
  assert (Hck : data !! (length p + 6 - 2)%nat = Some c).
  { replace (length p + 6 - 2)%nat with (4 + (length p + 0))%nat by lia.
    unfold data. simpl. rewrite lookup_app_r by lia.
    replace (length p + 0 - length p)%nat with 0%nat by lia. reflexivity. }
  assert (Hpay : slice data 4 (length p + 6 - 2) = p).
  { unfold slice, data. simpl drop.
    replace (length p + 6 - 2 - 4)%nat with (length p) by lia.
    apply take_app_length. }
  assert (Hsum : slice data 1 (length p + 6 - 2) = h1 :: h2 :: h3 :: p).
  { unfold slice, data. simpl drop.
    replace (length p + 6 - 2 - 1)%nat with (3 + length p)%nat by lia.
    simpl. do 3 f_equal. apply take_app_length. }
  rewrite H0, Hlast, Hck, Hpay, Hsum. simpl.
  reflexivity.
Qed.

(** The 3-bit sequence number is an invariant of the protocol object. *)
Lemma wf_invariant :
  wf init
  /\ (forall st t p, wf st -> wf (snd (create_packet st t p)))
  /\ (forall st data, wf st -> wf (snd (parse_packet st data))).
Proof.
  split_and!.
  - unfold wf. simpl. lia.
  - intros st t p Hwf. unfold create_packet.
    destruct (as_byte _); [|exact Hwf]. cbv zeta.
    destruct (as_byte _); [|exact Hwf].
    unfold wf. simpl. apply Z.mod_pos_bound. lia.
  - intros st data Hwf. unfold wf, parse_packet in *. cbv zeta.
    repeat match goal with |- context [if ?b then _ else _] => destruct b end;
      try exact Hwf.
    destruct (type_of_value _); exact Hwf.
Qed.

(** ** C1: H5 round trip and checksum protection.
    For every packet type [t] of the enum and every payload [p] (a byte
    string), [parse_packet] applied to the frame [create_packet] builds
    returns exactly [(t, p)]; and replacing the checksum byte of such a
    frame by any different byte value makes [parse_packet] raise the
    checksum-mismatch error instead of returning a payload. *)
Theorem h5_roundtrip_and_checksum (tx rx : H5Protocol) (t : H5PacketType) (p : list Z) :
  wf tx -> bytes_ok p ->
  exists frame tx',
    create_packet tx t p = (Ok frame, tx')
    /\ fst (parse_packet rx frame) = Ok (t, p)
    /\ forall c, is_byte c ->
         frame !! (length frame - 2)%nat <> Some c ->
         fst (parse_packet rx (with_checksum frame c)) = Raise ChecksumMismatch.
Proof.
  intros Hwf Hp. eexists _, _. split; [apply create_packet_frame; assumption|].
  unfold frame_of. cbv zeta.
  set (h1 := Z.lor _ _). set (h2 := Z.land (type_value t) _). set (h3 := Z.land (Z.of_nat _) _).
  set (ck := xor_all 0 (h1 :: h2 :: h3 :: p)).
  assert (Hlen : Nat.sub (length (0xC0 :: h1 :: h2 :: h3 :: p ++ [ck; 0xC0])) 2
                 = (4 + (length p + 0))%nat).
  { simpl. rewrite length_app. simpl. lia. }
  split.
  - rewrite parse_packet_frame. fold ck. rewrite Z.eqb_refl.
    unfold h2. cbn [negb]. rewrite type_roundtrip. reflexivity.
  - intros c Hc Hne. unfold with_checksum. rewrite Hlen in *.
    simpl in Hne. rewrite lookup_app_r in Hne by lia.
    replace (length p + 0 - length p)%nat with 0%nat in Hne by lia. simpl in Hne.
    assert (Hset : <[(4 + (length p + 0))%nat := c]> (0xC0 :: h1 :: h2 :: h3 :: p ++ [ck; 0xC0])
                   = 0xC0 :: h1 :: h2 :: h3 :: p ++ [c; 0xC0]).
    { simpl. do 4 f_equal. rewrite insert_app_r_alt by lia.
      replace (length p + 0 - length p)%nat with 0%nat by lia. reflexivity. }
    rewrite Hset, parse_packet_frame. fold ck.
    destruct (Z.eqb_spec ck c) as [->|_]; [congruence | reflexivity].
Qed.

Lemma h5_roundtrip_and_checksum_witness :
  exists frame tx',
    create_packet init VENDOR [1; 2; 3] = (Ok frame, tx')
    /\ fst (parse_packet init frame) = Ok (VENDOR, [1; 2; 3])
    /\ forall c, is_byte c ->
         frame !! (length frame - 2)%nat <> Some c ->
         fst (parse_packet init (with_checksum frame c)) = Raise ChecksumMismatch.
Proof.
  apply (h5_roundtrip_and_checksum init init VENDOR [1; 2; 3]).
  - unfold wf. simpl. lia.
  - repeat constructor; unfold is_byte; lia.
Defined.

End H5Facts.

Module FirmwareLoaderFacts.

Import FirmwareLoader PyFacts H5Facts.

Lemma parse_frame_of rx st t p :
  fst (H5.parse_packet rx (H5.frame_of st t p)) = Ok (t, p).
Proof.
  unfold H5.frame_of. cbv zeta. rewrite parse_packet_frame, Z.eqb_refl.
  cbn [negb]. rewrite type_roundtrip. reflexivity.
Qed.

Lemma command_in_frame_of st p : command_in (H5.frame_of st H5.HCI_COMMAND p) = Some p.
Proof.
  unfold command_in.
  pose proof (parse_frame_of H5.init st H5.HCI_COMMAND p) as H.
  destruct (H5.parse_packet _ _) as [[[t q]|e] st']; simpl in H; inversion H; reflexivity.
Qed.

Lemma parse_packet_seq st data : H5.seq_num (snd (H5.parse_packet st data)) = H5.seq_num st.
Proof.
  unfold H5.parse_packet.
  repeat match goal with |- context [if ?b then _ else _] => destruct b end;
    try reflexivity.
  destruct (H5.type_of_value _); reflexivity.
Qed.

Lemma read_packet_keeps self :
  tx (snd (read_packet self)) = tx self
  /\ H5.seq_num (h5 (snd (read_packet self))) = H5.seq_num (h5 self).
Proof.
  unfold read_packet.
  destruct (skip_to_start _) as [rest|]; [|split; reflexivity].
  destruct (read_to_end _ _) as [[packet rest']|]; [|split; reflexivity].
  pose proof (parse_packet_seq (h5 self) packet) as Hseq.
  destruct (H5.parse_packet _ _) as [[[t q]|e] st']; simpl in *; split; auto.
Qed.

(** One [send_hci_command]: exactly one frame is written, carrying the
    opcode, the parameter length and the parameters. *)
Lemma send_hci_command_tx opcode params self :
  H5.wf (h5 self) -> bytes_ok params ->
  0 <= opcode <= 0xFFFF -> (length params <= 255)%nat ->
  let self' := snd (send_hci_command opcode params self) in
  tx self' = tx self ++ [H5.frame_of (h5 self) H5.HCI_COMMAND (hci_command_bytes opcode params)]
  /\ H5.wf (h5 self').
Proof.
  intros Hwf Hp Hop Hlen. unfold send_hci_command, pack_HB.
  replace ((0 <=? opcode) && (opcode <=? 65535)) with true
    by (symmetry; apply andb_true_iff; lia).
  replace (is_byteb (Z.of_nat (length params))) with true
    by (symmetry; apply is_byteb_spec; unfold is_byte; lia).
  cbn [andb].
  rewrite create_packet_frame; [| exact Hwf |].
  - match goal with |- context [read_packet ?s] =>
      destruct (read_packet_keeps s) as [Htx Hseq] end.
    cbv zeta. rewrite Htx. cbn [tx h5] in *. split; [reflexivity|].
    unfold H5.wf in *. rewrite Hseq. cbn [H5.seq_num].
    apply Z.mod_pos_bound. lia.
  - unfold bytes_ok. cbn [app]. rewrite !Forall_cons. split_and!; [| | | exact Hp].
    + apply land_byte. lia.
    + unfold is_byte. split; [apply Z.shiftr_nonneg; lia|].
      rewrite Z.shiftr_div_pow2 by lia. change (2 ^ 8) with 256.
      apply Z.div_lt_upper_bound; lia.
    + unfold is_byte. lia.
Qed.

Lemma chunk_length (fw : list Z) off :
  (off < length fw)%nat ->
  (0 < length (slice fw off (off + chunk_size)) <= 252)%nat.
Proof.
  intros H. unfold slice, chunk_size. rewrite length_take, length_drop. lia.
Qed.

Lemma pack_BH_chunk n :
  (n <= 252)%nat ->
  pack_BH 0x20 (Z.of_nat n) = Some [0x20; Z.land (Z.of_nat n) 0xFF; Z.shiftr (Z.of_nat n) 8].
Proof.
  intros H. unfold pack_BH.
  replace ((0 <=? Z.of_nat n)) with true by (symmetry; apply Z.leb_le; lia).
  replace ((Z.of_nat n <=? 65535)) with true by (symmetry; apply Z.leb_le; lia).
  reflexivity.
Qed.

Lemma download_params_ok chunk :
  bytes_ok chunk -> (length chunk <= 252)%nat ->
  bytes_ok (download_params chunk) /\ (length (download_params chunk) <= 255)%nat.
Proof.
  intros Hb Hl. unfold download_params. cbv zeta. cbn [app]. split; [|simpl; lia].
  unfold bytes_ok. rewrite !Forall_cons. split_and!; [| | | exact Hb].
  - unfold is_byte. lia.
  - apply land_byte. lia.
  - rewrite Z.shiftr_div_pow2 by lia. change (2 ^ 8) with 256.
    rewrite Z.div_small by lia. unfold is_byte. lia.
Qed.

(** The loop from chunk [j] on: it ends within the fuel, writes one frame
    per chunk it starts, and when it ends normally the chunks make up the
    rest of the file. *)
Lemma download_loop_spec fw :
  bytes_ok fw ->
  forall fuel j self,
    H5.wf (h5 self) ->
    (0 < fuel)%nat ->
    (length fw + chunk_size <= header_size + j * chunk_size + chunk_size * fuel)%nat ->
    exists r self' frames,
      download_loop fuel fw (header_size + j * chunk_size) self = Some (r, self')
      /\ tx self' = tx self ++ frames
      /\ (forall k frame, frames !! k = Some frame ->
            command_in frame = Some (chunk_command fw (j + k))
            /\ (0 < length (chunk_at fw (j + k)) <= 252)%nat)
      /\ (r = Ok tt ->
          concat (map (chunk_at fw) (seq j (length frames)))
          = drop (header_size + j * chunk_size) fw).
Proof.
  intros Hfw. induction fuel as [|fuel IH]; intros j self Hwf Hpos Hfuel; [lia|].
  cbn [download_loop].
  destruct (Nat.ltb_spec (header_size + j * chunk_size) (length fw)) as [Hlt|Hge].
  2:{ exists (Ok tt), self, []. rewrite app_nil_r. split_and!; try reflexivity.
      - intros k frame Hk. discriminate.
      - intros _. simpl. symmetry. apply drop_ge. exact Hge. }
  pose proof (chunk_length fw _ Hlt) as Hchunk.
  fold (chunk_at fw j) in *.
  destruct (chunk_at fw j) as [|b chunk'] eqn:Echunk; [simpl in Hchunk; lia|].
  rewrite <- Echunk in *. clear b chunk' Echunk.
  rewrite pack_BH_chunk by lia.
  change ([32; Z.land (Z.of_nat (length (chunk_at fw j))) 255;
           Z.of_nat (length (chunk_at fw j)) ≫ 8] ++ chunk_at fw j)
    with (download_params (chunk_at fw j)).
  destruct (download_params_ok (chunk_at fw j)) as [Hpb Hpl];
    [apply bytes_ok_slice, Hfw | lia |].
  destruct (send_hci_command_tx 0xFC20 (download_params (chunk_at fw j)) self)
    as [Htx Hwf']; [exact Hwf | exact Hpb | lia | exact Hpl |].
  set (frame0 := H5.frame_of (h5 self) H5.HCI_COMMAND
                   (hci_command_bytes 0xFC20 (download_params (chunk_at fw j)))) in *.
  assert (Hframe0 : command_in frame0 = Some (chunk_command fw j))
    by apply command_in_frame_of.
  destruct (send_hci_command _ _ self) as [[resp|e] self1]; cbn [snd] in *.
  - destruct (IH (S j) self1) as (r & self' & frames & Hrun & Htx' & Hframes & Hcat).
    + exact Hwf'.
    + unfold chunk_size, header_size in *. lia.
    + unfold chunk_size, header_size in *. lia.
    + exists r, self', (frame0 :: frames). split_and!.
      * rewrite <- Hrun. f_equal. unfold chunk_size, header_size. lia.
      * rewrite Htx', Htx, <- app_assoc. reflexivity.
      * intros [|k] frame Hk.
        -- inversion Hk; subst. rewrite Nat.add_0_r. split; [exact Hframe0 | exact Hchunk].
        -- replace (j + S k)%nat with (S j + k)%nat by lia. apply Hframes, Hk.
      * intros Hr. simpl. rewrite (Hcat Hr).
        unfold chunk_at, slice.
        replace (header_size + j * chunk_size + chunk_size - (header_size + j * chunk_size))%nat
          with chunk_size by lia.
        replace (header_size + S j * chunk_size)%nat
          with (header_size + j * chunk_size + chunk_size)%nat
          by (unfold chunk_size, header_size; lia).
        rewrite <- (drop_drop fw chunk_size (header_size + j * chunk_size)).
        apply take_drop.
  - exists (Raise e), self1, [frame0]. split_and!; [reflexivity | exact Htx | | discriminate].
    intros [|k] frame Hk; [|destruct k; discriminate].
    inversion Hk; subst. rewrite Nat.add_0_r. split; [exact Hframe0 | exact Hchunk].
Qed.

Lemma chunk_command_bytes fw k :
  (length (chunk_at fw k) <= 252)%nat ->
  chunk_command fw k =
  [0x20; 0xFC; Z.of_nat (3 + length (chunk_at fw k));
   0x20; Z.of_nat (length (chunk_at fw k)); 0] ++ chunk_at fw k.
Proof.
  intros H. unfold chunk_command, hci_command_bytes, download_params. cbv zeta.
  change (Z.land 64544 255) with 32. change (64544 ≫ 8) with 252.
  rewrite Z.shiftr_div_pow2 by lia. change (2 ^ 8) with 256.
  rewrite Z.div_small by lia.
  change 255 with (Z.ones 8). rewrite Z.land_ones by lia. change (2 ^ 8) with 256.
  rewrite Z.mod_small by lia. simpl. repeat f_equal; lia.
Qed.

(** ** C2 (as the code has it): the download step streams the body that
    follows the 16-byte header in chunks of at most 252 bytes, one vendor
    command [0xFC20] per chunk.  The loop always terminates; the [k]-th
    frame it writes carries the HCI command [20 FC <3+n>] whose parameters
    are the constant byte [0x20], the chunk length [n] as a little-endian
    u16, and the [k]-th chunk; and when the loop ends without an error the
    chunks sent are the whole body, in order.  The first parameter byte is
    the constant [0x20], not a running index. *)
Theorem download_streams_chunks (fw : list Z) (self : Loader) :
  H5.wf (h5 self) -> bytes_ok fw ->
  exists r self' frames,
    download_firmware fw self = Some (r, self')
    /\ tx self' = tx self ++ frames
    /\ (forall k frame, frames !! k = Some frame ->
          let chunk := chunk_at fw k in
          let n := length chunk in
          (0 < n <= 252)%nat
          /\ command_in frame =
             Some ([0x20; 0xFC; Z.of_nat (3 + n); 0x20; Z.of_nat n; 0] ++ chunk))
    /\ (r = Ok tt ->
        concat (map (chunk_at fw) (seq 0 (length frames))) = drop 16 fw).
Proof.
  intros Hwf Hfw. unfold download_firmware.
  destruct (from_bytes _) as [header|].
  2:{ exists (Raise StructError), self, []. rewrite app_nil_r.
      split_and!; [reflexivity | reflexivity | | discriminate].
      intros k frame Hk. discriminate. }
  destruct (download_loop_spec fw Hfw (S (length fw)) 0 self Hwf)
    as (r & self' & frames & Hrun & Htx & Hframes & Hcat).
  - lia.
  - unfold chunk_size, header_size. lia.
  - exists r, self', frames. split_and!.
    + exact Hrun.
    + exact Htx.
    + intros k frame Hk. cbv zeta. destruct (Hframes k frame Hk) as [Hcmd Hlen].
      simpl in Hcmd, Hlen. split; [exact Hlen|].
      rewrite Hcmd. f_equal. apply chunk_command_bytes. lia.
    + exact Hcat.
Qed.

Lemma download_streams_chunks_witness :
  exists r self' frames,
    download_firmware (repeat 0 16 ++ [1; 2; 3]) sample_loader = Some (r, self')
    /\ tx self' = tx sample_loader ++ frames
    /\ (forall k frame, frames !! k = Some frame ->
          let chunk := chunk_at (repeat 0 16 ++ [1; 2; 3]) k in
          let n := length chunk in
          (0 < n <= 252)%nat
          /\ command_in frame =
             Some ([0x20; 0xFC; Z.of_nat (3 + n); 0x20; Z.of_nat n; 0] ++ chunk))
    /\ (r = Ok tt ->
        concat (map (chunk_at (repeat 0 16 ++ [1; 2; 3])) (seq 0 (length frames)))
        = drop 16 (repeat 0 16 ++ [1; 2; 3])).
Proof.
  apply (download_streams_chunks (repeat 0 16 ++ [1; 2; 3]) sample_loader).
  - unfold H5.wf. simpl. lia.
  - simpl. unfold bytes_ok. repeat (apply Forall_cons; split; [unfold is_byte; lia|]).
    apply Forall_nil. exact I.
Defined.

(** On the sample image the first download command starts its parameters
    with [0x20]. *)
Lemma sample_first_command :
  exists r self' frame rest cmd,
    download_firmware sample_fw sample_loader = Some (r, self')
    /\ tx self' = frame :: rest
    /\ command_in frame = Some cmd
    /\ cmd !! 3%nat = Some 0x20.
Proof.
  vm_compute. eexists _, _, _, _, _.
  split; [reflexivity|]. split; [reflexivity|]. split; [vm_compute; reflexivity|].
  reflexivity.
Qed.

Lemma index_prefix_fails base : base <> 0x20 -> ~ index_prefixed base sample_fw sample_loader.
Proof.
  intros Hbase H.
  destruct sample_first_command as (r & self' & frame & rest & cmd & Hrun & Htx & Hcmd & H3).
  specialize (H r self' 0%nat frame cmd Hrun).
  rewrite Htx in H. specialize (H eq_refl Hcmd).
  rewrite H3 in H. inversion H. lia.
Qed.

(** ** C2, as the specification words it: the parameter prefix is not the chunk's
    running index, whether chunks are counted from 0 or from 1. *)
Lemma download_index_counterexample :
  ~ index_prefixed 0 sample_fw sample_loader
  /\ ~ index_prefixed 1 sample_fw sample_loader.
Proof. split; apply index_prefix_fails; lia. Qed.

End FirmwareLoaderFacts.

Module AutoConnectFacts.

Import AutoConnect.


Lemma update_metrics_config s t now c : config (update_metrics s t now c) = config c.
Proof. reflexivity. Qed.

Lemma update_metrics_failure_count t now c :
  consecutive_failures (metrics (update_metrics false t now c))
  = (consecutive_failures (metrics c) + 1)%N.
Proof. reflexivity. Qed.







Lemma attempt_failed_retry o t0 t1 now c :
  failed o ->
  retry_count (fst (attempt_connection o t0 t1 now c)) = retry_count c + 1
  /\ config (fst (attempt_connection o t0 t1 now c)) = config c
  /\ is_enabled (fst (attempt_connection o t0 t1 now c)) = is_enabled c
  /\ pause_until (fst (attempt_connection o t0 t1 now c)) = pause_until c.
Proof. intros Ho. destruct o; [contradiction Ho; reflexivity | | |]; repeat split. Qed.

(** ** C3 (as the code has it): exponential back-off scenario.
    With [max_retries = 3], exponential strategy, initial delay 1 s, cap
    60 s and the default failure limit, the delay computed after the first
    failed attempt is 2 s, after the second 4 s and after the third 8 s
    (the retry counter is incremented before the delay is computed); after
    the third failure [should_retry] is false. *)
Theorem retry_scenario_delays (o1 o2 o3 : ConnectOutcome) (a0 a1 a2 b0 b1 b2 c0 c1 c2 : Q) :
  failed o1 -> failed o2 -> failed o3 ->
  let s1 := fst (attempt_connection o1 a0 a1 a2 (new_connection scenario_config)) in
  let s2 := fst (attempt_connection o2 b0 b1 b2 (apply_op OpRetryWait s1)) in
  let s3 := fst (attempt_connection o3 c0 c1 c2 (apply_op OpRetryWait s2)) in
  (calculate_retry_delay s1 == 2)%Q
  /\ (calculate_retry_delay s2 == 4)%Q
  /\ (calculate_retry_delay s3 == 8)%Q
  /\ (forall now, should_retry now (apply_op OpRetryWait s3) = false)
  /\ (o1 = ConnectFalse ->
      next_retry_delay_of
        (snd (attempt_connection o1 a0 a1 a2 (new_connection scenario_config)))
      = Some (calculate_retry_delay s1)).
Proof.
  intros H1 H2 H3.
  destruct o1; try (exfalso; apply H1; reflexivity);
  destruct o2; try (exfalso; apply H2; reflexivity);
  destruct o3; try (exfalso; apply H3; reflexivity);
  cbv zeta; split_and!; try reflexivity; try discriminate.
Qed.

Lemma retry_scenario_delays_witness :
  let s1 := fst (attempt_connection ConnectFalse 0 1 1 (new_connection scenario_config)) in
  let s2 := fst (attempt_connection ConnectFalse 3 4 4 (apply_op OpRetryWait s1)) in
  let s3 := fst (attempt_connection ConnectFalse 8 9 9 (apply_op OpRetryWait s2)) in
  (calculate_retry_delay s1 == 2)%Q
  /\ (calculate_retry_delay s2 == 4)%Q
  /\ (calculate_retry_delay s3 == 8)%Q
  /\ (forall now, should_retry now (apply_op OpRetryWait s3) = false)
  /\ (ConnectFalse = ConnectFalse ->
      next_retry_delay_of
        (snd (attempt_connection ConnectFalse 0 1 1 (new_connection scenario_config)))
      = Some (calculate_retry_delay s1)).
Proof.
  apply (retry_scenario_delays ConnectFalse ConnectFalse ConnectFalse 0 1 1 3 4 4 8 9 9);
    unfold failed; discriminate.
Defined.

(** ** C3, as the specification words it: after the first failed attempt the
    [connection_failed] event does not announce a delay of 1 s. *)
Lemma retry_scenario_counterexample :
  exists d,
    next_retry_delay_of
      (snd (attempt_connection ConnectFalse 0 1 1 (new_connection scenario_config)))
    = Some d
    /\ ~ (d == 1)%Q.
Proof. eexists. split; [reflexivity|]. vm_compute. discriminate. Qed.

End AutoConnectFacts.

Module HFPFacts.

Import HFP.
Local Open Scope string_scope.
Local Open Scope Z_scope.

(** Case analysis on every branch a handler takes. *)
Ltac branches :=
  repeat match goal with
         | |- context [if ?b then _ else _] => destruct b
         | |- context [match ?x with Ok _ => _ | Raise _ => _ end] => destruct x
         | |- context [match ?x with Some _ => _ | None => _ end] => destruct x
         end.

Lemma update_indicator_flow i v h :
  at_command_flow (snd (update_indicator i v h)) = at_command_flow h.
Proof. unfold update_indicator. branches; reflexivity. Qed.

Lemma handle_indicator_event_flow cmd h :
  at_command_flow (snd (handle_indicator_event cmd h)) = at_command_flow h.
Proof.
  unfold handle_indicator_event. cbv zeta.
  destruct (1 <? _)%nat; [|reflexivity].
  destruct (_ =? 2)%nat; [|reflexivity].
  destruct (int_or_raise _); [|reflexivity].
  destruct (int_or_raise _); [|reflexivity].
  apply update_indicator_flow.
Qed.

Lemma handle_outgoing_flow cmd h :
  at_command_flow (snd (handle_outgoing_command cmd h)) = at_command_flow h.
Proof. unfold handle_outgoing_command. branches; reflexivity. Qed.

Lemma handle_incoming_flow cmd h :
  at_command_flow (snd (handle_incoming_command cmd h)) = at_command_flow h.
Proof.
  unfold handle_incoming_command.
  destruct (PyStr.startswith cmd "+BRSF:"); [branches; reflexivity|].
  destruct (PyStr.startswith cmd "+BAC:"); [reflexivity|].
  destruct (PyStr.startswith cmd "+BCS:"); [branches; reflexivity|].
  destruct (PyStr.startswith cmd "+CIND:"); [reflexivity|].
  destruct (PyStr.startswith cmd "+CIEV:"); [apply handle_indicator_event_flow | reflexivity].
Qed.

(** Every call appends exactly one entry, whether or not it raises. *)
Lemma process_at_command_flow cmd resp dir now h :
  at_command_flow (snd (process_at_command cmd resp dir now h))
  = (at_command_flow h
     ++ [mkAT now (PyStr.strip cmd) (PyStr.strip resp) dir (state h)])%list.
Proof.
  unfold process_at_command. cbv zeta.
  destruct (String.eqb dir "TX");
    [rewrite handle_outgoing_flow | rewrite handle_incoming_flow]; reflexivity.
Qed.

(** ** C9 (as the code has it): the AT command trace is an unbounded list.
    Every [process_at_command] call appends one entry and none is ever
    evicted: after any sequence of calls the stored flow is the old flow
    followed by one entry per call, so its length is not bounded by 1000. *)
Theorem command_flow_grows (steps : list Step) (h : Handler) :
  exists added,
    at_command_flow (run_trace steps h) = (at_command_flow h ++ added)%list
    /\ length added = length steps.
Proof.
  revert h. induction steps as [|[[cmd dir] now] steps IH]; intros h.
  - exists []. rewrite app_nil_r. split; reflexivity.
  - unfold run_trace. cbn [fold_left].
    destruct (IH (snd (process_at_command cmd "" dir now h))) as (added & Hflow & Hlen).
    unfold run_trace in Hflow. rewrite Hflow, process_at_command_flow, <- app_assoc.
    eexists. split; [reflexivity|]. simpl. rewrite Hlen. reflexivity.
Qed.

(** ** C9, as the specification words it (a ring of at most 1000 entries):
    1001 calls leave 1001 entries. *)
Lemma command_flow_counterexample :
  ~ (length (at_command_flow
               (run_trace (repeat ("AT+CIND?", "TX", 0%Q) 1001) (new_handler HF)))
     <= 1000)%nat.
Proof.
  assert (E : length (at_command_flow
                        (run_trace (repeat ("AT+CIND?", "TX", 0%Q) 1001) (new_handler HF)))
              = 1001%nat) by (vm_compute; reflexivity).
  rewrite E. lia.
Qed.

Lemma slc_trace_flow t1 t2 t3 t4 t5 t6 :
  map timestamp (at_command_flow (run_trace (slc_trace t1 t2 t3 t4 t5 t6) (new_handler HF)))
  = [t1; t2; t3; t4; t5; t6].
Proof. reflexivity. Qed.

Lemma cmd_delays_six (c1 c2 c3 c4 c5 c6 : ATCommand) :
  cmd_delays [c1; c2; c3; c4; c5; c6]
  = [timestamp c2 - timestamp c1; timestamp c3 - timestamp c2;
     timestamp c4 - timestamp c3; timestamp c5 - timestamp c4;
     timestamp c6 - timestamp c5]%Q.
Proof. reflexivity. Qed.

Lemma slc_trace_timing t1 t2 t3 t4 t5 t6 :
  (t6 - t1 <= 5)%Q ->
  timing_issues (run_trace (slc_trace t1 t2 t3 t4 t5 t6) (new_handler HF)) = [].
Proof.
  intros Ht. unfold timing_issues.
  pose proof (slc_trace_flow t1 t2 t3 t4 t5 t6) as Hflow.
  destruct (at_command_flow _) as [|c1 [|c2 [|c3 [|c4 [|c5 [|c6 [|c7 rest]]]]]]];
    try discriminate Hflow.
  injection Hflow as E1 E2 E3 E4 E5 E6.
  rewrite cmd_delays_six, E1, E2, E3, E4, E5, E6.
  change (1 <? length [c1; c2; c3; c4; c5; c6])%nat with true. cbv iota.
  replace (Qle_bool _ 1) with true; [reflexivity|].
  symmetry. apply Qle_bool_iff. cbn [length qsum fold_left].
  apply Qle_shift_div_r; [reflexivity|].
  assert (Hsum : (0 + (t2 - t1) + (t3 - t2) + (t4 - t3) + (t5 - t4) + (t6 - t5)
                  == t6 - t1)%Q) by ring.
  rewrite Hsum. exact Ht.
Qed.

Lemma slc_trace_slow t1 t2 t3 t4 t5 t6 :
  ~ (t6 - t1 <= 5)%Q ->
  timing_issues (run_trace (slc_trace t1 t2 t3 t4 t5 t6) (new_handler HF)) <> [].
Proof.
  intros Ht. unfold timing_issues.
  pose proof (slc_trace_flow t1 t2 t3 t4 t5 t6) as Hflow.
  destruct (at_command_flow _) as [|c1 [|c2 [|c3 [|c4 [|c5 [|c6 [|c7 rest]]]]]]];
    try discriminate Hflow.
  injection Hflow as E1 E2 E3 E4 E5 E6.
  rewrite cmd_delays_six, E1, E2, E3, E4, E5, E6.
  change (1 <? length [c1; c2; c3; c4; c5; c6])%nat with true. cbv iota.
  replace (Qle_bool _ 1) with false; [discriminate|].
  symmetry. apply not_true_is_false. intros H. apply Ht.
  apply Qle_bool_iff in H. cbn [length qsum fold_left] in H.
  assert (Hsum : (t6 - t1
                  == (0 + (t2 - t1) + (t3 - t2) + (t4 - t3) + (t5 - t4) + (t6 - t5))
                     / inject_Z (Z.of_nat 5) * 5)%Q) by (field; discriminate).
  rewrite Hsum. change 5%Q with (1 * 5)%Q at 2.
  apply Qmult_le_compat_r; [exact H | discriminate].
Qed.

(** The codec-negotiation issue is nested under the [SLC_CONNECTING]
    branch of [analyze_failure]. *)
Lemma codec_issue_only_in_slc h :
  has_issue "Codec negotiation incomplete" (analyze_failure h) = true ->
  state h = SLC_CONNECTING.
Proof.
  unfold has_issue, analyze_failure. cbn [likely_issues]. rewrite existsb_app.
  intros H. apply orb_true_iff in H as [H|H].
  - unfold state_issues in H.
    destruct (state_eqb (state h) SLC_CONNECTING) eqn:E.
    + destruct (state h); try discriminate E. reflexivity.
    + destruct (state_eqb (state h) AUDIO_CONNECTING); [|discriminate H].
      cbn [app] in H. destruct (_ && _); discriminate H.
  - unfold timing_issues in H. destruct (1 <? _)%nat; [|discriminate H].
    cbv zeta in H. destruct (negb _); discriminate H.
Qed.

(** ** C4 (as the code has it): the stall-diagnosis scenario.
    Fed one call at a time, the two [BRSF] steps raise [ValueError] (the
    masks [0x80] and [0x200] are not base-10 literals) and the other four
    return.  Whatever the clock readings, after the six steps the selected
    codec is still CVSD, the handler is not in [AUDIO_CONNECTED] and no
    state-based issue is reported; the likely-issues list is empty exactly
    when the steps are at most 1 s apart on average.  Then [AT+BCC] (TX)
    with no [+BCS] reply puts the state at [AUDIO_CONNECTING], and
    [analyze_failure] reports "SCO audio connection failed" but not "Codec
    negotiation incomplete", which it reports, for any handler, only in
    state [SLC_CONNECTING]. *)
Theorem stall_scenario (t1 t2 t3 t4 t5 t6 t7 : Q) :
  let h6 := run_trace (slc_trace t1 t2 t3 t4 t5 t6) (new_handler HF) in
  let h7 := run_trace [bcc_step t7] h6 in
  trace_outcomes (slc_trace t1 t2 t3 t4 t5 t6) (new_handler HF)
    = [Raise (ValueError "0x80"); Raise (ValueError "0x200"); Ok tt; Ok tt; Ok tt; Ok tt]
  /\ selected_codec h6 = "CVSD"
  /\ state h6 <> AUDIO_CONNECTED
  /\ state_issues h6 = []
  /\ ((t6 - t1 <= 5)%Q <-> likely_issues (analyze_failure h6) = [])
  /\ state h7 = AUDIO_CONNECTING
  /\ has_issue "SCO audio connection failed" (analyze_failure h7) = true
  /\ has_issue "Codec negotiation incomplete" (analyze_failure h7) = false
  /\ (forall h : Handler,
        has_issue "Codec negotiation incomplete" (analyze_failure h) = true ->
        state h = SLC_CONNECTING).
Proof.
  intros h6 h7. split_and!.
  - reflexivity.
  - reflexivity.
  - discriminate.
  - reflexivity.
  - split.
    + intros Ht. unfold analyze_failure. cbn [likely_issues]. unfold h6.
      rewrite slc_trace_timing by exact Ht. reflexivity.
    + intros Hempty. destruct (Qlt_le_dec 5 (t6 - t1)) as [Hslow|Hfast]; [|exact Hfast].
      exfalso. apply (slc_trace_slow t1 t2 t3 t4 t5 t6); [apply Qlt_not_le, Hslow|].
      unfold analyze_failure in Hempty. cbn [likely_issues] in Hempty.
      apply app_eq_nil in Hempty as [_ Htiming]. exact Htiming.
  - reflexivity.
  - unfold has_issue, analyze_failure. cbn [likely_issues].
    rewrite existsb_app. replace (existsb _ (state_issues h7)) with true; reflexivity.
  - destruct (has_issue "Codec negotiation incomplete" (analyze_failure h7)) eqn:E;
      [|reflexivity].
    apply codec_issue_only_in_slc in E. discriminate E.
  - exact codec_issue_only_in_slc.
Qed.

Lemma stall_scenario_witness :
  let h6 := run_trace (slc_trace 0 (1#2) 1 (3#2) 2 (5#2)) (new_handler HF) in
  let h7 := run_trace [bcc_step 3] h6 in
  let hs := set_state SLC_CONNECTING
              (set_features (parse_hf_features 128 no_features) h7) in
  ((5#2) - 0 <= 5)%Q
  /\ likely_issues (analyze_failure h6) = []
  /\ state h7 = AUDIO_CONNECTING
  /\ has_issue "SCO audio connection failed" (analyze_failure h7) = true
  /\ has_issue "Codec negotiation incomplete" (analyze_failure h7) = false
  /\ has_issue "Codec negotiation incomplete" (analyze_failure hs) = true
  /\ state hs = SLC_CONNECTING.
Proof.
  intros h6 h7 hs.
  assert (Ht : ((5#2) - 0 <= 5)%Q) by (vm_compute; discriminate).
  assert (Hs : has_issue "Codec negotiation incomplete" (analyze_failure hs) = true)
    by reflexivity.
  destruct (stall_scenario 0 (1#2) 1 (3#2) 2 (5#2) 3)
    as (_ & _ & _ & _ & Hempty & Hstate & Hsco & Hcodec & Honly).
  split_and!; [exact Ht | exact (proj1 Hempty Ht) | exact Hstate | exact Hsco | exact Hcodec
              | exact Hs | exact (Honly hs Hs)].
Defined.

(** ** C4, as the specification words it: after [AT+BCC] the analysis does
    not report "Codec negotiation incomplete" (and the six steps do not
    leave the handler in [CONNECTED]). *)
Lemma stall_scenario_counterexample :
  let h6 := run_trace (slc_trace 0 (1#2) 1 (3#2) 2 (5#2)) (new_handler HF) in
  let h7 := run_trace [bcc_step 3] h6 in
  ~ (state h6 = CONNECTED
     /\ likely_issues (analyze_failure h6) = []
     /\ selected_codec h6 = "CVSD"
     /\ state h7 = AUDIO_CONNECTING
     /\ has_issue "SCO audio connection failed" (analyze_failure h7) = true
     /\ has_issue "Codec negotiation incomplete" (analyze_failure h7) = true).
Proof.
  intros h6 h7 (_ & _ & _ & _ & _ & Hcodec). vm_compute in Hcodec. discriminate.
Qed.

Lemma dict_at {V} (d : list (string * V)) : forall j k x,
  NoDup (map fst d) -> d !! j = Some (k, x) ->
  dict_get k d = Some x /\ forall y, dict_set k y d = <[j := (k, y)]> d.
Proof.
  induction d as [|[k' x'] d IH]; intros j k x Hnd Hj; [destruct j; discriminate|].
  simpl in Hnd. apply NoDup_cons in Hnd as [Hnotin Hnd].
  destruct j as [|j]; simpl in Hj.
  - inversion Hj; subst. simpl. rewrite String.eqb_refl. split; reflexivity.
  - assert (Hne : String.eqb k k' = false).
    { apply String.eqb_neq. intros ->. apply Hnotin.
      apply list_elem_of_lookup. exists j. rewrite list_lookup_fmap, Hj. reflexivity. }
    destruct (IH j k x Hnd Hj) as [Hget Hset].
    simpl. rewrite Hne. split; [exact Hget|].
    intros y. rewrite Hset. reflexivity.
Qed.

Lemma update_indicator_at h i v j :
  NoDup (map fst (indicators h)) ->
  (i <= Z.of_nat (length (indicators h))) ->
  (j < length (indicators h))%nat ->
  py_index (map fst (indicators h)) (i - 1) = map fst (indicators h) !! j ->
  updated_at j v h (update_indicator i v h).
Proof.
  intros Hnd Hi Hj Hidx. unfold update_indicator, updated_at. cbv zeta.
  rewrite length_map.
  replace (i <=? Z.of_nat (length (indicators h))) with true by (symmetry; apply Z.leb_le; lia).
  rewrite Hidx, list_lookup_fmap.
  destruct (lookup_lt_is_Some_2 (indicators h) j Hj) as [[name ind] Hlook].
  rewrite Hlook. cbn [fmap option_fmap option_map fst snd].
  destruct (dict_at (indicators h) j name ind Hnd Hlook) as [Hget Hset].
  exists name, ind. split_and!; [reflexivity | reflexivity |].
  cbn [set_call_state set_indicators indicators]. unfold set_indicator_value.
  rewrite Hget. apply Hset.
Qed.

(** The behaviour of an indicator event by index, with [n >= 1] indicators
    registered: indices [1..n] update the indicator in registration order,
    larger indices change nothing, index 0 wraps to the last indicator, and
    indices at or below [-n] raise [IndexError]. *)
Lemma update_indicator_cases h i v :
  let n := length (indicators h) in
  NoDup (map fst (indicators h)) -> (0 < n)%nat ->
  (1 <= i <= Z.of_nat n -> updated_at (Z.to_nat (i - 1)) v h (update_indicator i v h))
  /\ (Z.of_nat n < i -> update_indicator i v h = (Ok tt, h))
  /\ (i = 0 -> updated_at (n - 1) v h (update_indicator i v h))
  /\ (i <= - Z.of_nat n -> fst (update_indicator i v h) = Raise IndexError).
Proof.
  intros n Hnd Hn. split_and!.
  - intros Hi. apply update_indicator_at; [exact Hnd | lia | lia |].
    unfold py_index. rewrite length_map. fold n.
    replace ((0 <=? i - 1) && (i - 1 <? Z.of_nat n)) with true; [reflexivity|].
    symmetry. apply andb_true_iff. split; [apply Z.leb_le | apply Z.ltb_lt]; lia.
  - intros Hi. unfold update_indicator. cbv zeta. rewrite length_map. fold n.
    replace (i <=? Z.of_nat n) with false; [reflexivity|].
    symmetry. apply Z.leb_gt. lia.
  - intros ->. apply update_indicator_at; [exact Hnd | lia | lia |].
    unfold py_index. rewrite length_map. fold n.
    replace ((0 <=? 0 - 1) && (0 - 1 <? Z.of_nat n)) with false by reflexivity.
    replace ((- Z.of_nat n <=? 0 - 1) && (0 - 1 <? 0)) with true.
    + f_equal. lia.
    + symmetry. apply andb_true_iff. split; [apply Z.leb_le | apply Z.ltb_lt]; lia.
  - intros Hi. unfold update_indicator. cbv zeta. rewrite length_map. fold n.
    replace (i <=? Z.of_nat n) with true by (symmetry; apply Z.leb_le; lia).
    unfold py_index. rewrite length_map. fold n.
    replace ((0 <=? i - 1) && (i - 1 <? Z.of_nat n)) with false.
    + replace ((- Z.of_nat n <=? i - 1) && (i - 1 <? 0)) with false; [reflexivity|].
      symmetry. apply andb_false_iff. left. apply Z.leb_gt. lia.
    + symmetry. apply andb_false_iff. left. apply Z.leb_gt. lia.
Qed.

(** ** C10 (the code at the failing input): with the two indicators
    [call] and [callsetup] registered, the event [+CIEV:-2,1] makes the
    handler raise [IndexError]: the guard [indicator_idx <= len(ind_names)]
    has no lower bound, and index [-2 - 1] is out of range for two names.
    In general every index at or below minus the number of registered
    indicators raises. *)
Theorem indicator_event_index_error :
  length (indicators two_indicators) = 2%nat
  /\ fst (process_at_command "+CIEV:-2,1" "" "RX" 1 two_indicators) = Raise IndexError
  /\ forall h i v,
       i <= - Z.of_nat (length (indicators h)) ->
       fst (update_indicator i v h) = Raise IndexError.
Proof.
  split_and!; [reflexivity | reflexivity |].
  intros h i v Hi. unfold update_indicator. cbv zeta. rewrite length_map.
  replace (i <=? Z.of_nat (length (indicators h))) with true by (symmetry; apply Z.leb_le; lia).
  unfold py_index. rewrite length_map.
  replace ((0 <=? i - 1) && (i - 1 <? Z.of_nat (length (indicators h)))) with false.
  - replace ((- Z.of_nat (length (indicators h)) <=? i - 1) && (i - 1 <? 0)) with false;
      [reflexivity|].
    symmetry. apply andb_false_iff. left. apply Z.leb_gt. lia.
  - symmetry. apply andb_false_iff. left. apply Z.leb_gt. lia.
Qed.

Lemma indicator_event_index_error_witness :
  -2 <= - Z.of_nat (length (indicators two_indicators))
  /\ fst (update_indicator (-2) 1 two_indicators) = Raise IndexError.
Proof.
  assert (H : -2 <= - Z.of_nat (length (indicators two_indicators)))
    by (vm_compute; discriminate).
  split; [exact H|].
  apply (proj2 (proj2 indicator_event_index_error) two_indicators (-2) 1 H).
Defined.

(** The rest of C10 on the scenario's handler: indices 1 and 2 update
    [call] and [callsetup], index 3 changes nothing, index 0 updates the
    last indicator. *)
Lemma indicator_event_examples :
  updated_at 0 1 two_indicators (update_indicator 1 1 two_indicators)
  /\ updated_at 1 1 two_indicators (update_indicator 2 1 two_indicators)
  /\ update_indicator 3 1 two_indicators = (Ok tt, two_indicators)
  /\ updated_at 1 1 two_indicators (update_indicator 0 1 two_indicators).
Proof.
  assert (Hnd : NoDup (map fst (indicators two_indicators))).
  { change (NoDup ["call"; "callsetup"]). rewrite !NoDup_cons.
    split_and!; [| |apply NoDup_nil; exact I].
    - intros H. apply list_elem_of_singleton in H. discriminate.
    - intros H. inversion H. }
  assert (Hn : (0 < length (indicators two_indicators))%nat) by (vm_compute; lia).
  split_and!.
  - apply (proj1 (update_indicator_cases two_indicators 1 1 Hnd Hn)). vm_compute. split; discriminate.
  - apply (proj1 (update_indicator_cases two_indicators 2 1 Hnd Hn)). vm_compute. split; discriminate.
  - apply (proj1 (proj2 (update_indicator_cases two_indicators 3 1 Hnd Hn))). reflexivity.
  - apply (proj1 (proj2 (proj2 (update_indicator_cases two_indicators 0 1 Hnd Hn)))). reflexivity.
Qed.

End HFPFacts.

Module SCOMonitorFacts.

Import SCOMonitor.
Local Open Scope Q_scope.

(** With no loss and no latency impairment the R-factor is
    [93.2 - 0.1 * jitter], whatever [np_log] is. *)
Lemma r_factor_jitter np_log jitter :
  r_factor np_log 0 0 jitter = (932 # 10) - jitter * (1 # 10).
Proof. reflexivity. Qed.

(** ** C5 (the code at the failing inputs): with no packet loss and no
    latency, a jitter of 900 ms gives R = 3.2 and the score 0.99, below
    1.0; a jitter of 940 ms gives R < 0 and the score 1.0.  The score is
    therefore outside [1.0, 4.5] at the first input and increases with
    jitter between the two: the polynomial is below 1 for 0 < R < 6.5 and
    only R < 0 and R > 100 are clamped. *)
Theorem mos_dips_below_one (np_log : Q -> Q) :
  calculate_mos np_log 0 0 900 == 99 # 100
  /\ calculate_mos np_log 0 0 940 == 1
  /\ calculate_mos np_log 0 0 900 < 1
  /\ ~ (calculate_mos np_log 0 0 940 <= calculate_mos np_log 0 0 900).
Proof.
  assert (H900 : calculate_mos np_log 0 0 900 = 99 # 100) by (vm_compute; reflexivity).
  assert (H940 : calculate_mos np_log 0 0 940 = 100 # 100) by (vm_compute; reflexivity).
  rewrite H900, H940. split_and!.
  - reflexivity.
  - reflexivity.
  - reflexivity.
  - intros H. vm_compute in H. apply H. reflexivity.
Qed.

End SCOMonitorFacts.

Module StrFacts.

Import PyStr.
Local Open Scope string_scope.

Lemma length_append s1 s2 :
  String.length (s1 ++ s2) = (String.length s1 + String.length s2)%nat.
Proof. induction s1 as [|a s1 IH]; simpl; [reflexivity | rewrite IH; reflexivity]. Qed.

Lemma length_of_list l : String.length (string_of_list_ascii l) = length l.
Proof. induction l as [|a l IH]; simpl; [reflexivity | rewrite IH; reflexivity]. Qed.

Lemma free_of_append c s1 s2 : free_of c (s1 ++ s2) = free_of c s1 && free_of c s2.
Proof.
  induction s1 as [|a s1 IH]; simpl; [reflexivity|].
  rewrite IH, andb_assoc. reflexivity.
Qed.

Lemma free_of_repeat c a n :
  Ascii.eqb a c = false -> free_of c (string_of_list_ascii (repeat a n)) = true.
Proof. intros H. induction n as [|n IH]; simpl; [reflexivity | rewrite H, IH; reflexivity]. Qed.

Lemma free_of_list c l :
  Forall (fun a => Ascii.eqb a c = false) l -> free_of c (string_of_list_ascii l) = true.
Proof.
  induction 1 as [|a l Ha _ IH]; simpl; [reflexivity | rewrite Ha, IH; reflexivity].
Qed.

(** Splitting at a separator that the first piece does not contain. *)
Lemma split_aux_free c s : free_of c s = true -> split_aux c s = (s, []).
Proof.
  induction s as [|a s IH]; simpl; [reflexivity|].
  intros H. apply andb_true_iff in H as [Ha Hs]. apply negb_true_iff in Ha.
  rewrite (IH Hs), Ha. reflexivity.
Qed.

Lemma split_free c s : free_of c s = true -> split c s = [s].
Proof. intros H. unfold split. rewrite (split_aux_free c s H). reflexivity. Qed.

Lemma split_append c s rest :
  free_of c s = true -> split c (s ++ String c rest) = s :: split c rest.
Proof.
  intros H. unfold split. induction s as [|a s IH]; simpl.
  - destruct (split_aux c rest) as [cur more]. rewrite Ascii.eqb_refl. reflexivity.
  - simpl in H. apply andb_true_iff in H as [Ha Hs]. apply negb_true_iff in Ha.
    specialize (IH Hs).
    destruct (split_aux c (s ++ String c rest)) as [cur more].
    destruct (split_aux c rest) as [cur' more'].
    rewrite Ha. inversion IH; subst. reflexivity.
Qed.

(** [sep.join(rows).split(sep)] gives the rows back when no row contains
    the separator. *)
Lemma split_concat c rows :
  rows <> [] -> Forall (fun r => free_of c r = true) rows ->
  split c (String.concat (String c "") rows) = rows.
Proof.
  induction rows as [|r rows IH]; intros Hne Hfree; [contradiction|].
  inversion Hfree as [|? ? Hr Hrows]; subst.
  destruct rows as [|r' rows].
  - simpl. apply split_free, Hr.
  - change (String.concat (String c "") (r :: r' :: rows))
      with (r ++ String c (String.concat (String c "") (r' :: rows))).
    rewrite split_append by exact Hr. f_equal. apply IH; [discriminate | exact Hrows].
Qed.

End StrFacts.

Module HexFacts.

Import Hex PyStr StrFacts.
Local Open Scope string_scope.

Lemma hex_digit_not_nl d : Ascii.eqb (hex_digit d) nl = false.
Proof.
  destruct d as [|p]; [reflexivity|].
  destruct p as [[[[p|p|]|[p|p|]|]|[[p|p|]|[p|p|]|]|]|[[[p|p|]|[p|p|]|]|[[p|p|]|[p|p|]|]|]|];
    reflexivity.
Qed.

Lemma to_hex_aux_free fuel : forall n acc,
  free_of nl (to_hex_aux fuel n acc) = free_of nl acc.
Proof.
  induction fuel as [|fuel IH]; intros n acc; simpl.
  - rewrite hex_digit_not_nl. reflexivity.
  - destruct (n / 16 =? 0)%N.
    + simpl. rewrite hex_digit_not_nl. reflexivity.
    + rewrite IH. simpl. rewrite hex_digit_not_nl. reflexivity.
Qed.

Lemma zfill_free w s : free_of nl (zfill w s) = free_of nl s.
Proof. unfold zfill. rewrite free_of_append, free_of_repeat; reflexivity. Qed.

Lemma ljust_free w s : free_of nl (ljust w s) = free_of nl s.
Proof.
  unfold ljust. rewrite free_of_append, (free_of_repeat nl " "%char) by reflexivity.
  apply andb_true_r.
Qed.

Lemma hex02_free n : free_of nl (hex02 n) = true.
Proof. unfold hex02, to_hex. rewrite zfill_free, to_hex_aux_free. reflexivity. Qed.

Lemma hex04_free n : free_of nl (hex04 n) = true.
Proof. unfold hex04, to_hex. rewrite zfill_free, to_hex_aux_free. reflexivity. Qed.

Lemma ljust_length w s : String.length (ljust w s) = Nat.max w (String.length s).
Proof.
  unfold ljust. rewrite length_append, length_of_list, repeat_length. lia.
Qed.

(** Every byte prints as exactly two hex digits. *)
Lemma hex02_length_all :
  forallb (fun k => Nat.eqb (String.length (hex02 (N.of_nat k))) 2) (seq 0 256) = true.
Proof. vm_compute. reflexivity. Qed.

Lemma hex02_length b : is_byte b -> String.length (hex02 (Z.to_N b)) = 2%nat.
Proof.
  intros [Hlo Hhi].
  pose proof hex02_length_all as H. rewrite forallb_forall in H.
  specialize (H (Z.to_nat b)).
  replace (N.of_nat (Z.to_nat b)) with (Z.to_N b) in H by lia.
  apply Nat.eqb_eq, H, in_seq. lia.
Qed.

End HexFacts.

Module PacketInspectorFacts.

Import PacketInspector PyStr StrFacts HexFacts.
Local Open Scope string_scope.

Lemma printable_not_nl b : Ascii.eqb (printable b) nl = false.
Proof.
  unfold printable.
  destruct ((32 <=? b)%Z && (b <? 127)%Z) eqn:Hb; [|reflexivity].
  apply andb_true_iff in Hb as [Hlo Hhi].
  - apply Ascii.eqb_neq. intros E.
    apply (f_equal N_of_ascii) in E. rewrite N_ascii_embedding in E.
    + apply Z.leb_le in Hlo. change (N_of_ascii nl) with 10%N in E. lia.
    + apply Z.ltb_lt in Hhi. lia.
Qed.

Lemma hex_part_free chunk : free_of nl (hex_part chunk) = true.
Proof.
  unfold hex_part. induction chunk as [|b [|b' chunk] IH]; [reflexivity | apply hex02_free |].
  change (free_of nl (Hex.hex02 (Z.to_N b) ++ " "
                      ++ String.concat " " (map (fun b => Hex.hex02 (Z.to_N b)) (b' :: chunk)))
          = true).
  rewrite !free_of_append, hex02_free, IH. reflexivity.
Qed.

Lemma ascii_part_free chunk : free_of nl (ascii_part chunk) = true.
Proof.
  unfold ascii_part. apply free_of_list, List.Forall_forall.
  intros a Ha. apply in_map_iff in Ha as (b & <- & _). apply printable_not_nl.
Qed.

Lemma line_free i chunk : free_of nl (line i chunk) = true.
Proof.
  unfold line. rewrite !free_of_append, hex04_free, ljust_free, hex_part_free, ascii_part_free.
  reflexivity.
Qed.

Lemma hex_part_length chunk :
  bytes_ok chunk -> chunk <> [] ->
  String.length (hex_part chunk) = (3 * length chunk - 1)%nat.
Proof.
  unfold hex_part, bytes_ok. intros Hb Hne.
  induction chunk as [|b [|b' chunk] IH]; [contradiction| |].
  - inversion Hb; subst. change (String.length (Hex.hex02 (Z.to_N b)) = 2%nat).
    apply hex02_length. assumption.
  - inversion Hb as [|? ? Hb1 Hb2]; subst.
    change (String.length (Hex.hex02 (Z.to_N b) ++ " "
              ++ String.concat " " (map (fun b => Hex.hex02 (Z.to_N b)) (b' :: chunk)))
            = (3 * length (b :: b' :: chunk) - 1)%nat).
    rewrite !length_append, hex02_length, IH by (assumption || discriminate).
    simpl. lia.
Qed.

Lemma ascii_part_length chunk : String.length (ascii_part chunk) = length chunk.
Proof. unfold ascii_part. rewrite length_of_list, length_map. reflexivity. Qed.

(** The row loop visits the offsets [0, 16, 32, ...] below [len(data)]. *)
Lemma lines_from_rows data : forall fuel j,
  (ceil16 (length data) <= fuel + j)%nat ->
  lines_from fuel data (16 * j)
  = map (fun k => line (16 * k) (slice data (16 * k) (16 * k + 16)))
        (seq j (ceil16 (length data) - j)).
Proof.
  unfold ceil16.
  pose proof (Nat.div_mod_eq (length data + 15) 16) as Hq.
  pose proof (Nat.mod_upper_bound (length data + 15) 16) as Hr.
  induction fuel as [|fuel IH]; intros j Hfuel.
  - replace ((length data + 15) / 16 - j)%nat with 0%nat by lia. reflexivity.
  - cbn [lines_from]. destruct (Nat.ltb_spec (16 * j) (length data)) as [Hlt|Hge].
    + replace ((length data + 15) / 16 - j)%nat
        with (S ((length data + 15) / 16 - S j))%nat by lia.
      cbn [seq map]. f_equal.
      replace (16 * j + 16)%nat with (16 * S j)%nat by lia.
      apply IH. lia.
    + replace ((length data + 15) / 16 - j)%nat with 0%nat by lia. reflexivity.
Qed.

Lemma hex_lines_rows data :
  hex_lines data
  = map (fun k => line (16 * k) (slice data (16 * k) (16 * k + 16)))
        (seq 0 (ceil16 (length data))).
Proof.
  unfold hex_lines. rewrite <- (Nat.sub_0_r (ceil16 (length data))).
  change 0%nat with (16 * 0)%nat at 1. apply lines_from_rows.
  unfold ceil16.
  pose proof (Nat.div_mod_eq (length data + 15) 16).
  pose proof (Nat.mod_upper_bound (length data + 15) 16). lia.
Qed.

Lemma split_dump data :
  data <> [] -> PyStr.split nl (to_hex_dump data) = hex_lines data.
Proof.
  intros Hne. unfold to_hex_dump. destruct data as [|b data]; [contradiction|].
  apply split_concat.
  - rewrite hex_lines_rows. unfold ceil16.
    replace ((length (b :: data) + 15) / 16)%nat
      with (S ((length (b :: data) + 15) / 16 - 1))%nat; [discriminate|].
    pose proof (Nat.div_mod_eq (length (b :: data) + 15) 16).
    pose proof (Nat.mod_upper_bound (length (b :: data) + 15) 16). simpl in *. lia.
  - rewrite hex_lines_rows. apply List.Forall_forall. intros r Hr.
    apply in_map_iff in Hr as (k & <- & _). apply line_free.
Qed.

(** ** C8 (as the code has it): the shape of the hex dump.
    For every packet with non-empty data the dump has exactly
    [ceil(len/16)] rows.  Row [k] shows the bytes [16k .. 16k+15] that
    exist: the offset, then one two-digit hex pair per byte, separated by
    spaces and padded with spaces to a 48-column field, then one gutter
    character per byte (a dot for a non-printable byte).  A full row has
    16 pairs and 16 gutter characters; a shorter last row has as many
    pairs and gutter characters as it has bytes, and only its hex field is
    padded. *)
Theorem hex_dump_rows (data : list Z) :
  data <> [] -> bytes_ok data ->
  let rows := PyStr.split nl (to_hex_dump data) in
  length rows = ceil16 (length data)
  /\ forall k row, rows !! k = Some row ->
       let chunk := slice data (16 * k) (16 * k + 16) in
       length chunk = Nat.min 16 (length data - 16 * k)
       /\ (0 < length chunk)%nat
       /\ row = Hex.hex04 (N.of_nat (16 * k)) ++ ": " ++ Hex.ljust 48 (hex_part chunk)
                 ++ " " ++ ascii_part chunk
       /\ String.length (hex_part chunk) = (3 * length chunk - 1)%nat
       /\ String.length (Hex.ljust 48 (hex_part chunk)) = 48%nat
       /\ ascii_part chunk = string_of_list_ascii (map printable chunk)
       /\ String.length (ascii_part chunk) = length chunk.
Proof.
  intros Hne Hb rows. unfold rows. rewrite split_dump by exact Hne.
  rewrite hex_lines_rows. split; [rewrite length_map, length_seq; reflexivity|].
  intros k row Hrow. cbv zeta.
  rewrite list_lookup_fmap in Hrow.
  destruct (seq 0 (ceil16 (length data)) !! k) as [k'|] eqn:Hk; [|discriminate].
  apply lookup_seq in Hk as [-> Hk]. simpl in Hrow. inversion Hrow; subst row. clear Hrow.
  assert (Hlt : (16 * k < length data)%nat).
  { unfold ceil16 in Hk.
    pose proof (Nat.div_mod_eq (length data + 15) 16).
    pose proof (Nat.mod_upper_bound (length data + 15) 16). lia. }
  set (chunk := slice data (16 * k) (16 * k + 16)).
  assert (Hlen : length chunk = Nat.min 16 (length data - 16 * k)).
  { unfold chunk, slice. rewrite length_take, length_drop. lia. }
  assert (Hchunk : String.length (hex_part chunk) = (3 * length chunk - 1)%nat).
  { apply hex_part_length; [apply PyFacts.bytes_ok_slice, Hb|].
    intros E. assert (length chunk = 0%nat) by (rewrite E; reflexivity). lia. }
  split_and!.
  - exact Hlen.
  - lia.
  - reflexivity.
  - exact Hchunk.
  - rewrite ljust_length, Hchunk. lia.
  - reflexivity.
  - apply ascii_part_length.
Qed.

Lemma hex_dump_rows_witness :
  let data := [72; 105; 0; 255] in
  let rows := PyStr.split nl (to_hex_dump data) in
  length rows = ceil16 (length data)
  /\ forall k row, rows !! k = Some row ->
       let chunk := slice data (16 * k) (16 * k + 16) in
       length chunk = Nat.min 16 (length data - 16 * k)
       /\ (0 < length chunk)%nat
       /\ row = Hex.hex04 (N.of_nat (16 * k)) ++ ": " ++ Hex.ljust 48 (hex_part chunk)
                 ++ " " ++ ascii_part chunk
       /\ String.length (hex_part chunk) = (3 * length chunk - 1)%nat
       /\ String.length (Hex.ljust 48 (hex_part chunk)) = 48%nat
       /\ ascii_part chunk = string_of_list_ascii (map printable chunk)
       /\ String.length (ascii_part chunk) = length chunk.
Proof.
  apply (hex_dump_rows [72; 105; 0; 255]).
  - discriminate.
  - unfold bytes_ok. repeat (apply Forall_cons; split; [unfold is_byte; lia|]).
    apply Forall_nil. exact I.
Defined.

(** ** C8, as the specification words it: the dump of the one-byte packet [48] is a
    single row with one hex pair and one gutter character, not sixteen. *)
Lemma hex_dump_counterexample :
  PyStr.split nl (to_hex_dump [72])
  = [Hex.hex04 0 ++ ": " ++ Hex.ljust 48 (hex_part [72]) ++ " " ++ ascii_part [72]]
  /\ hex_part [72] = "48"
  /\ ascii_part [72] = "H"
  /\ String.length (ascii_part [72]) <> 16%nat.
Proof. split_and!; [reflexivity | reflexivity | reflexivity | discriminate]. Qed.

End PacketInspectorFacts.

Module PatternMatcherFacts.

Import PatternMatcher.
Local Open Scope nat_scope.

(** *** Sorting *)

Section Sorting.

Context {A : Type} (key : A -> nat * nat).

Lemma key_le_total a b : key_le a b = false -> key_le b a = true.
Proof.
  unfold key_le. intros H. apply orb_false_iff in H as [H1 H2].
  apply Nat.ltb_ge in H1. apply andb_false_iff in H2.
  apply orb_true_iff.
  destruct (Nat.eq_dec (fst a) (fst b)) as [E|E].
  - right. destruct H2 as [H2|H2]; [apply Nat.eqb_neq in H2; congruence|].
    apply Nat.leb_gt in H2. rewrite E, Nat.eqb_refl. apply Nat.leb_le. lia.
  - left. apply Nat.ltb_lt. lia.
Qed.

Lemma key_le_trans a b c : key_le a b = true -> key_le b c = true -> key_le a c = true.
Proof.
  unfold key_le. rewrite !orb_true_iff, !andb_true_iff, !Nat.ltb_lt, !Nat.eqb_eq, !Nat.leb_le.
  lia.
Qed.

Lemma key_le_fst a b : key_le a b = true -> fst a <= fst b.
Proof.
  unfold key_le. rewrite !orb_true_iff, !andb_true_iff, !Nat.ltb_lt, !Nat.eqb_eq. lia.
Qed.

Lemma insert_desc_In x l y : In y (insert_desc key x l) <-> y = x \/ In y l.
Proof.
  induction l as [|z l IH]; simpl.
  - intuition.
  - destruct (key_le (key z) (key x)); simpl; [intuition|].
    rewrite IH. intuition.
Qed.

Lemma sorted_desc_In l y : In y (sorted_desc key l) <-> In y l.
Proof.
  induction l as [|x l IH]; simpl; [reflexivity|].
  rewrite insert_desc_In, IH. intuition.
Qed.

Lemma insert_desc_sorted x l :
  StronglySorted (key_ge key) l -> StronglySorted (key_ge key) (insert_desc key x l).
Proof.
  induction 1 as [|z l Hl IH Hz]; simpl.
  - repeat constructor.
  - destruct (key_le (key z) (key x)) eqn:E.
    + constructor; [constructor; assumption|].
      constructor; [exact E|].
      eapply List.Forall_impl; [|exact Hz].
      intros w Hw. unfold key_ge in *. eapply key_le_trans; eassumption.
    + constructor; [exact IH|].
      apply List.Forall_forall. intros w Hw. apply insert_desc_In in Hw as [->|Hw].
      * unfold key_ge. apply key_le_total, E.
      * rewrite List.Forall_forall in Hz. apply Hz, Hw.
Qed.

Lemma sorted_desc_sorted l : StronglySorted (key_ge key) (sorted_desc key l).
Proof.
  induction l as [|x l IH]; simpl; [constructor | apply insert_desc_sorted, IH].
Qed.

End Sorting.

(** *** Searching *)

Lemma is_prefix_take p l : is_prefix p l = true <-> take (List.length p) l = p.
Proof.
  revert l. induction p as [|a p IH]; intros l; simpl.
  - split; [intros _; apply take_0 | reflexivity].
  - destruct l as [|b l]; simpl; [split; discriminate|].
    rewrite andb_true_iff, IH, Z.eqb_eq. split.
    + intros [-> ->]. reflexivity.
    + intros H. inversion H as [[Hb Hl]]. rewrite Hl. split; [reflexivity | exact Hl].
Qed.

Lemma is_prefix_occurs data p pos :
  pos <= List.length data -> (is_prefix p (drop pos data) = true <-> occurs data p pos).
Proof.
  intros Hpos. unfold occurs, slice. rewrite is_prefix_take.
  replace (pos + List.length p - pos) with (List.length p) by lia. tauto.
Qed.

(** [find_in] returns the first index at which [p] is a prefix. *)
Lemma find_in_spec p : forall (sfx : list Z) pos,
  match find_in sfx p pos with
  | Some r =>
    exists k, r = pos + k /\ k <= List.length sfx
              /\ is_prefix p (drop k sfx) = true
              /\ forall j, j < k -> is_prefix p (drop j sfx) = false
  | None => forall j, j <= List.length sfx -> is_prefix p (drop j sfx) = false
  end.
Proof.
  induction sfx as [|b sfx IH]; intros pos.
  - simpl. destruct (is_prefix p []) eqn:E.
    + exists 0. split_and!; [lia | simpl; lia | exact E | intros j Hj; lia].
    + intros j Hj. rewrite drop_nil. exact E.
  - cbn [find_in]. destruct (is_prefix p (b :: sfx)) eqn:E.
    + exists 0. split_and!; [lia | simpl; lia | exact E | intros j Hj; lia].
    + specialize (IH (S pos)). destruct (find_in sfx p (S pos)) as [r|].
      * destruct IH as (k & -> & Hk & Hpre & Hfirst). exists (S k).
        split_and!; [lia | simpl; lia | exact Hpre |].
        intros [|j] Hj; [exact E | apply Hfirst; lia].
      * intros [|j] Hj; [exact E | apply IH; simpl in Hj; lia].
Qed.

Lemma find_Some data p start r :
  find data p start = Some r ->
  start <= r <= List.length data
  /\ is_prefix p (drop r data) = true
  /\ forall j, start <= j < r -> is_prefix p (drop j data) = false.
Proof.
  unfold find. destruct (Nat.leb_spec start (List.length data)) as [Hle|]; [|discriminate].
  pose proof (find_in_spec p (drop start data) start) as H.
  intros E. rewrite E in H. destruct H as (k & -> & Hk & Hpre & Hfirst).
  rewrite length_drop in Hk. rewrite drop_drop in Hpre.
  split_and!; [lia | lia | exact Hpre |].
  intros j Hj. specialize (Hfirst (j - start)). rewrite drop_drop in Hfirst.
  replace (start + (j - start)) with j in Hfirst by lia. apply Hfirst. lia.
Qed.

Lemma find_None data p start :
  find data p start = None ->
  forall j, start <= j <= List.length data -> is_prefix p (drop j data) = false.
Proof.
  unfold find. destruct (Nat.leb_spec start (List.length data)) as [Hle|Hgt].
  - pose proof (find_in_spec p (drop start data) start) as H.
    intros E. rewrite E in H. intros j Hj. specialize (H (j - start)).
    rewrite length_drop, drop_drop in H.
    replace (start + (j - start)) with j in H by lia. apply H. lia.
  - intros _ j Hj. lia.
Qed.

(** The positions the loop collects: increasing, each an occurrence, and
    with enough fuel every occurrence from [start] on. *)
Lemma positions_from_spec data p : forall fuel start,
  let ps := positions_from fuel data p start in
  StronglySorted lt ps
  /\ (forall r, In r ps -> start <= r <= List.length data
                          /\ is_prefix p (drop r data) = true)
  /\ (List.length data + 2 <= fuel + start ->
      forall j, start <= j <= List.length data ->
                is_prefix p (drop j data) = true -> In j ps).
Proof.
  induction fuel as [|fuel IH]; intros start; cbn [positions_from].
  - split_and!; [constructor | intros r [] | intros Hf j Hj; lia].
  - destruct (find data p start) as [r|] eqn:E.
    + destruct (find_Some data p start r E) as (Hr & Hpre & Hfirst).
      destruct (IH (r + 1)) as (Hsorted & Hsound & Hcomplete).
      split_and!.
      * constructor; [exact Hsorted|]. apply List.Forall_forall.
        intros x Hx. apply Hsound in Hx. lia.
      * intros x [<-|Hx]; [split; [lia | exact Hpre]|].
        apply Hsound in Hx. split; [lia | tauto].
      * intros Hf j Hj Hocc. destruct (Nat.eq_dec j r) as [->|Hne]; [left; reflexivity|].
        right. apply Hcomplete; [lia | | exact Hocc].
        destruct (Nat.lt_ge_cases j r) as [Hlt|Hge]; [|lia].
        rewrite Hfirst in Hocc by lia. discriminate.
    + split_and!; [constructor | intros r [] |].
      intros _ j Hj Hocc. rewrite (find_None data p start E j Hj) in Hocc. discriminate.
Qed.

Lemma find_pattern_positions_spec data p :
  let ps := find_pattern_positions data p in
  NoDup ps /\ forall pos, In pos ps <-> occurs data p pos.
Proof.
  cbv zeta. unfold find_pattern_positions.
  destruct (positions_from_spec data p (List.length data + 2) 0)
    as (Hsorted & Hsound & Hcomplete).
  split.
  - clear Hsound Hcomplete. induction Hsorted as [|x l Hl IH Hx]; [constructor|].
    apply NoDup_cons. split; [|exact IH].
    intros Hin. apply list_elem_of_In in Hin.
    rewrite List.Forall_forall in Hx. apply Hx in Hin. lia.
  - intros pos. split.
    + intros Hin. destruct (Hsound pos Hin) as [Hr Hpre].
      apply is_prefix_occurs; [lia | exact Hpre].
    + intros Hocc. pose proof Hocc as [Hle _].
      apply Hcomplete; [lia | lia |]. apply is_prefix_occurs; assumption.
Qed.

(** *** Collecting the repeating patterns *)

Lemma fold_left_invariant {S X} (P : S -> Prop) (f : S -> X -> S) (l : list X) :
  (forall acc x, In x l -> P acc -> P (f acc x)) ->
  forall init, P init -> P (fold_left f l init).
Proof.
  induction l as [|x l IH]; intros Hstep init Hinit; simpl; [exact Hinit|].
  apply IH.
  - intros acc y Hy. apply Hstep. right. exact Hy.
  - apply Hstep; [left; reflexivity | exact Hinit].
Qed.

Lemma visit_recorded data pattern_len start d :
  start + pattern_len <= List.length data ->
  Forall (recorded data) (map snd d) ->
  Forall (recorded data) (map snd (visit data pattern_len start d)).
Proof.
  intros Hstart Hd. unfold visit. cbv zeta.
  destruct (has_key _ d); [exact Hd|].
  destruct (Nat.leb_spec 2 (List.length (find_pattern_positions data
              (slice data start (start + pattern_len))))) as [Hge|]; [|exact Hd].
  rewrite map_app. apply Forall_app. split; [exact Hd|].
  apply Forall_cons. split; [|apply Forall_nil; exact I].
  unfold recorded. cbn [snd count positions pattern length].
  split_and!; [reflexivity | exact Hge | reflexivity |].
  rewrite PyFacts.slice_length by lia. lia.
Qed.

Lemma collect_recorded self data : Forall (recorded data) (map snd (collect self data)).
Proof.
  unfold collect. cbv zeta.
  apply (fold_left_invariant (fun d => Forall (recorded data) (map snd d)));
    [|apply Forall_nil; exact I].
  intros d pattern_len Hlen Hd.
  apply (fold_left_invariant (fun d => Forall (recorded data) (map snd d))); [|exact Hd].
  intros d' start Hstart Hd'. apply visit_recorded; [|exact Hd'].
  unfold range in *. apply in_seq in Hlen. apply in_seq in Hstart.
  pose proof (Nat.div_mod_eq (List.length data) 2).
  pose proof (Nat.mod_upper_bound (List.length data) 2). lia.
Qed.

(** *** Filtering by coverage *)

Lemma pos_range_elem pos n i : i ∈ pos_range pos n <-> pos <= i < pos + n.
Proof. unfold pos_range. rewrite elem_of_list_to_set, elem_of_seq. reflexivity. Qed.

Lemma not_subset_witness (l : list nat) (c : gset nat) :
  ~ (list_to_set l ⊆ c) -> exists i, i ∈ l /\ i ∉ c.
Proof.
  induction l as [|a l IH]; intros Hns.
  - exfalso. apply Hns. simpl. set_solver.
  - destruct (decide (a ∈ c)) as [Hin|Hnotin].
    + destruct IH as (i & Hi & Hc).
      * intros Hsub. apply Hns. simpl. apply union_subseteq.
        split; [apply singleton_subseteq_l; exact Hin | exact Hsub].
      * exists i. split; [right; exact Hi | exact Hc].
    + exists a. split; [left | exact Hnotin].
Qed.

Lemma new_positions_fold n (c : gset nat) (ps : list nat) : forall (acc : gset nat) i,
  i ∈ fold_left (fun acc pos =>
                   let r := pos_range pos n in
                   if bool_decide (r ⊆ c) then acc else acc ∪ r) ps acc
  <-> i ∈ acc \/ exists pos, In pos ps /\ ~ (pos_range pos n ⊆ c) /\ i ∈ pos_range pos n.
Proof.
  induction ps as [|pos ps IH]; intros acc i; simpl.
  - split; [auto|]. intros [H|(pos & [] & _)]. exact H.
  - rewrite IH. cbv zeta. case_bool_decide as Hsub.
    + split.
      * intros [H|(pos' & Hin & Hns & Hi)]; [left; exact H|].
        right. exists pos'. auto.
      * intros [H|(pos' & [<-|Hin] & Hns & Hi)]; [left; exact H | contradiction |].
        right. exists pos'. auto.
    + rewrite elem_of_union. split.
      * intros [[H|H]|(pos' & Hin & Hns & Hi)]; [left; exact H | |].
        -- right. exists pos. auto.
        -- right. exists pos'. auto.
      * intros [H|(pos' & [<-|Hin] & Hns & Hi)]; [auto | auto |].
        right. exists pos'. auto.
Qed.

Lemma new_positions_elem p c i :
  i ∈ new_positions p c
  <-> exists pos, In pos (positions p)
                  /\ ~ (pos_range pos (length p) ⊆ c) /\ i ∈ pos_range pos (length p).
Proof.
  unfold new_positions. rewrite new_positions_fold. split; [|auto].
  intros [H|H]; [set_solver | exact H].
Qed.

(** Once a pattern has been looked at, all it covers is covered. *)
Lemma covered_after p c i : covers p i -> i ∈ c ∪ new_positions p c.
Proof.
  intros (pos & Hin & Hi). apply elem_of_union.
  destruct (decide (pos_range pos (length p) ⊆ c)) as [Hsub|Hns].
  - left. apply Hsub, pos_range_elem, Hi.
  - right. apply new_positions_elem. exists pos. split_and!; [exact Hin | exact Hns |].
    apply pos_range_elem, Hi.
Qed.

(** A pattern that is kept covers a position not covered before. *)
Lemma fresh_witness p c : new_positions p c <> ∅ -> exists i, covers p i /\ i ∉ c.
Proof.
  intros Hne. apply set_choose_L in Hne as [i Hi].
  apply new_positions_elem in Hi as (pos & Hin & Hns & _).
  apply not_subset_witness in Hns as (j & Hj & Hc).
  exists j. split; [|exact Hc].
  exists pos. split; [exact Hin|]. apply elem_of_seq in Hj. lia.
Qed.

Lemma filter_step_eq kept covered p :
  filter_step (kept, covered) p
  = if bool_decide (new_positions p covered = ∅) then (kept, covered)
    else (kept ++ [p], covered ∪ new_positions p covered).
Proof. reflexivity. Qed.

Lemma filter_fold_spec : forall (l : list Pattern) (kept : list Pattern) (covered : gset nat),
  StronglySorted (key_ge (fun p => (length p, count p))) l ->
  (forall q i, In q kept -> covers q i -> i ∈ covered) ->
  (forall q, In q kept -> adds_to kept q) ->
  (forall q p, In q kept -> In p l -> length p <= length q) ->
  let kept' := fst (fold_left filter_step l (kept, covered)) in
  (forall p, In p kept' -> In p kept \/ In p l)
  /\ (forall p, In p kept' -> adds_to kept' p).
Proof.
  induction l as [|p l IH]; intros kept covered Hsorted Hcov Hadds Hlen; cbv zeta.
  - simpl. split; [auto | exact Hadds].
  - apply StronglySorted_inv in Hsorted as [Hsorted Hp].
    cbn [fold_left]. rewrite filter_step_eq.
    case_bool_decide as Hfresh.
    + destruct (IH kept covered Hsorted Hcov Hadds) as [Hin Hgood].
      * intros q p' Hq Hp'. apply Hlen; [exact Hq | right; exact Hp'].
      * split; [|exact Hgood].
        intros p' Hp'. destruct (Hin p' Hp') as [H|H]; [left | right; right]; exact H.
    + destruct (fresh_witness p covered Hfresh) as (i & Hi & Hnew).
      destruct (IH (kept ++ [p]) (covered ∪ new_positions p covered) Hsorted)
        as [Hin Hgood].
      * intros q j Hq Hj. apply in_app_iff in Hq as [Hq|[<-|[]]].
        -- apply elem_of_union. left. eapply Hcov; eassumption.
        -- apply covered_after, Hj.
      * intros q Hq. apply in_app_iff in Hq as [Hq|[<-|[]]].
        -- destruct (Hadds q Hq) as (j & Hj & Hlonger). exists j. split; [exact Hj|].
           intros q' Hq' Hlt. apply in_app_iff in Hq' as [Hq'|[<-|[]]].
           ++ apply Hlonger; assumption.
           ++ specialize (Hlen q p Hq (or_introl eq_refl)). lia.
        -- exists i. split; [exact Hi|].
           intros q' Hq' Hlt Hc. apply in_app_iff in Hq' as [Hq'|[<-|[]]]; [|lia].
           apply Hnew. eapply Hcov; eassumption.
      * intros q p' Hq Hp'. apply in_app_iff in Hq as [Hq|[<-|[]]].
        -- apply Hlen; [exact Hq | right; exact Hp'].
        -- rewrite List.Forall_forall in Hp. specialize (Hp p' Hp').
           unfold key_ge in Hp. apply key_le_fst in Hp. exact Hp.
      * split; [|exact Hgood].
        intros p' Hp'. destruct (Hin p' Hp') as [H|H]; [|right; right; exact H].
        apply in_app_iff in H as [H|[<-|[]]]; [left; exact H | right; left; reflexivity].
Qed.

Lemma filter_overlapping_spec (found : list Pattern) :
  let kept := filter_overlapping_patterns found in
  (forall p, In p kept -> In p found) /\ (forall p, In p kept -> adds_to kept p).
Proof.
  cbv zeta. unfold filter_overlapping_patterns. cbv zeta.
  destruct (filter_fold_spec (sorted_desc (fun p => (length p, count p)) found) [] ∅)
    as [Hin Hgood].
  - apply sorted_desc_sorted.
  - intros q i [].
  - intros q [].
  - intros q p [].
  - split; [|exact Hgood].
    intros p Hp. destruct (Hin p Hp) as [[]|H]. apply sorted_desc_In in H. exact H.
Qed.

Lemma analyze_patterns self data p :
  In p (patterns (analyze self data)) <-> 
  ((List.length data =? 0) || (List.length data <? min_pattern_length self) = false
   /\ In p (find_all_patterns self data)).
Proof.
  unfold analyze. destruct ((List.length data =? 0) || _); cbn [patterns].
  - split; [intros [] | intros [H _]; discriminate].
  - rewrite sorted_desc_In. tauto.
Qed.

(** ** C6: every reported pattern repeats and adds coverage.
    For every input byte string and every [Pattern] in the analyzer's
    output: [count] is the number of recorded positions and is at least 2;
    the positions are pairwise distinct and are exactly the indices where
    the pattern occurs in the data (overlapping occurrences included); and
    the pattern covers at least one byte position that no longer pattern of
    the output covers. *)
Theorem reported_patterns_repeat_and_add (self : HexPatternMatcher) (data : list Z)
    (p : Pattern) :
  In p (patterns (analyze self data)) ->
  2 <= count p
  /\ count p = List.length (positions p)
  /\ NoDup (positions p)
  /\ (forall pos, In pos (positions p) <-> occurs data (pattern p) pos)
  /\ (exists i, covers p i /\
        forall q, In q (patterns (analyze self data)) ->
                  length p < length q -> ~ covers q i).
Proof.
  intros Hp. apply analyze_patterns in Hp as [Hguard Hp].
  destruct (filter_overlapping_spec (map snd (collect self data))) as [Hfound Hadds].
  fold (find_all_patterns self data) in Hfound, Hadds.
  pose proof (collect_recorded self data) as Hrec.
  rewrite List.Forall_forall in Hrec.
  destruct (Hrec p (Hfound p Hp)) as (Hcount & Htwo & Hpos & _).
  destruct (find_pattern_positions_spec data (pattern p)) as [Hnd Hocc].
  rewrite <- Hpos in Hnd, Hocc.
  split_and!; [exact Htwo | exact Hcount | exact Hnd | exact Hocc |].
  destruct (Hadds p Hp) as (i & Hi & Hlonger). exists i. split; [exact Hi|].
  intros q Hq. apply analyze_patterns in Hq as [_ Hq]. apply Hlonger, Hq.
Qed.

Lemma reported_patterns_repeat_and_add_witness :
  let data := [1; 2; 3; 1; 2; 3; 1; 2; 3]%Z in
  let p := mkPattern [1; 2; 3; 1]%Z "01020301" [0; 3] 4 2 (2 # 6) in
  In p (patterns (analyze (mkMatcher 2 8) data))
  /\ 2 <= count p
  /\ count p = List.length (positions p)
  /\ NoDup (positions p)
  /\ (forall pos, In pos (positions p) <-> occurs data (pattern p) pos)
  /\ (exists i, covers p i /\
        forall q, In q (patterns (analyze (mkMatcher 2 8) data)) ->
                  length p < length q -> ~ covers q i).
Proof.
  intros data p.
  assert (Hp : In p (patterns (analyze (mkMatcher 2 8) data))).
  { vm_compute. left. reflexivity. }
  split; [exact Hp|].
  apply (reported_patterns_repeat_and_add (mkMatcher 2 8) data p Hp).
Defined.

End PatternMatcherFacts.

(** * Further properties of the code *)

Module BringupFacts.

Import H5 FirmwareLoader Bringup PyFacts H5Facts.

(** *** What [parse_packet] accepts *)

Lemma parse_packet_payload_length st data t p st' :
  parse_packet st data = (Ok (t, p), st') -> length data = (length p + 6)%nat.
Proof.
  unfold parse_packet. cbv zeta.
  destruct (Nat.ltb_spec (length data) 6) as [|Hlen]; [discriminate|]. cbn [orb].
  destruct (negb _ || negb _); [discriminate|].
  destruct (negb _); [discriminate|].
  destruct (type_of_value _); [|discriminate].
  intros H. inversion H; subst. rewrite slice_length by lia. lia.
Qed.

(** X1: a frame [parse_packet] accepts is a delimiter, three header bytes,
    the payload, the XOR of header and payload, and a delimiter; the packet
    type is the low nibble of the second header byte and the new ack number
    the sequence field of the first.  The length byte is not looked at. *)
Theorem parse_packet_accepts_only_frames (st st' : H5Protocol) (data p : list Z)
    (t : H5PacketType) :
  parse_packet st data = (Ok (t, p), st') ->
  exists h1 h2 h3,
    data = 0xC0 :: h1 :: h2 :: h3 :: p ++ [xor_all 0 (h1 :: h2 :: h3 :: p); 0xC0]
    /\ type_of_value (Z.land h2 0x0F) = Some t
    /\ st' = mkH5 (seq_num st) (Z.land (Z.shiftr h1 3) 0x07).
Proof.
  intros Hparse. pose proof (parse_packet_payload_length _ _ _ _ _ Hparse) as Hlen.
  destruct data as [|d0 [|h1 [|h2 [|h3 rest]]]]; simpl in Hlen; try lia.
  assert (Hrest : length rest = (length p + 2)%nat) by lia.
  assert (Hsplit : rest = take (length p) rest ++ drop (length p) rest)
    by (symmetry; apply take_drop).
  destruct (drop (length p) rest) as [|c [|e [|x tl]]] eqn:Hdrop;
    try (apply (f_equal length) in Hdrop; rewrite length_drop in Hdrop; simpl in Hdrop; lia).
  set (q := take (length p) rest) in *.
  assert (Hq : length q = length p) by (unfold q; rewrite length_take; lia).
  rewrite Hsplit in Hparse.
  assert (Hd0 : d0 = 0xC0 /\ e = 0xC0).
  { unfold parse_packet in Hparse. cbv zeta in Hparse.
    destruct (Nat.ltb_spec (length (d0 :: h1 :: h2 :: h3 :: q ++ [c; e])) 6);
      [discriminate|]. cbn [orb] in Hparse.
    destruct (bool_decide_reflect ((d0 :: h1 :: h2 :: h3 :: q ++ [c; e]) !! 0%nat = Some 0xC0))
      as [H0|]; [|discriminate]. cbn [negb orb] in Hparse.
    match type of Hparse with context [bool_decide ?P] =>
      destruct (bool_decide_reflect P) as [Hl|]; [|discriminate] end.
    split; [simpl in H0; congruence|].
    simpl in Hl. rewrite length_app in Hl. simpl in Hl.
    replace (length q + 2)%nat with (S (length q + 1))%nat in Hl by lia.
    simpl in Hl. rewrite lookup_app_r in Hl by lia.
    replace (length q + 1 - length q)%nat with 1%nat in Hl by lia.
    simpl in Hl. congruence. }
  destruct Hd0 as [-> ->].
  rewrite parse_packet_frame in Hparse.
  destruct (Z.eqb_spec (xor_all 0 (h1 :: h2 :: h3 :: q)) c) as [Hc|]; [|discriminate].
  cbn [negb] in Hparse.
  destruct (type_of_value (Z.land h2 15)) as [t'|] eqn:Ht; [|discriminate].
  assert (Hqp : q = p) by congruence.
  assert (Htt : t' = t) by congruence.
  assert (Hst : st' = mkH5 (seq_num st) (Z.land (Z.shiftr h1 3) 0x07)) by congruence.
  exists h1, h2, h3. split_and!; [|congruence | exact Hst].
  rewrite Hsplit. fold q. rewrite <- Hc, Hqp. reflexivity.
Qed.


Lemma parse_packet_accepts_only_frames_witness :
  parse_packet init [0xC0; 0; 14; 3; 1; 2; 3; 13; 0xC0] = (Ok (VENDOR, [1; 2; 3]), init)
  /\ exists h1 h2 h3,
       [0xC0; 0; 14; 3; 1; 2; 3; 13; 0xC0]
       = 0xC0 :: h1 :: h2 :: h3 :: [1; 2; 3] ++ [xor_all 0 (h1 :: h2 :: h3 :: [1; 2; 3]); 0xC0]
       /\ type_of_value (Z.land h2 0x0F) = Some VENDOR
       /\ init = mkH5 (seq_num init) (Z.land (Z.shiftr h1 3) 0x07).
Proof.
  assert (H : parse_packet init [0xC0; 0; 14; 3; 1; 2; 3; 13; 0xC0]
              = (Ok (VENDOR, [1; 2; 3]), init)) by reflexivity.
  split; [exact H|].
  apply (parse_packet_accepts_only_frames init init _ _ VENDOR H).
Defined.

(** *** Sequence and acknowledgement numbers *)

Lemma seq_field s a :
  0 <= s < 8 -> Z.land (Z.shiftr (Z.lor (Z.shiftl s 3) (Z.land a 0x07)) 3) 0x07 = s.
Proof.
  intros Hs. rewrite Z.shiftr_lor, Z.shiftr_shiftl_l by lia.
  change (3 - 3) with 0. rewrite Z.shiftl_0_r, Z.shiftr_land.
  change (Z.shiftr 7 3) with 0. rewrite Z.land_0_r, Z.lor_0_r.
  change 7 with (Z.ones 3). rewrite Z.land_ones by lia.
  apply Z.mod_small. change (2 ^ 3) with 8. lia.
Qed.

(** X2: the receiver echoes the peer's sequence number.  Parsing a frame
    that a peer created with sequence number [s] sets the receiver's
    [ack_num] to [s] and leaves its own [seq_num] alone; creating the frame
    moved the peer's [seq_num] to [(s + 1) mod 8] and left its [ack_num]. *)
Theorem peer_sequence_echoed (tx rx : H5Protocol) (t : H5PacketType) (p : list Z) :
  wf tx -> bytes_ok p ->
  exists frame tx',
    create_packet tx t p = (Ok frame, tx')
    /\ seq_num tx' = (seq_num tx + 1) mod 8
    /\ ack_num tx' = ack_num tx
    /\ snd (parse_packet rx frame) = mkH5 (seq_num rx) (seq_num tx).
Proof.
  intros Hwf Hp. eexists _, _. split; [apply create_packet_frame; assumption|].
  split_and!; [reflexivity | reflexivity |].
  unfold frame_of. cbv zeta. rewrite parse_packet_frame, Z.eqb_refl. cbn [negb].
  rewrite type_roundtrip. cbn [snd]. rewrite seq_field by exact Hwf. reflexivity.
Qed.

Lemma peer_sequence_echoed_witness :
  exists frame tx',
    create_packet (mkH5 5 2) HCI_EVENT [9; 8] = (Ok frame, tx')
    /\ seq_num tx' = (seq_num (mkH5 5 2) + 1) mod 8
    /\ ack_num tx' = ack_num (mkH5 5 2)
    /\ snd (parse_packet init frame) = mkH5 (seq_num init) (seq_num (mkH5 5 2)).
Proof.
  apply (peer_sequence_echoed (mkH5 5 2) init HCI_EVENT [9; 8]).
  - unfold wf. simpl. lia.
  - unfold bytes_ok. repeat (apply Forall_cons; split; [unfold is_byte; lia|]).
    apply Forall_nil. exact I.
Defined.

Lemma create_packets_cons st t p rest :
  create_packets st ((t, p) :: rest)
  = (fst (create_packet st t p) :: fst (create_packets (snd (create_packet st t p)) rest),
     snd (create_packets (snd (create_packet st t p)) rest)).
Proof.
  cbn [create_packets]. destruct (create_packet st t p) as [r st1]. cbn [fst snd].
  destruct (create_packets st1 rest) as [rs st2]. reflexivity.
Qed.

(** X3: consecutive frames carry consecutive sequence numbers modulo 8.
    When one protocol object frames a list of byte payloads, every call
    succeeds, the [k]-th frame carries [(s + k) mod 8] in the sequence field
    of its header, and the object ends at [(s + n) mod 8] with its
    [ack_num] untouched. *)
Theorem frames_numbered_mod_8 (msgs : list (H5PacketType * list Z)) (st : H5Protocol) :
  wf st -> Forall (fun m => bytes_ok (snd m)) msgs ->
  seq_num (snd (create_packets st msgs)) = (seq_num st + Z.of_nat (length msgs)) mod 8
  /\ ack_num (snd (create_packets st msgs)) = ack_num st
  /\ forall k m, msgs !! k = Some m ->
       exists frame h1,
         fst (create_packets st msgs) !! k = Some (Ok frame)
         /\ frame !! 1%nat = Some h1
         /\ Z.land (Z.shiftr h1 3) 0x07 = (seq_num st + Z.of_nat k) mod 8
         /\ fst (parse_packet init frame) = Ok m.
Proof.
  revert st. induction msgs as [|[t p] msgs IH]; intros st Hwf Hmsgs.
  - simpl. rewrite Z.add_0_r, Z.mod_small by exact Hwf.
    split_and!; [reflexivity | reflexivity | intros k m Hk; discriminate].
  - apply Forall_cons in Hmsgs as [Hp Hmsgs]. cbn [snd] in Hp.
    rewrite create_packets_cons, (create_packet_frame st t p Hwf Hp). cbn [fst snd].
    set (st1 := mkH5 ((seq_num st + 1) mod 8) (ack_num st)).
    assert (Hwf1 : wf st1) by (unfold wf, st1; simpl; apply Z.mod_pos_bound; lia).
    destruct (IH st1 Hwf1 Hmsgs) as (Hseq & Hack & Hframes).
    split_and!.
    + rewrite Hseq. unfold st1. cbn [seq_num length].
      rewrite Zplus_mod_idemp_l. f_equal. lia.
    + rewrite Hack. reflexivity.
    + intros [|k] m Hk.
      * inversion Hk; subst m. eexists _, _. split_and!; [reflexivity | reflexivity | |].
        -- rewrite seq_field by exact Hwf. rewrite Z.add_0_r, Z.mod_small by exact Hwf.
           reflexivity.
        -- unfold frame_of. cbv zeta. rewrite parse_packet_frame, Z.eqb_refl. cbn [negb].
           rewrite type_roundtrip. reflexivity.
      * destruct (Hframes k m Hk) as (frame & h1 & Hk' & Hh1 & Hs & Hparse).
        exists frame, h1. split_and!; [exact Hk' | exact Hh1 | | exact Hparse].
        rewrite Hs. unfold st1. cbn [seq_num]. rewrite Zplus_mod_idemp_l. f_equal. lia.
Qed.

Lemma frames_numbered_mod_8_witness :
  let msgs := [(HCI_COMMAND, [3; 12; 0]); (HCI_COMMAND, [1; 16; 0]); (ACK, [])] in
  seq_num (snd (create_packets (mkH5 7 0) msgs))
    = (seq_num (mkH5 7 0) + Z.of_nat (length msgs)) mod 8
  /\ ack_num (snd (create_packets (mkH5 7 0) msgs)) = ack_num (mkH5 7 0)
  /\ forall k m, msgs !! k = Some m ->
       exists frame h1,
         fst (create_packets (mkH5 7 0) msgs) !! k = Some (Ok frame)
         /\ frame !! 1%nat = Some h1
         /\ Z.land (Z.shiftr h1 3) 0x07 = (seq_num (mkH5 7 0) + Z.of_nat k) mod 8
         /\ fst (parse_packet init frame) = Ok m.
Proof.
  apply (frames_numbered_mod_8 _ (mkH5 7 0)).
  - unfold wf. simpl. lia.
  - repeat (apply Forall_cons; split;
            [unfold bytes_ok; simpl;
             repeat (apply Forall_cons; split; [unfold is_byte; lia|]);
             apply Forall_nil; exact I|]).
    apply Forall_nil. exact I.
Defined.

Lemma pack_HB_ok opcode (n : nat) :
  0 <= opcode <= 0xFFFF -> (n <= 255)%nat ->
  pack_HB opcode (Z.of_nat n) = Some [Z.land opcode 0xFF; Z.shiftr opcode 8; Z.of_nat n].
Proof.
  intros Hop Hn. unfold pack_HB.
  replace ((0 <=? opcode) && (opcode <=? 65535)) with true
    by (symmetry; apply andb_true_iff; lia).
  replace (is_byteb (Z.of_nat n)) with true
    by (symmetry; apply is_byteb_spec; unfold is_byte; lia).
  reflexivity.
Qed.

Lemma hci_command_bytes_ok opcode params :
  bytes_ok params -> 0 <= opcode <= 0xFFFF -> (length params <= 255)%nat ->
  bytes_ok (hci_command_bytes opcode params).
Proof.
  intros Hp Hop Hlen. unfold hci_command_bytes, bytes_ok. cbn [app].
  rewrite !Forall_cons. split_and!; [| | | exact Hp].
  - apply land_byte. lia.
  - unfold is_byte. split; [apply Z.shiftr_nonneg; lia|].
    rewrite Z.shiftr_div_pow2 by lia. change (2 ^ 8) with 256.
    apply Z.div_lt_upper_bound; lia.
  - unfold is_byte. lia.
Qed.

(** *** Frames on the wire *)

Lemma skip_to_start_noise noise rest :
  delimiter_free noise -> skip_to_start (noise ++ 0xC0 :: rest) = Some rest.
Proof.
  induction 1 as [|b noise Hb _ IH]; cbn [app skip_to_start].
  - reflexivity.
  - destruct (Z.eqb_spec b 0xC0); [contradiction | exact IH].
Qed.

Lemma skip_to_start_silent bytes : delimiter_free bytes -> skip_to_start bytes = None.
Proof.
  induction 1 as [|b bytes Hb _ IH]; cbn [skip_to_start]; [reflexivity|].
  destruct (Z.eqb_spec b 0xC0); [contradiction | exact IH].
Qed.

Lemma read_to_end_body body :
  forall pk rest,
    (0 < length pk)%nat -> delimiter_free body ->
    read_to_end pk (body ++ 0xC0 :: rest) = Some (pk ++ body ++ [0xC0], rest).
Proof.
  induction body as [|b body IH]; intros pk rest Hpk Hbody; cbn [app read_to_end].
  - rewrite length_app. cbn [length].
    replace (1 <? length pk + 1)%nat with true by (symmetry; apply Nat.ltb_lt; lia).
    reflexivity.
  - apply Forall_cons in Hbody as [Hb Hbody].
    destruct (Z.eqb_spec b 0xC0); [contradiction|]. cbn [andb].
    rewrite IH; [| rewrite length_app; simpl; lia | exact Hbody].
    rewrite <- app_assoc. reflexivity.
Qed.

Lemma read_to_end_silent body :
  forall pk, delimiter_free body -> read_to_end pk body = None.
Proof.
  induction body as [|b body IH]; intros pk Hbody; cbn [read_to_end]; [reflexivity|].
  apply Forall_cons in Hbody as [Hb Hbody].
  destruct (Z.eqb_spec b 0xC0); [contradiction|]. cbn [andb]. apply IH, Hbody.
Qed.

Lemma interior_delimited (body : list Z) : interior (0xC0 :: body ++ [0xC0]) = body.
Proof.
  unfold interior, slice. cbn [length drop]. rewrite length_app. cbn [length].
  replace (S (length body + 1) - 1 - 1)%nat with (length body) by lia.
  rewrite drop_0, take_app_length. reflexivity.
Qed.

Lemma frame_of_delimited st t p :
  exists body, frame_of st t p = 0xC0 :: body ++ [0xC0]
               /\ length body = (length p + 4)%nat.
Proof.
  unfold frame_of. cbv zeta. eexists (_ :: _ :: _ :: p ++ [_]). split.
  - cbn [app]. rewrite <- app_assoc. reflexivity.
  - cbn [length]. rewrite length_app. simpl. lia.
Qed.

Lemma create_packet_inv st t p frame st1 :
  create_packet st t p = (Ok frame, st1) ->
  frame = frame_of st t p /\ st1 = mkH5 ((seq_num st + 1) mod 8) (ack_num st).
Proof.
  unfold create_packet, as_byte. cbv zeta.
  destruct (is_byteb (Z.lor _ _)); [|discriminate].
  destruct (is_byteb (xor_all _ _)); [|discriminate].
  intros H. inversion H. split; reflexivity.
Qed.

(** The first delimited stretch of [rx] is what [read_packet] hands to
    [parse_packet]; the bytes after it stay in the buffer. *)
Lemma read_packet_delimited self noise body rest :
  delimiter_free noise -> delimiter_free body ->
  rx self = noise ++ (0xC0 :: body ++ [0xC0]) ++ rest ->
  read_packet self
  = match parse_packet (h5 self) (0xC0 :: body ++ [0xC0]) with
    | (Ok (_, payload), h5') => (Ok payload, mkLoader h5' (tx self) rest)
    | (Raise e, h5') => (Raise (H5Failure e), mkLoader h5' (tx self) rest)
    end.
Proof.
  intros Hnoise Hbody Hrx. unfold read_packet. rewrite Hrx.
  cbn [app]. rewrite <- app_assoc. cbn [app].
  rewrite skip_to_start_noise by exact Hnoise.
  rewrite read_to_end_body by (simpl; lia || exact Hbody).
  reflexivity.
Qed.

Lemma read_packet_frame self d t p noise rest :
  wf d -> delimiter_free noise -> delimiter_free (interior (frame_of d t p)) ->
  rx self = noise ++ frame_of d t p ++ rest ->
  read_packet self
  = (Ok p, mkLoader (mkH5 (seq_num (h5 self)) (seq_num d)) (tx self) rest).
Proof.
  intros Hwf Hnoise Hint Hrx.
  destruct (frame_of_delimited d t p) as (body & Hframe & _).
  rewrite Hframe in Hrx, Hint. rewrite interior_delimited in Hint.
  rewrite (read_packet_delimited self noise body rest Hnoise Hint Hrx).
  rewrite <- Hframe. unfold frame_of. cbv zeta.
  rewrite parse_packet_frame, Z.eqb_refl. cbn [negb].
  rewrite type_roundtrip, seq_field by exact Hwf. reflexivity.
Qed.

(** X4: what [create_packet] frames comes back from [read_packet].  When
    the receive buffer holds line noise without a delimiter, then a frame a
    peer created, then anything else, and no byte between the frame's two
    delimiters is [0xC0], [read_packet] returns the payload, acknowledges
    the peer's sequence number and leaves exactly the bytes after the
    frame in the buffer. *)
Theorem wire_loopback (self : Loader) (d d1 : H5Protocol) (t : H5PacketType)
    (p frame noise rest : list Z) :
  wf d ->
  create_packet d t p = (Ok frame, d1) ->
  delimiter_free noise ->
  delimiter_free (interior frame) ->
  rx self = noise ++ frame ++ rest ->
  read_packet self
  = (Ok p, mkLoader (mkH5 (seq_num (h5 self)) (seq_num d)) (tx self) rest).
Proof.
  intros Hwf Hcreate Hnoise Hint Hrx.
  apply create_packet_inv in Hcreate as [-> _].
  exact (read_packet_frame self d t p noise rest Hwf Hnoise Hint Hrx).
Qed.

Lemma wire_loopback_witness :
  read_packet (mkLoader (mkH5 3 0) []
                 ([0x55; 0x00] ++ [0xC0; 0x29; 0x04; 0x02; 0x0E; 0x00; 0x21; 0xC0] ++ [0x07]))
  = (Ok [0x0E; 0x00], mkLoader (mkH5 3 5) [] [0x07]).
Proof.
  refine (wire_loopback
            (mkLoader (mkH5 3 0) []
               ([0x55; 0x00] ++ [0xC0; 0x29; 0x04; 0x02; 0x0E; 0x00; 0x21; 0xC0] ++ [0x07]))
            (mkH5 5 1) (mkH5 6 1) HCI_EVENT
            [0x0E; 0x00] [0xC0; 0x29; 0x04; 0x02; 0x0E; 0x00; 0x21; 0xC0] [0x55; 0x00] [0x07]
            _ _ _ _ _).
  - unfold wf. simpl. lia.
  - reflexivity.
  - repeat (apply Forall_cons; split; [lia|]). apply Forall_nil. exact I.
  - vm_compute. repeat (apply Forall_cons; split; [lia|]). apply Forall_nil. exact I.
  - reflexivity.
Defined.

(** X5: the framing does not escape the delimiter.  If a byte between the
    two delimiters of a created frame is [0xC0] (in the payload, or as the
    length or checksum byte), [read_packet] stops at it: whatever it
    returns is not the payload that was sent, and part of the frame is left
    in the buffer in front of the bytes that followed it. *)
Theorem delimiter_in_frame_breaks_loopback (self : Loader) (d d1 : H5Protocol)
    (t : H5PacketType) (p frame noise rest : list Z) :
  create_packet d t p = (Ok frame, d1) ->
  delimiter_free noise ->
  0xC0 ∈ interior frame ->
  rx self = noise ++ frame ++ rest ->
  fst (read_packet self) <> Ok p
  /\ (length rest < length (rx (snd (read_packet self))))%nat.
Proof.
  intros Hcreate Hnoise Hin Hrx.
  apply create_packet_inv in Hcreate as [-> _].
  destruct (frame_of_delimited d t p) as (body & Hframe & Hlen).
  rewrite Hframe in Hrx, Hin. rewrite interior_delimited in Hin.
  apply list_elem_of_split_l in Hin as (pre & post & -> & Hpre).
  assert (Hfree : delimiter_free pre).
  { apply List.Forall_forall. intros x Hx ->. apply Hpre.
    apply list_elem_of_In. exact Hx. }
  assert (Hrx' : rx self = noise ++ (0xC0 :: pre ++ [0xC0]) ++ (post ++ [0xC0] ++ rest)).
  { rewrite Hrx. cbn [app]. rewrite <- !app_assoc. reflexivity. }
  rewrite (read_packet_delimited self noise pre _ Hnoise Hfree Hrx').
  rewrite length_app in Hlen. cbn [length] in Hlen.
  destruct (parse_packet (h5 self) (0xC0 :: pre ++ [0xC0])) as [[[t' p']|e] st'] eqn:Hparse;
    cbn [fst snd rx].
  - apply parse_packet_payload_length in Hparse.
    cbn [length] in Hparse. rewrite length_app in Hparse. cbn [length] in Hparse.
    split.
    + intros Heq. inversion Heq; subst p'. lia.
    + rewrite !length_app. cbn [length]. lia.
  - split; [discriminate|]. rewrite !length_app. cbn [length]. lia.
Qed.

Lemma delimiter_in_frame_breaks_loopback_witness :
  let self :=
    mkLoader init [] ([] ++ [0xC0; 0x00; 0x04; 0x02; 0xC0; 0x01; 0xC7; 0xC0] ++ [0x07]) in
  fst (read_packet self) <> Ok [0xC0; 0x01]
  /\ Nat.lt (length [0x07]) (length (rx (snd (read_packet self)))).
Proof.
  refine (delimiter_in_frame_breaks_loopback
            (mkLoader init [] ([] ++ [0xC0; 0x00; 0x04; 0x02; 0xC0; 0x01; 0xC7; 0xC0] ++ [0x07]))
            init (mkH5 1 0) HCI_EVENT
            [0xC0; 0x01] [0xC0; 0x00; 0x04; 0x02; 0xC0; 0x01; 0xC7; 0xC0] [] [0x07] _ _ _ _).
  - reflexivity.
  - apply Forall_nil. exact I.
  - vm_compute. apply list_elem_of_further, list_elem_of_further, list_elem_of_further,
      list_elem_of_here.
  - reflexivity.
Defined.

(** X6: a command to a silent device.  When no [0xC0] arrives,
    [send_hci_command] raises "No response from device"; by then the
    command frame has been written and the sequence number used up, and the
    receive buffer is drained. *)
Theorem silent_device_times_out (opcode : Z) (params : list Z) (self : Loader) :
  wf (h5 self) -> bytes_ok params ->
  0 <= opcode <= 0xFFFF -> (length params <= 255)%nat ->
  delimiter_free (rx self) ->
  send_hci_command opcode params self
  = (Raise TimeoutNoResponse,
     mkLoader (mkH5 ((seq_num (h5 self) + 1) mod 8) (ack_num (h5 self)))
              (tx self ++ [frame_of (h5 self) HCI_COMMAND (hci_command_bytes opcode params)])
              []).
Proof.
  intros Hwf Hp Hop Hlen Hfree. unfold send_hci_command.
  rewrite (pack_HB_ok opcode (length params)) by (exact Hop || exact Hlen).
  change ([Z.land opcode 255; Z.shiftr opcode 8; Z.of_nat (length params)] ++ params)
    with (hci_command_bytes opcode params).
  rewrite create_packet_frame by (exact Hwf || apply hci_command_bytes_ok; assumption).
  unfold read_packet. cbn [rx h5 tx].
  rewrite skip_to_start_silent by exact Hfree. reflexivity.
Qed.

Lemma silent_device_times_out_witness :
  send_hci_command 0x0C03 [] (mkLoader (mkH5 7 2) [] [0x00; 0xFF])
  = (Raise TimeoutNoResponse,
     mkLoader (mkH5 0 2) [frame_of (mkH5 7 2) HCI_COMMAND [0x03; 0x0C; 0x00]] []).
Proof.
  refine (silent_device_times_out 0x0C03 [] (mkLoader (mkH5 7 2) [] [0x00; 0xFF]) _ _ _ _ _).
  - unfold wf. simpl. lia.
  - apply Forall_nil. exact I.
  - lia.
  - simpl. lia.
  - repeat (apply Forall_cons; split; [lia|]). apply Forall_nil. exact I.
Defined.

(** X7: a frame that never closes.  With an opening delimiter in the
    receive buffer but no second one, [read_packet] raises "Incomplete
    packet", drains the buffer and leaves the protocol object and the
    written bytes alone. *)
Theorem unclosed_frame_times_out (self : Loader) (noise body : list Z) :
  rx self = noise ++ 0xC0 :: body ->
  delimiter_free noise -> delimiter_free body ->
  read_packet self = (Raise TimeoutIncomplete, mkLoader (h5 self) (tx self) []).
Proof.
  intros Hrx Hnoise Hbody. unfold read_packet. rewrite Hrx.
  rewrite skip_to_start_noise by exact Hnoise.
  rewrite read_to_end_silent by exact Hbody. reflexivity.
Qed.

Lemma unclosed_frame_times_out_witness :
  read_packet (mkLoader init [] ([0x11] ++ 0xC0 :: [0x00; 0x04; 0x00]))
  = (Raise TimeoutIncomplete, mkLoader init [] []).
Proof.
  refine (unclosed_frame_times_out (mkLoader init [] ([0x11] ++ 0xC0 :: [0x00; 0x04; 0x00]))
            [0x11] [0x00; 0x04; 0x00] _ _ _).
  - reflexivity.
  - repeat (apply Forall_cons; split; [lia|]). apply Forall_nil. exact I.
  - repeat (apply Forall_cons; split; [lia|]). apply Forall_nil. exact I.
Defined.

(** *** [load_firmware] *)

(** One command and its reply: the command frame is written, the reply's
    payload returned, and the buffer left at the bytes after the reply. *)
Lemma send_hci_command_reply opcode params self d t p noise rest :
  wf (h5 self) -> bytes_ok params ->
  0 <= opcode <= 0xFFFF -> (length params <= 255)%nat ->
  wf d -> delimiter_free noise -> delimiter_free (interior (frame_of d t p)) ->
  rx self = noise ++ frame_of d t p ++ rest ->
  send_hci_command opcode params self
  = (Ok p,
     mkLoader (mkH5 ((seq_num (h5 self) + 1) mod 8) (seq_num d))
              (tx self ++ [frame_of (h5 self) HCI_COMMAND (hci_command_bytes opcode params)])
              rest).
Proof.
  intros Hwf Hp Hop Hlen Hd Hnoise Hint Hrx. unfold send_hci_command.
  rewrite (pack_HB_ok opcode (length params)) by (exact Hop || exact Hlen).
  change ([Z.land opcode 255; Z.shiftr opcode 8; Z.of_nat (length params)] ++ params)
    with (hci_command_bytes opcode params).
  rewrite create_packet_frame by (exact Hwf || apply hci_command_bytes_ok; assumption).
  rewrite (read_packet_frame _ d t p noise rest Hd Hnoise Hint) by exact Hrx.
  reflexivity.
Qed.

Lemma unpack_H_slice (l : list Z) (i : nat) b0 b1 :
  l !! i = Some b0 -> l !! S i = Some b1 ->
  unpack_H (slice l i (i + 2)) = Some (b0 + 256 * b1).
Proof.
  intros H0 H1. unfold slice. replace (i + 2 - i)%nat with 2%nat by lia.
  rewrite (drop_S l b0 i H0). cbn [take]. rewrite (drop_S l b1 (S i) H1). reflexivity.
Qed.

Lemma unpack_H_slice_total (l : list Z) (i : nat) :
  (i + 2 <= length l)%nat -> exists v, unpack_H (slice l i (i + 2)) = Some v.
Proof.
  intros Hlen.
  destruct (lookup_lt_is_Some_2 l i) as [b0 H0]; [lia|].
  destruct (lookup_lt_is_Some_2 l (S i)) as [b1 H1]; [lia|].
  eexists. apply unpack_H_slice; eassumption.
Qed.

(** X8: a device that already runs the patch gets nothing downloaded.
    When the device answers the reset and then reports LMP subversion
    [0x8723] (bytes [23 87] at offsets 12 and 13 of the version event),
    [load_firmware] returns [True] having written only the reset and the
    version command as H5 frames with consecutive sequence numbers; the two
    files are never looked at. *)
Theorem patched_device_skips_download (fw_file config_file : option (list Z))
    (self : Loader) (d1 d2 : H5Protocol) (t1 t2 : H5PacketType) (p1 ver rest : list Z) :
  wf (h5 self) -> wf d1 -> wf d2 ->
  delimiter_free (interior (frame_of d1 t1 p1)) ->
  delimiter_free (interior (frame_of d2 t2 ver)) ->
  rx self = frame_of d1 t1 p1 ++ frame_of d2 t2 ver ++ rest ->
  (14 <= length ver)%nat ->
  ver !! 12%nat = Some 0x23 -> ver !! 13%nat = Some 0x87 ->
  load_firmware fw_file config_file self
  = Some (true,
          mkLoader (mkH5 ((seq_num (h5 self) + 2) mod 8) (seq_num d2))
            (tx self
             ++ [frame_of (h5 self) HCI_COMMAND [0x03; 0x0C; 0x00];
                 frame_of (mkH5 ((seq_num (h5 self) + 1) mod 8) (seq_num d1))
                          HCI_COMMAND [0x01; 0x10; 0x00]])
            rest).
Proof.
  intros Hwf Hd1 Hd2 Hint1 Hint2 Hrx Hlen H12 H13.
  unfold load_firmware.
  rewrite (send_hci_command_reply 0x0C03 [] self d1 t1 p1 [] (frame_of d2 t2 ver ++ rest));
    [| exact Hwf | apply Forall_nil; exact I | lia | simpl; lia | exact Hd1
     | apply Forall_nil; exact I | exact Hint1 | exact Hrx].
  unfold read_local_version.
  rewrite (send_hci_command_reply 0x1001 [] _ d2 t2 ver [] rest);
    [| unfold wf; cbn [h5 seq_num]; apply Z.mod_pos_bound; lia
     | apply Forall_nil; exact I | lia | simpl; lia | exact Hd2
     | apply Forall_nil; exact I | exact Hint2 | reflexivity].
  replace (length ver <? 14)%nat with false by (symmetry; apply Nat.ltb_ge; exact Hlen).
  destruct (unpack_H_slice_total ver 7) as [rev Hrev]; [lia|].
  destruct (unpack_H_slice_total ver 10) as [man Hman]; [lia|].
  change (7 + 2)%nat with 9%nat in Hrev. change (10 + 2)%nat with 12%nat in Hman.
  rewrite Hrev, Hman.
  change 14%nat with (12 + 2)%nat at 1. rewrite (unpack_H_slice ver 12 _ _ H12 H13).
  cbn [lmp_subversion]. change (35 + 256 * 135 =? 34595) with true. cbv iota.
  cbn [h5 tx seq_num]. rewrite Zplus_mod_idemp_l, <- app_assoc.
  replace (seq_num (h5 self) + 1 + 1) with (seq_num (h5 self) + 2) by lia.
  reflexivity.
Qed.

Lemma patched_device_skips_download_witness :
  load_firmware None None patched_device
  = Some (true,
          mkLoader (mkH5 2 0)
            [frame_of init HCI_COMMAND [0x03; 0x0C; 0x00];
             frame_of (mkH5 1 0) HCI_COMMAND [0x01; 0x10; 0x00]]
            []).
Proof.
  refine (patched_device_skips_download None None patched_device init init
            HCI_EVENT HCI_EVENT [] patched_version_payload [] _ _ _ _ _ _ _ _ _).
  - unfold wf. simpl. lia.
  - unfold wf. simpl. lia.
  - unfold wf. simpl. lia.
  - vm_compute. repeat (apply Forall_cons; split; [lia|]). apply Forall_nil. exact I.
  - vm_compute. repeat (apply Forall_cons; split; [lia|]). apply Forall_nil. exact I.
  - reflexivity.
  - simpl. lia.
  - reflexivity.
  - reflexivity.
Defined.

Lemma download_loop_total fw :
  forall fuel off self,
    (0 < fuel)%nat ->
    (length fw + chunk_size <= off + chunk_size * fuel)%nat ->
    exists r self', download_loop fuel fw off self = Some (r, self').
Proof.
  induction fuel as [|fuel IH]; intros off self Hpos Hfuel; [lia|]. cbn [download_loop].
  destruct (Nat.ltb_spec off (length fw)) as [Hlt|]; [|eauto].
  - destruct (slice fw off (off + chunk_size)); [eauto|].
    destruct (pack_BH _ _); [|eauto].
    destruct (send_hci_command _ _ self) as [[resp|e] self1]; [|eauto].
    apply IH; unfold chunk_size in *; lia.
Qed.

Lemma from_bytes_short (fw : list Z) :
  (length fw < 16)%nat -> from_bytes (slice fw 0 16) = None.
Proof.
  intros Hlen. unfold from_bytes.
  destruct (unpack_H (slice (slice fw 0 16) 8 10)); [|reflexivity]. cbn [mbind option_bind].
  destruct (unpack_H (slice (slice fw 0 16) 10 12)); [|reflexivity]. cbn [mbind option_bind].
  assert (Hl : (length (slice (slice fw 0 16) 12 16) < 4)%nat).
  { unfold slice. repeat (rewrite length_take || rewrite length_drop). lia. }
  destruct (slice (slice fw 0 16) 12 16) as [|? [|? [|? [|? [|? ?]]]]];
    simpl in Hl; try lia; reflexivity.
Qed.

(** X9: with unusable files only an already patched device gives [True].
    When a file cannot be read, the firmware is shorter than its 16-byte
    header, or the configuration is longer than the 255 bytes an HCI
    command can carry, [load_firmware] still returns, and what it returns
    is whether the device reported subversion [0x8723] before anything was
    downloaded. *)
Theorem unusable_files_need_patched_device (fw_file config_file : option (list Z))
    (self : Loader) :
  unusable_files fw_file config_file ->
  exists self', load_firmware fw_file config_file self = Some (reports_patched self, self').
Proof.
  intros Hbad. unfold load_firmware, reports_patched.
  destruct (send_hci_command 0x0C03 [] self) as [[r1|e1] s1]; [|eauto].
  destruct (read_local_version s1) as [[version|e2] s2]; [|eauto].
  destruct (lmp_subversion version =? 0x8723); [eauto|].
  destruct fw_file as [fw_data|]; [|eauto].
  unfold download_firmware.
  destruct (from_bytes (slice fw_data 0 16)) as [hdr|] eqn:Hhdr; [|eauto].
  destruct (download_loop_total fw_data (S (length fw_data)) header_size
              (write_raw download_cmd s2)) as (r & s4 & Hloop);
    [lia | unfold chunk_size, header_size; lia|].
  rewrite Hloop. destruct r as [[]|e]; [|eauto].
  destruct config_file as [config_data|]; [|eauto].
  destruct Hbad as [Hshort|Hlong].
  - rewrite from_bytes_short in Hhdr by exact Hshort. discriminate.
  - unfold send_hci_command at 1, pack_HB.
    replace (is_byteb (Z.of_nat (length config_data))) with false.
    + rewrite andb_false_r. eauto.
    + symmetry. unfold is_byteb. apply andb_false_iff. right. apply Z.ltb_ge. lia.
Qed.

Lemma unusable_files_need_patched_device_witness :
  exists self',
    load_firmware (Some [0x52; 0x65; 0x61; 0x6C]) None (mkLoader init [] ack_frame)
    = Some (reports_patched (mkLoader init [] ack_frame), self').
Proof.
  refine (unusable_files_need_patched_device (Some [0x52; 0x65; 0x61; 0x6C]) None
            (mkLoader init [] ack_frame) _).
  exact I.
Defined.

(** *** [change_baud_rate] *)

Lemma pack_I_ok v :
  0 <= v <= 0xFFFFFFFF ->
  exists b0 b1 b2 b3,
    pack_I v = Some [b0; b1; b2; b3]
    /\ bytes_ok [b0; b1; b2; b3]
    /\ v = b0 + 256 * b1 + 65536 * b2 + 16777216 * b3.
Proof.
  intros Hv. unfold pack_I.
  replace ((0 <=? v) && (v <=? 4294967295)) with true
    by (symmetry; apply andb_true_iff; lia).
  eexists _, _, _, _. split; [reflexivity|].
  assert (H24 : 0 <= Z.shiftr v 24 < 256).
  { rewrite Z.shiftr_div_pow2 by lia. change (2 ^ 24) with 16777216.
    split; [apply Z.div_pos; lia | apply Z.div_lt_upper_bound; lia]. }
  split.
  - unfold bytes_ok. rewrite !Forall_cons.
    split_and!; [apply land_byte; lia | | | exact H24 | apply Forall_nil; exact I].
    + change 255 with (Z.ones 8). rewrite Z.land_ones by lia. unfold is_byte.
      change (2 ^ 8) with 256. apply Z.mod_pos_bound. lia.
    + change 255 with (Z.ones 8). rewrite Z.land_ones by lia. unfold is_byte.
      change (2 ^ 8) with 256. apply Z.mod_pos_bound. lia.
  - change 255 with (Z.ones 8). rewrite !Z.land_ones by lia.
    rewrite !Z.shiftr_div_pow2 by lia.
    change (2 ^ 8) with 256. change (2 ^ 16) with 65536. change (2 ^ 24) with 16777216.
    pose proof (Z.div_mod v 256 ltac:(lia)) as H1.
    pose proof (Z.div_mod (v / 256) 256 ltac:(lia)) as H2.
    pose proof (Z.div_mod (v / 256 / 256) 256 ltac:(lia)) as H3.
    rewrite Z.div_div in H2, H3 by lia. rewrite Z.div_div in H3 by lia.
    change (256 * 256) with 65536 in *. change (65536 * 256) with 16777216 in *.
    pose proof (Z.mod_pos_bound (v / 16777216) 256 ltac:(lia)) as Hb.
    assert (H4 : v / 16777216 / 256 = 0).
    { rewrite Z.div_div by lia. apply Z.div_small. lia. }
    assert (H5 : (v / 16777216) mod 256 = v / 16777216).
    { apply Z.mod_small. rewrite Z.shiftr_div_pow2 in H24 by lia. exact H24. }
    lia.
Qed.

(** X27: no way back from a failed baud-rate change.  When the device
    acknowledges the vendor command [0xFC17] and then stays silent,
    [change_baud_rate] returns [False], yet the loader's baud rate is
    already the new one: the command carried the new rate as four
    little-endian bytes, the version read that follows timed out, and
    nothing restores the old rate. *)
Theorem baud_rate_not_rolled_back (new_baud : Z) (self : Uart) (d : H5Protocol)
    (t : H5PacketType) (p silence : list Z) :
  wf (h5 (loader self)) ->
  0 <= new_baud <= 0xFFFFFFFF ->
  wf d ->
  delimiter_free (interior (frame_of d t p)) ->
  delimiter_free silence ->
  rx (loader self) = frame_of d t p ++ silence ->
  exists b0 b1 b2 b3 s',
    change_baud_rate new_baud self = (Ok false, mkUart s' new_baud)
    /\ new_baud = b0 + 256 * b1 + 65536 * b2 + 16777216 * b3
    /\ bytes_ok [b0; b1; b2; b3]
    /\ tx s' = tx (loader self)
               ++ [frame_of (h5 (loader self)) HCI_COMMAND
                     [0x17; 0xFC; 0x04; b0; b1; b2; b3];
                   frame_of (mkH5 ((seq_num (h5 (loader self)) + 1) mod 8) (seq_num d))
                     HCI_COMMAND [0x01; 0x10; 0x00]]
    /\ rx s' = [].
Proof.
  intros Hwf Hbaud Hd Hint Hsilence Hrx.
  destruct (pack_I_ok new_baud Hbaud) as (b0 & b1 & b2 & b3 & Hpack & Hbytes & Hval).
  exists b0, b1, b2, b3. unfold change_baud_rate. rewrite Hpack.
  rewrite (send_hci_command_reply 0xFC17 [b0; b1; b2; b3] (loader self) d t p [] silence);
    [| exact Hwf | exact Hbytes | lia | simpl; lia | exact Hd
     | apply Forall_nil; exact I | exact Hint | exact Hrx].
  unfold send_hci_command.
  rewrite (pack_HB_ok 0x1001 (length (@nil Z))) by (cbn [length]; lia).
  rewrite create_packet_frame;
    [| unfold wf; cbn [h5 seq_num]; apply Z.mod_pos_bound; lia
     | apply (hci_command_bytes_ok 0x1001 []);
       [apply Forall_nil; exact I | lia | simpl; lia]].
  unfold read_packet. cbn [rx h5 tx].
  rewrite skip_to_start_silent by exact Hsilence.
  eexists. split_and!; [reflexivity | exact Hval | exact Hbytes | | reflexivity].
  cbn [tx h5 seq_num]. rewrite <- app_assoc. reflexivity.
Qed.

Lemma baud_rate_not_rolled_back_witness :
  exists b0 b1 b2 b3 s',
    change_baud_rate 1500000 (mkUart (mkLoader init [] (ack_frame ++ [0x00])) 115200)
    = (Ok false, mkUart s' 1500000)
    /\ 1500000 = b0 + 256 * b1 + 65536 * b2 + 16777216 * b3
    /\ bytes_ok [b0; b1; b2; b3]
    /\ tx s' = tx (mkLoader init [] (ack_frame ++ [0x00]))
               ++ [frame_of init HCI_COMMAND [0x17; 0xFC; 0x04; b0; b1; b2; b3];
                   frame_of (mkH5 ((seq_num init + 1) mod 8) (seq_num init))
                     HCI_COMMAND [0x01; 0x10; 0x00]]
    /\ rx s' = [].
Proof.
  refine (baud_rate_not_rolled_back 1500000
            (mkUart (mkLoader init [] (ack_frame ++ [0x00])) 115200)
            init HCI_EVENT [] [0x00] _ _ _ _ _ _).
  - unfold wf. simpl. lia.
  - lia.
  - unfold wf. simpl. lia.
  - vm_compute. repeat (apply Forall_cons; split; [lia|]). apply Forall_nil. exact I.
  - repeat (apply Forall_cons; split; [lia|]). apply Forall_nil. exact I.
  - reflexivity.
Defined.

End BringupFacts.

Module ManagerFacts.

Import AutoConnect Manager.

(** *** The metrics of a managed connection *)

Lemma update_metrics_consistent s t now c :
  consistent (metrics c) -> consistent (metrics (update_metrics s t now c)).
Proof.
  intros (Htot & Hcons & _). unfold update_metrics. cbv zeta.
  destruct s; unfold consistent;
    cbn [metrics with_metrics total_attempts successful_connections failed_connections
         consecutive_failures stability_score];
    (split_and!; [lia | lia | reflexivity]).
Qed.

Lemma apply_op_consistent op c :
  consistent (metrics c) -> consistent (metrics (apply_op op c)).
Proof.
  intros Hc. destruct op as [o t0 t1 now| | | |now|u|now|now| | |d now|]; cbn [apply_op];
    try exact Hc.
  - destruct o; cbn [attempt_connection fst]; apply update_metrics_consistent; exact Hc.
  - destruct (state c), (connection_start_time c); try exact Hc; exact Hc.
  - destruct (reconnect_on_failure _); exact Hc.
  - split_and!; [reflexivity | reflexivity | reflexivity].
Qed.

Lemma run_ops_consistent ops :
  forall c, consistent (metrics c) -> consistent (metrics (run_ops ops c)).
Proof.
  induction ops as [|op ops IH]; intros c Hc; [exact Hc|].
  apply IH, apply_op_consistent, Hc.
Qed.

Lemma new_connection_consistent cfg : consistent (metrics (new_connection cfg)).
Proof. split_and!; reflexivity. Qed.

Lemma consistent_score m :
  consistent m ->
  (0 <= stability_score m <= 1)%Q
  /\ (stability_score m * inject_Z (Z.of_N (total_attempts m))
      == inject_Z (Z.of_N (successful_connections m)))%Q.
Proof.
  intros (Htot & _ & Hscore). rewrite Hscore.
  destruct (N.eq_dec (total_attempts m) 0%N) as [H0|Hpos].
  - assert (Hs : successful_connections m = 0%N) by lia. rewrite H0, Hs.
    split; [split; discriminate | reflexivity].
  - assert (Hq : (0 < inject_Z (Z.of_N (total_attempts m)))%Q).
    { rewrite <- (Zlt_Qlt 0). lia. }
    split; [split|].
    + apply Qle_shift_div_l; [exact Hq|]. rewrite Qmult_0_l, <- (Zle_Qle 0). lia.
    + apply Qle_shift_div_r; [exact Hq|]. rewrite Qmult_1_l, <- Zle_Qle. lia.
    + field. intros Hz. rewrite Hz in Hq. discriminate.
Qed.

(** X10: the counters of a managed connection stay consistent.  From a new
    connection, whatever the manager does to it (attempts with any outcome,
    waits, health checks, BLE events, enabling, pausing, resetting the
    metrics), [total_attempts] is the sum of [successful_connections] and
    [failed_connections], [consecutive_failures] never exceeds
    [failed_connections], and [stability_score] is the share of successful
    attempts, between 0 and 1. *)
Theorem metrics_stay_consistent (cfg : ConnectionConfig) (ops : list Op) :
  let m := metrics (run_ops ops (new_connection cfg)) in
  total_attempts m = (successful_connections m + failed_connections m)%N
  /\ (consecutive_failures m <= failed_connections m)%N
  /\ (stability_score m * inject_Z (Z.of_N (total_attempts m))
      == inject_Z (Z.of_N (successful_connections m)))%Q
  /\ (0 <= stability_score m <= 1)%Q.
Proof.
  intros m.
  pose proof (run_ops_consistent ops _ (new_connection_consistent cfg)) as Hc.
  fold m in Hc. destruct (consistent_score m Hc) as [[Hlo Hhi] Hprod].
  destruct Hc as (Htot & Hcons & _). split_and!; assumption.
Qed.

Lemma run_ops_snoc ops op c : run_ops (ops ++ [op]) c = apply_op op (run_ops ops c).
Proof. unfold run_ops. rewrite fold_left_app. reflexivity. Qed.

Lemma connect_times_snoc ops op :
  connect_times (ops ++ [op]) = record_time (connect_times ops) op.
Proof. unfold connect_times. rewrite fold_left_app. reflexivity. Qed.

Lemma total_time_snoc l d : (total_time (l ++ [d]) == total_time l + d)%Q.
Proof.
  induction l as [|x l IH]; cbn [app total_time fold_right].
  - ring.
  - fold (total_time (l ++ [d])). fold (total_time l). rewrite IH. ring.
Qed.

(** Everything but a successful attempt and a reset leaves the number of
    successes and the average alone. *)
Lemma apply_op_keeps_average op c :
  is_success op = false -> op <> OpResetMetrics ->
  successful_connections (metrics (apply_op op c)) = successful_connections (metrics c)
  /\ average_connection_time (metrics (apply_op op c)) = average_connection_time (metrics c).
Proof.
  intros Hs Hr. destruct op as [o t0 t1 now| | | |now|u|now|now| | |d now|];
    cbn [apply_op]; try (split; reflexivity).
  - destruct o; try discriminate; split; reflexivity.
  - destruct (state c), (connection_start_time c); split; reflexivity.
  - destruct (reconnect_on_failure _); split; reflexivity.
  - contradiction Hr. reflexivity.
Qed.

(** X11: the running average is the mean of the connection times.  As long
    as no successful attempt since the last reset of the metrics took
    exactly zero time, [successful_connections] counts those attempts and
    [average_connection_time] times that count is the sum of their
    connection times; failed attempts and every other operation of the
    manager leave both alone. *)
Theorem average_is_mean_of_connection_times (cfg : ConnectionConfig) (ops : list Op) :
  Forall (fun d => ~ (d == 0)%Q) (connect_times ops) ->
  let m := metrics (run_ops ops (new_connection cfg)) in
  successful_connections m = N.of_nat (length (connect_times ops))
  /\ (average_connection_time m * inject_Z (Z.of_N (successful_connections m))
      == total_time (connect_times ops))%Q.
Proof.
  induction ops as [|op ops IH] using rev_ind; intros Hnz.
  - split; reflexivity.
  - rewrite connect_times_snoc in Hnz |- *. rewrite run_ops_snoc. cbv zeta.
    set (c := run_ops ops (new_connection cfg)) in *.
    destruct (is_success op) eqn:Hs.
    + destruct op as [[| | |msg] t0 t1 now| | | |now|u|now|now| | |d now|]; try discriminate.
      cbn [record_time] in Hnz |- *.
      apply Forall_app in Hnz as [Hprev Hd]. apply Forall_cons in Hd as [Hd _].
      destruct (IH Hprev) as [Hcount Hsum]. fold c in Hcount, Hsum.
      cbn [apply_op attempt_connection fst]. unfold update_metrics. cbv zeta.
      cbn [metrics with_metrics with_last_activity with_retry_count with_state
           successful_connections average_connection_time truthy_time].
      replace (Qeq_bool (t1 - t0) 0) with false
        by (symmetry; apply not_true_is_false; intros E; apply Hd, Qeq_bool_iff, E).
      split.
      * rewrite Hcount, length_app. cbn [length]. lia.
      * rewrite total_time_snoc, <- Hsum.
        replace (Z.of_N (successful_connections (metrics c) + 1))
          with (Z.of_N (successful_connections (metrics c)) + 1) by lia.
        rewrite inject_Z_plus.
        replace (Z.of_N (successful_connections (metrics c)) + 1 - 1)
          with (Z.of_N (successful_connections (metrics c))) by lia.
        field. intros Hz.
        assert (Hpos : (0 < inject_Z (Z.of_N (successful_connections (metrics c))) + inject_Z 1)%Q).
        { rewrite <- inject_Z_plus, <- (Zlt_Qlt 0). lia. }
        rewrite Hz in Hpos. discriminate.
    + assert (Hcase : op = OpResetMetrics \/ op <> OpResetMetrics)
        by (destruct op; (left; reflexivity) || (right; discriminate)).
      destruct Hcase as [->|Hr].
      * split; reflexivity.
      * replace (record_time (connect_times ops) op) with (connect_times ops) in Hnz |- *
          by (destruct op as [[| | |msg] t0 t1 now| | | |now|u|now|now| | |d now|];
              try reflexivity; try discriminate; contradiction Hr; reflexivity).
        destruct (IH Hnz) as [Hcount Hsum]. fold c in Hcount, Hsum.
        destruct (apply_op_keeps_average op c Hs Hr) as [-> ->]. split; assumption.
Qed.

Lemma average_is_mean_of_connection_times_witness :
  let ops := [OpAttempt ConnectTrue 10 12 12; OpAttempt ConnectFalse 20 21 21; OpRetryWait;
              OpAttempt ConnectTrue 30 36 36] in
  let m := metrics (run_ops ops (new_connection default_config)) in
  successful_connections m = N.of_nat (length (connect_times ops))
  /\ (average_connection_time m * inject_Z (Z.of_N (successful_connections m))
      == total_time (connect_times ops))%Q.
Proof.
  refine (average_is_mean_of_connection_times default_config
            [OpAttempt ConnectTrue 10 12 12; OpAttempt ConnectFalse 20 21 21; OpRetryWait;
             OpAttempt ConnectTrue 30 36 36] _).
  vm_compute. repeat (apply Forall_cons; split; [intros E; discriminate E|]).
  apply Forall_nil. exact I.
Defined.

Lemma py_min_mono a b cap : (a <= b)%Q -> (py_min a cap <= py_min b cap)%Q.
Proof.
  intros Hab. unfold py_min.
  destruct (Qle_bool a cap) eqn:Ea, (Qle_bool b cap) eqn:Eb.
  - exact Hab.
  - apply Qle_bool_iff, Ea.
  - apply Qle_bool_iff in Eb. exfalso.
    assert (Ha : (a <= cap)%Q) by (eapply Qle_trans; eassumption).
    apply Qle_bool_iff in Ha. congruence.
  - apply Qle_refl.
Qed.

(** X12: the back-off never shortens.  In the range of retry counts
    from 0 to 1023, where [2 ** retry_count] fits a float and
    [calculate_retry_delay] returns, with a non-negative initial delay and
    under every strategy, a connection with a larger retry count and the
    same configuration gets a retry delay at least as long. *)
Theorem retry_delay_grows_with_retries (c1 c2 : ManagedConnection) :
  config c1 = config c2 ->
  (0 <= initial_retry_delay (config c1))%Q ->
  0 <= retry_count c1 <= retry_count c2 ->
  retry_count c2 < 1024 ->
  (calculate_retry_delay c1 <= calculate_retry_delay c2)%Q.
Proof.
  intros Hcfg Hinit [_ Hr] _. unfold calculate_retry_delay. cbv zeta. rewrite <- Hcfg.
  apply py_min_mono. destruct (retry_strategy (config c1)).
  - rewrite !(Qmult_comm (initial_retry_delay (config c1))).
    apply Qmult_le_compat_r; [|exact Hinit].
    apply Qpower_le_compat_l; [exact Hr | discriminate].
  - apply Qle_refl.
  - rewrite !(Qmult_comm (initial_retry_delay (config c1))).
    apply Qmult_le_compat_r; [|exact Hinit]. rewrite <- Zle_Qle. lia.
Qed.

Lemma retry_delay_grows_with_retries_witness :
  (calculate_retry_delay (with_retry_count (new_connection default_config) 2)
   <= calculate_retry_delay (with_retry_count (new_connection default_config) 7))%Q.
Proof.
  refine (retry_delay_grows_with_retries
            (with_retry_count (new_connection default_config) 2)
            (with_retry_count (new_connection default_config) 7) _ _ _ _).
  - reflexivity.
  - discriminate.
  - simpl. lia.
  - simpl. lia.
Defined.

(** *** Slots by priority *)

Lemma fold_take_slot_group max_concurrent p l :
  forall st,
    fold_left (take_slot max_concurrent p) l st
    = fold_left (take_slot_of max_concurrent) (map (fun a => (a, p)) l) st.
Proof. induction l as [|a l IH]; intros st; [reflexivity | apply IH]. Qed.

Lemma start_priority_connections_flat max_concurrent devices :
  start_priority_connections max_concurrent devices
  = fold_left (take_slot_of max_concurrent) (visiting_order devices) (mkSlots 0 [] []).
Proof.
  unfold start_priority_connections, visiting_order. cbn [fold_left flat_map].
  rewrite app_nil_r, !fold_left_app, !fold_take_slot_group. reflexivity.
Qed.

Lemma take_slots max_concurrent l :
  forall st,
    0 <= active_connections st <= max_concurrent ->
    let free := Z.to_nat (max_concurrent - active_connections st) in
    let r := fold_left (take_slot_of max_concurrent) l st in
    started r = started st ++ map fst (take free l)
    /\ queued r = queued st ++ map queued_first (drop free l).
Proof.
  induction l as [|[a p] l IH]; intros st Hst; cbv zeta.
  - rewrite take_nil, drop_nil. cbn [fold_left map]. rewrite !app_nil_r. split; reflexivity.
  - cbn [fold_left]. unfold take_slot_of at 2 4, take_slot. cbn [fst snd].
    rewrite Z.geb_leb.
    destruct (Z.leb_spec max_concurrent (active_connections st)) as [Hfull|Hfree]; cbv iota.
    + match goal with |- context [fold_left _ l ?s] =>
        destruct (IH s) as [Hs Hq]; [cbn [active_connections]; lia|] end.
      cbn [active_connections started queued] in Hs, Hq. rewrite Hs, Hq.
      replace (Z.to_nat (max_concurrent - active_connections st)) with 0%nat by lia.
      rewrite !take_0, !drop_0. cbn [map].
      split; [reflexivity|]. rewrite <- app_assoc. cbn [app]. unfold queued_first.
      cbn [fst snd]. do 3 f_equal. lia.
    + match goal with |- context [fold_left _ l ?s] =>
        destruct (IH s) as [Hs Hq]; [cbn [active_connections]; lia|] end.
      cbn [active_connections started queued] in Hs, Hq. rewrite Hs, Hq.
      replace (Z.to_nat (max_concurrent - active_connections st))
        with (S (Z.to_nat (max_concurrent - (active_connections st + 1)))) by lia.
      cbn [take drop map fst]. rewrite <- app_assoc. split; reflexivity.
Qed.

(** X13: who gets a connection task.  With a non-negative limit,
    [_start_priority_connections] creates tasks for exactly the first
    [max_concurrent_connections] enabled devices in the order HIGH, MEDIUM,
    LOW (insertion order within a priority); every other enabled device
    gets a [connection_queued] event, and each of those events carries
    [queue_position] 1. *)
Theorem priority_slots (max_concurrent : Z) (devices : Devices) :
  0 <= max_concurrent ->
  let r := start_priority_connections max_concurrent devices in
  started r = map fst (take (Z.to_nat max_concurrent) (visiting_order devices))
  /\ queued r = map queued_first (drop (Z.to_nat max_concurrent) (visiting_order devices)).
Proof.
  intros Hmax r. unfold r. rewrite start_priority_connections_flat.
  destruct (take_slots max_concurrent (visiting_order devices) (mkSlots 0 [] []))
    as [Hs Hq]; [cbn [active_connections]; lia|].
  cbn [active_connections started queued app] in Hs, Hq.
  rewrite Z.sub_0_r in Hs, Hq. split; assumption.
Qed.

Lemma priority_slots_witness :
  let low := mkConfig 5 1 60 EXPONENTIAL_BACKOFF 30 10 true 30 3 LOW 2 in
  let high := mkConfig 5 1 60 EXPONENTIAL_BACKOFF 30 10 true 30 3 HIGH 2 in
  let devices := [("AA"%string, new_connection low); ("BB"%string, new_connection default_config);
                  ("CC"%string, new_connection high); ("DD"%string, new_connection high)] in
  let r := start_priority_connections 2 devices in
  started r = map fst (take (Z.to_nat 2) (visiting_order devices))
  /\ queued r = map queued_first (drop (Z.to_nat 2) (visiting_order devices)).
Proof.
  intros low high devices. refine (priority_slots 2 devices _). lia.
Defined.

(** *** The connection queue *)

Lemma better_fold tasks l :
  match fold_left (better tasks) l None with
  | None => forall j d, l !! j = Some d -> eligible tasks d = false
  | Some (a, p) => exists i, best_at tasks l i a p
  end.
Proof.
  induction l as [|d l IH] using rev_ind; [intros j d Hj; discriminate|].
  rewrite fold_left_app. cbn [fold_left]. unfold better at 1.
  destruct (eligible tasks d) eqn:Hd.
  - destruct (fold_left (better tasks) l None) as [[a p]|].
    + destruct IH as (i & c & Hi & Hc & Hp & Hbest).
      pose proof (lookup_lt_Some _ _ _ Hi) as Hlt.
      destruct (Z.gtb_spec (compare_priority (priority (config (snd d))) p) 0) as [Hgt|Hle];
        unfold compare_priority in *.
      * exists (length l), (snd d). split_and!.
        -- rewrite lookup_app_r, Nat.sub_diag by lia. destruct d; reflexivity.
        -- destruct d; exact Hd.
        -- reflexivity.
        -- intros j d' Hj Hd'. destruct (Nat.lt_ge_cases j (length l)) as [Hjl|Hjl].
           ++ rewrite lookup_app_l in Hj by exact Hjl.
              destruct (Hbest j d' Hj Hd') as [Hle _]. lia.
           ++ split; [|lia]. rewrite lookup_app_r in Hj by exact Hjl.
              destruct (j - length l)%nat as [|k] eqn:Hk; [|destruct k; discriminate].
              cbn in Hj. inversion Hj; subst d'. lia.
      * exists i, c. split_and!; [|exact Hc | exact Hp |].
        -- rewrite lookup_app_l by exact Hlt. exact Hi.
        -- intros j d' Hj Hd'. destruct (Nat.lt_ge_cases j (length l)) as [Hjl|Hjl].
           ++ rewrite lookup_app_l in Hj by exact Hjl. exact (Hbest j d' Hj Hd').
           ++ rewrite lookup_app_r in Hj by exact Hjl.
              destruct (j - length l)%nat as [|k] eqn:Hk; [|destruct k; discriminate].
              cbn in Hj. inversion Hj; subst d'. split; lia.
    + exists (length l), (snd d). split_and!.
      * rewrite lookup_app_r, Nat.sub_diag by lia. destruct d; reflexivity.
      * destruct d; exact Hd.
      * reflexivity.
      * intros j d' Hj Hd'. destruct (Nat.lt_ge_cases j (length l)) as [Hjl|Hjl].
        -- rewrite lookup_app_l in Hj by exact Hjl. rewrite (IH j d' Hj) in Hd'. discriminate.
        -- split; [|lia]. rewrite lookup_app_r in Hj by exact Hjl.
           destruct (j - length l)%nat as [|k] eqn:Hk; [|destruct k; discriminate].
           cbn in Hj. inversion Hj; subst d'. lia.
  - destruct (fold_left (better tasks) l None) as [[a p]|].
    + destruct IH as (i & c & Hi & Hc & Hp & Hbest).
      pose proof (lookup_lt_Some _ _ _ Hi) as Hlt.
      exists i, c. split_and!; [|exact Hc | exact Hp |].
      * rewrite lookup_app_l by exact Hlt. exact Hi.
      * intros j d' Hj Hd'. destruct (Nat.lt_ge_cases j (length l)) as [Hjl|Hjl].
        -- rewrite lookup_app_l in Hj by exact Hjl. exact (Hbest j d' Hj Hd').
        -- rewrite lookup_app_r in Hj by exact Hjl.
           destruct (j - length l)%nat as [|k] eqn:Hk; [|destruct k; discriminate].
           cbn in Hj. inversion Hj; subst d'. congruence.
    + intros j d' Hj. destruct (Nat.lt_ge_cases j (length l)) as [Hjl|Hjl].
      * rewrite lookup_app_l in Hj by exact Hjl. exact (IH j d' Hj).
      * rewrite lookup_app_r in Hj by exact Hjl.
        destruct (j - length l)%nat as [|k] eqn:Hk; [|destruct k; discriminate].
        cbn in Hj. inversion Hj; subst d'. exact Hd.
Qed.

(** X14: the device taken from the queue.  When [_check_connection_queue]
    starts a device, fewer than [max_concurrent_connections] devices were
    connected or connecting, and the device is enabled, disconnected and
    without a task; no such device has a higher priority, and among those
    of the same priority it is the first in the dict.  Its address is not
    the empty string. *)
Theorem dequeued_device_is_best (max_concurrent : Z) (devices : Devices)
    (tasks : list string) (a : string) (p : ConnectionPriority) :
  check_connection_queue max_concurrent devices tasks = Some (a, p) ->
  Z.of_nat (length (List.filter (fun d => is_active (snd d)) devices)) < max_concurrent
  /\ a <> EmptyString
  /\ exists i, best_at tasks devices i a p.
Proof.
  unfold check_connection_queue. cbv zeta.
  destruct (Z.ltb_spec (Z.of_nat (length (List.filter (fun d => is_active (snd d)) devices)))
              max_concurrent) as [Hlt|]; [|discriminate].
  pose proof (better_fold tasks devices) as Hbest.
  destruct (fold_left (better tasks) devices None) as [[a' p']|]; [|discriminate].
  destruct (String.eqb_spec a' EmptyString) as [|Hne]; [discriminate|].
  intros H. inversion H; subst a' p'. split_and!; assumption.
Qed.

Lemma dequeued_device_is_best_witness :
  let low := mkConfig 5 1 60 EXPONENTIAL_BACKOFF 30 10 true 30 3 LOW 2 in
  let high := mkConfig 5 1 60 EXPONENTIAL_BACKOFF 30 10 true 30 3 HIGH 2 in
  let devices := [("AA"%string, new_connection low);
                  ("BB"%string, with_state (new_connection high) CONNECTED);
                  ("CC"%string, new_connection high);
                  ("DD"%string, new_connection default_config);
                  ("EE"%string, new_connection high);
                  ("FF"%string, new_connection high)] in
  Z.of_nat (length (List.filter (fun d => is_active (snd d)) devices)) < 2
  /\ "EE"%string <> EmptyString
  /\ exists i, best_at ["CC"%string] devices i "EE"%string HIGH.
Proof.
  intros low high devices.
  refine (dequeued_device_is_best 2 devices ["CC"%string] "EE"%string HIGH _).
  reflexivity.
Defined.

(** *** Device health *)

Lemma Qlt_bool_spec a b : reflect (a < b)%Q (Qlt_bool a b).
Proof.
  unfold Qlt_bool. destruct (Qle_bool b a) eqn:E; constructor.
  - apply Qle_bool_iff in E. apply Qle_not_lt, E.
  - apply Qnot_le_lt. intros H. apply Qle_bool_iff in H. congruence.
Qed.

Lemma py_max_0 x : (0 <= py_max 0 x)%Q /\ (py_max 0 x == 0 \/ py_max 0 x == x)%Q.
Proof.
  unfold py_max. destruct (Qlt_bool_spec 0 x) as [H|H].
  - split; [apply Qlt_le_weak, H | right; reflexivity].
  - split; [apply Qle_refl | left; reflexivity].
Qed.

Lemma py_min_20 x : (0 < x)%Q -> (0 <= py_min 20 x <= 20)%Q.
Proof.
  intros Hx. unfold py_min. destruct (Qle_bool 20 x) eqn:E.
  - split; [discriminate | apply Qle_refl].
  - split; [apply Qlt_le_weak, Hx|].
    apply Qlt_le_weak, Qnot_le_lt. intros H. apply Qle_bool_iff in H. congruence.
Qed.

Lemma health_score_bounds c :
  (0 <= stability_score (metrics c) <= 1)%Q -> (0 <= health_score c < 104)%Q.
Proof.
  intros [Hlo Hhi]. unfold health_score. cbv zeta.
  destruct (total_attempts (metrics c) =? 0)%N; [split; [discriminate | reflexivity]|].
  set (avg := average_connection_time (metrics c)).
  set (up := connection_uptime (metrics c)).
  set (n := inject_Z (Z.of_N (consecutive_failures (metrics c)))).
  assert (Hn : (0 <= n)%Q) by (unfold n; rewrite <- (Zle_Qle 0); lia).
  assert (Htime : (0 <= (if Qlt_bool 0 avg then py_max 0 (20 - (avg - 2) * 2) else 10) < 24)%Q).
  { destruct (Qlt_bool_spec 0 avg) as [Havg|_]; [|split; [discriminate | reflexivity]].
    destruct (py_max_0 (20 - (avg - 2) * 2)) as [H0 [H|H]]; rewrite H in *; lra. }
  assert (Hfail : (0 <= py_max 0 (20 - n * 5) <= 20)%Q).
  { destruct (py_max_0 (20 - n * 5)) as [H0 [H|H]]; rewrite H in *; lra. }
  assert (Hup : (0 <= (if Qlt_bool 0 up then py_min 20 (up / 300) else 0) <= 20)%Q).
  { destruct (Qlt_bool_spec 0 up) as [Hpos|_]; [|split; discriminate].
    apply py_min_20. apply Qlt_shift_div_l; [reflexivity | lra]. }
  lra.
Qed.

(** X15: the range of the health score.  For a connection the manager has
    run from new, the score [_calculate_device_health] computes is at least
    0 and below 104: the connection-time term reaches almost 24 for average
    connection times under two seconds, so the score can pass 100, and
    such a connection is reachable. *)
Theorem health_score_range (cfg : ConnectionConfig) (ops : list Op) :
  (0 <= health_score (run_ops ops (new_connection cfg)) < 104)%Q
  /\ exists ops' : list Op,
       (100 < health_score (run_ops ops' (new_connection cfg)))%Q
       /\ health_status (health_score (run_ops ops' (new_connection cfg))) = healthy.
Proof.
  split.
  - apply health_score_bounds.
    pose proof (run_ops_consistent ops _ (new_connection_consistent cfg)) as Hc.
    apply consistent_score in Hc as [Hrange _]. exact Hrange.
  - exists [OpAttempt ConnectTrue 100 (201 # 2) 101; OpUptime 6000].
    split; reflexivity.
Qed.

End ManagerFacts.

Module IndicatorFacts.

Import HFP Indicators HFPFacts.
Local Open Scope string_scope.
Local Open Scope Z_scope.

(** *** Indicator events by index *)

(** X16: which indicator a [+CIEV] index reaches.  With [n >= 1]
    indicators registered, an index from 1 to [n] stores the value in the
    indicator registered at that place; an index above [n] changes
    nothing; an index from [1 - n] to 0 is taken as a Python negative
    index and stores the value in the indicator at place [n + index]
    (index 0 reaches the last one); an index of [-n] or below raises
    [IndexError]. *)
Theorem indicator_index_semantics (h : Handler) (i v : Z) :
  let n := length (indicators h) in
  NoDup (map fst (indicators h)) -> (0 < n)%nat ->
  (1 <= i <= Z.of_nat n -> updated_at (Z.to_nat (i - 1)) v h (update_indicator i v h))
  /\ (Z.of_nat n < i -> update_indicator i v h = (Ok tt, h))
  /\ (- Z.of_nat n < i <= 0 ->
      updated_at (Z.to_nat (Z.of_nat n + i - 1)) v h (update_indicator i v h))
  /\ (i <= - Z.of_nat n -> fst (update_indicator i v h) = Raise IndexError).
Proof.
  intros n Hnd Hn.
  destruct (update_indicator_cases h i v Hnd Hn) as (H1 & H2 & _ & H4). fold n in H1, H2, H4.
  split_and!; [exact H1 | exact H2 | | exact H4].
  intros Hi. apply update_indicator_at; [exact Hnd | lia | lia |].
  unfold py_index. rewrite length_map. fold n.
  replace ((0 <=? i - 1) && (i - 1 <? Z.of_nat n)) with false
    by (symmetry; apply andb_false_iff; left; apply Z.leb_gt; lia).
  replace ((- Z.of_nat n <=? i - 1) && (i - 1 <? 0)) with true
    by (symmetry; apply andb_true_iff; split; [apply Z.leb_le | apply Z.ltb_lt]; lia).
  f_equal. lia.
Qed.

Lemma indicator_index_semantics_witness :
  updated_at (Z.to_nat (Z.of_nat (length (indicators two_indicators)) + (-1) - 1)) 3
    two_indicators (update_indicator (-1) 3 two_indicators).
Proof.
  refine (proj1 (proj2 (proj2 (indicator_index_semantics two_indicators (-1) 3 _ _))) _).
  - vm_compute. apply NoDup_cons. split; [|apply NoDup_cons; split; [|apply NoDup_nil; exact I]].
    + intros H. apply list_elem_of_In in H. destruct H as [H|[]]. discriminate H.
    + intros H. apply list_elem_of_In in H. destruct H.
  - vm_compute. lia.
  - vm_compute. split; [reflexivity | discriminate].
Defined.

(** *** What a trace can reach *)

Lemma codecs_of_names l : Forall codec_name (codecs_of l).
Proof.
  induction l as [|c l IH]; cbn [codecs_of]; [apply Forall_nil; exact I|].
  destruct (String.eqb (PyStr.strip c) "1");
    [apply Forall_cons; split; [left; reflexivity | exact IH]|].
  destruct (String.eqb (PyStr.strip c) "2");
    [apply Forall_cons; split; [right; reflexivity | exact IH] | exact IH].
Qed.

Lemma kept_refl h : kept h h.
Proof. split_and!; [reflexivity | left; reflexivity | tauto | tauto]. Qed.

Lemma update_indicator_kept i v h : kept h (snd (update_indicator i v h)).
Proof.
  unfold update_indicator. cbv zeta.
  destruct (_ <=? _); [|apply kept_refl].
  destruct (py_index _ _); [|apply kept_refl].
  split_and!; [reflexivity | left; reflexivity | tauto | tauto].
Qed.

Lemma handle_indicator_event_kept cmd h : kept h (snd (handle_indicator_event cmd h)).
Proof.
  unfold handle_indicator_event. cbv zeta.
  destruct (1 <? _)%nat; [|apply kept_refl].
  destruct (_ =? 2)%nat; [|apply kept_refl].
  destruct (int_or_raise _); [|apply kept_refl].
  destruct (int_or_raise _); [|apply kept_refl].
  apply update_indicator_kept.
Qed.

Lemma handle_outgoing_kept cmd h : kept h (snd (handle_outgoing_command cmd h)).
Proof.
  unfold handle_outgoing_command, settable.
  destruct (PyStr.startswith cmd "AT+BRSF=").
  { destruct (int_or_raise _); [|apply kept_refl].
    split_and!; [reflexivity | right; unfold settable; cbn; auto | tauto | tauto]. }
  destruct (String.eqb cmd "AT+BAC");
    [split_and!; [reflexivity | right; unfold settable; cbn; auto | tauto | tauto]|].
  destruct (String.eqb cmd "AT+CIND=?"); [apply kept_refl|].
  destruct (String.eqb cmd "AT+CIND?"); [apply kept_refl|].
  destruct (String.eqb cmd "AT+CMER");
    [split_and!; [reflexivity | right; unfold settable; cbn; auto | tauto | tauto]|].
  destruct (String.eqb cmd "AT+BCC");
    [split_and!; [reflexivity | right; unfold settable; cbn; auto | tauto | tauto]|].
  apply kept_refl.
Qed.

Lemma handle_incoming_kept cmd h : kept h (snd (handle_incoming_command cmd h)).
Proof.
  unfold handle_incoming_command, settable.
  destruct (PyStr.startswith cmd "+BRSF:").
  { destruct (int_or_raise _); [|apply kept_refl].
    split_and!; [reflexivity | left; reflexivity | tauto | tauto]. }
  destruct (PyStr.startswith cmd "+BAC:").
  { split_and!; [reflexivity | left; reflexivity | tauto |].
    intros _. apply codecs_of_names. }
  destruct (PyStr.startswith cmd "+BCS:").
  { destruct (int_or_raise _) as [codec_id|]; [|apply kept_refl].
    split_and!; [reflexivity | right; unfold settable; cbn; auto | | tauto].
    intros _. cbn [snd set_state set_selected selected_codec].
    destruct (codec_id =? 2); [right | left]; reflexivity. }
  destruct (PyStr.startswith cmd "+CIND:");
    [split_and!; [reflexivity | left; reflexivity | tauto | tauto]|].
  destruct (PyStr.startswith cmd "+CIEV:"); [apply handle_indicator_event_kept|].
  apply kept_refl.
Qed.

Lemma process_at_command_kept cmd resp dir now h :
  kept h (snd (process_at_command cmd resp dir now h)).
Proof.
  unfold process_at_command. cbv zeta.
  destruct (String.eqb dir "TX").
  - exact (handle_outgoing_kept cmd (set_flow _ h)).
  - exact (handle_incoming_kept cmd (set_flow _ h)).
Qed.

Lemma run_trace_snoc steps step h :
  run_trace (steps ++ [step]) h
  = snd (process_at_command (fst (fst step)) "" (snd (fst step)) (snd step)
           (run_trace steps h)).
Proof.
  unfold run_trace. rewrite fold_left_app. destruct step as [[cmd dir] now]. reflexivity.
Qed.

(** X17: what no trace of commands can do.  Starting from a new handler,
    whatever commands are processed in whatever direction, and whether or
    not some of them raise: the role stays; the state is [DISCONNECTED] or
    one of the four states the handlers set, so [CONNECTING] and
    [DISCONNECTING] are never entered; the selected codec is "CVSD" or
    "mSBC" and the list of supported codecs holds no other name. *)
Theorem trace_reach (r : HFPRole) (steps : list Step) :
  let h := run_trace steps (new_handler r) in
  role h = r
  /\ (state h = DISCONNECTED \/ settable (state h))
  /\ codec_name (selected_codec h)
  /\ Forall codec_name (supported_codecs h).
Proof.
  induction steps as [|step steps IH] using rev_ind.
  - split_and!; [reflexivity | left; reflexivity | left; reflexivity |].
    apply Forall_cons. split; [left; reflexivity | apply Forall_nil; exact I].
  - cbv zeta in *. rewrite run_trace_snoc.
    destruct IH as (Hrole & Hstate & Hsel & Hsup).
    destruct (process_at_command_kept (fst (fst step)) "" (snd (fst step)) (snd step)
                (run_trace steps (new_handler r))) as (Kr & Ks & Ksel & Ksup).
    split_and!; [congruence | | exact (Ksel Hsel) | exact (Ksup Hsup)].
    destruct Ks as [Ks|Ks]; [rewrite Ks; exact Hstate | right; exact Ks].
Qed.

(** *** The timing check of [analyze_failure] *)

Lemma fold_left_Qplus l : forall acc, (fold_left Qplus l acc == acc + qsum l)%Q.
Proof.
  unfold qsum. induction l as [|x l IH]; intros acc; cbn [fold_left].
  - ring.
  - rewrite (IH (acc + x)%Q), (IH (0 + x)%Q). ring.
Qed.

Lemma last_cons {A} (l : list A) (a b : A) : List.last (b :: l) a = List.last l b.
Proof.
  revert a b. induction l as [|c l IH]; intros a b; [reflexivity|].
  change (List.last (b :: c :: l) a) with (List.last (c :: l) a).
  rewrite (IH a c), (IH b c). reflexivity.
Qed.

Lemma delays_telescope rest :
  forall a, (qsum (cmd_delays (a :: rest)) == timestamp (List.last rest a) - timestamp a)%Q.
Proof.
  induction rest as [|b rest IH]; intros a.
  - cbn. ring.
  - change (cmd_delays (a :: b :: rest))
      with ((timestamp b - timestamp a)%Q :: cmd_delays (b :: rest)).
    unfold qsum. cbn [fold_left]. rewrite fold_left_Qplus, IH, last_cons. ring.
Qed.

Lemma length_cmd_delays rest : forall a, length (cmd_delays (a :: rest)) = length rest.
Proof.
  induction rest as [|b rest IH]; intros a; [reflexivity|].
  change (cmd_delays (a :: b :: rest))
    with ((timestamp b - timestamp a)%Q :: cmd_delays (b :: rest)).
  cbn [length]. rewrite IH. reflexivity.
Qed.

(** X18: the slow-response issue depends only on the first and the last
    timestamp.  The average gap [analyze_failure] computes over a trace of
    [n >= 2] commands is the time from the first command to the last
    divided by [n - 1], however the gaps are distributed; so the issue
    "Slow command response" is reported exactly when that time exceeds
    [n - 1] seconds, and the average it quotes is that quotient. *)
Theorem slow_response_is_span_over_gaps (h : Handler) :
  (1 < length (at_command_flow h))%nat ->
  let gaps := inject_Z (Z.of_nat (length (at_command_flow h) - 1)) in
  (timing_issues h = [] <-> (span_of (at_command_flow h) <= gaps)%Q)
  /\ forall i, In i (timing_issues h) ->
       exists d, i = SlowCommandResponse d /\ (d == span_of (at_command_flow h) / gaps)%Q.
Proof.
  intros Hlen gaps. unfold timing_issues. cbv zeta.
  replace (1 <? length (at_command_flow h))%nat with true
    by (symmetry; apply Nat.ltb_lt; exact Hlen).
  destruct (at_command_flow h) as [|a [|b rest]] eqn:Hflow; cbn [length] in Hlen; try lia.
  set (flow := a :: b :: rest) in *.
  assert (Hn : length (cmd_delays flow) = length (b :: rest)) by apply length_cmd_delays.
  assert (Hsum : (qsum (cmd_delays flow) == span_of flow)%Q) by apply delays_telescope.
  assert (Hgaps : gaps = inject_Z (Z.of_nat (length (cmd_delays flow)))).
  { unfold gaps. rewrite Hn. cbn [length].
    replace (length flow - 1)%nat with (S (length rest)) by (unfold flow; simpl; lia).
    reflexivity. }
  assert (Hpos : (0 < gaps)%Q).
  { unfold gaps. rewrite <- (Zlt_Qlt 0). unfold flow. simpl. lia. }
  rewrite <- Hgaps.
  assert (Havg : (qsum (cmd_delays flow) / gaps <= 1 <-> span_of flow <= gaps)%Q).
  { rewrite Hsum. split; intros H.
    - apply (Qmult_le_r _ _ (/ gaps)); [apply Qinv_lt_0_compat, Hpos|].
      rewrite Qmult_inv_r by (intros E; rewrite E in Hpos; discriminate). exact H.
    - apply Qle_shift_div_r; [exact Hpos|]. rewrite Qmult_1_l. exact H. }
  destruct (Qle_bool (qsum (cmd_delays flow) / gaps) 1) eqn:E; cbn [negb].
  - split; [|intros i []]. split; [|reflexivity].
    intros _. apply Havg, Qle_bool_iff, E.
  - split.
    + split; [discriminate|]. intros H. apply Havg, Qle_bool_iff in H. congruence.
    + intros i [<-|[]]. eexists. split; [reflexivity|]. rewrite Hsum. reflexivity.
Qed.

Lemma slow_response_is_span_over_gaps_witness :
  let h := run_trace [("AT+BAC", "TX", 0%Q); ("+BAC:1,2", "RX", 1 # 10);
                      ("AT+CIND=?", "TX", 5%Q)] (new_handler HF) in
  let gaps := inject_Z (Z.of_nat (length (at_command_flow h) - 1)) in
  (timing_issues h = [] <-> (span_of (at_command_flow h) <= gaps)%Q)
  /\ forall i, In i (timing_issues h) ->
       exists d, i = SlowCommandResponse d /\ (d == span_of (at_command_flow h) / gaps)%Q.
Proof.
  intros h. refine (slow_response_is_span_over_gaps h _). vm_compute. lia.
Defined.

(** *** Reading a [+CIND:] response *)

Lemma append_cons x (a b : string) : String x a ++ b = String x (a ++ b).
Proof. reflexivity. Qed.

Lemma append_nil_l (b : string) : "" ++ b = b.
Proof. reflexivity. Qed.

(** Push the literal heads of a concatenation outwards. *)
Ltac heads := repeat (rewrite append_cons || rewrite append_nil_l).

Lemma append_assoc (a b c : string) : (a ++ b) ++ c = a ++ (b ++ c).
Proof. induction a as [|x a IH]; heads; [reflexivity | f_equal; exact IH]. Qed.

Lemma append_nil_r (a : string) : a ++ "" = a.
Proof. induction a as [|x a IH]; heads; [reflexivity | f_equal; exact IH]. Qed.

Lemma span_all p s c rest :
  all_chars p s = true -> p c = false ->
  PyStr.span p (s ++ String c rest) = (s, String c rest).
Proof.
  intros Hs Hc. induction s as [|a s IH]; heads; cbn [PyStr.span].
  - rewrite Hc. reflexivity.
  - cbn [all_chars] in Hs. apply andb_true_iff in Hs as [Ha Hs].
    rewrite Ha, (IH Hs). reflexivity.
Qed.

Lemma eqb_empty (s : string) : s <> "" -> String.eqb s "" = false.
Proof. intros H. apply String.eqb_neq. exact H. Qed.

Lemma match_indicator_entry e rest :
  entry_ok e -> match_indicator (match_text e ++ rest) = Some (fst e, snd e, rest).
Proof.
  intros (Hn & Hname & Hr & Hrng). unfold match_text, q.
  rewrite !append_assoc. heads. unfold match_indicator.
  cbn [expect]. rewrite Ascii.eqb_refl. cbn [mbind option_bind].
  rewrite (span_all PyStr.is_word (fst e) dquote _ Hname) by reflexivity.
  rewrite (eqb_empty _ Hn). cbn [expect]. rewrite Ascii.eqb_refl.
  cbn [mbind option_bind expect Ascii.eqb Bool.eqb].
  rewrite (span_all PyStr.is_range_char (snd e) ")"%char _ Hrng) by reflexivity.
  rewrite (eqb_empty _ Hr). reflexivity.
Qed.

Lemma findall_skip s1 s2 : findall (String.length s1) (s1 ++ s2) = findall 0 s2.
Proof.
  induction s1 as [|a s1 IH]; heads; [reflexivity|].
  cbn [String.length findall]. exact IH.
Qed.

Lemma findall_nonquote c s : Ascii.eqb c dquote = false -> findall 0 (String c s) = findall 0 s.
Proof.
  intros Hc. cbn [findall]. unfold match_indicator. cbn [expect]. rewrite Hc. reflexivity.
Qed.

Lemma findall_entry e rest :
  entry_ok e -> findall 0 (cind_entry e ++ rest) = e :: findall 0 rest.
Proof.
  intros He. unfold cind_entry.
  replace (("(" ++ q ++ fst e ++ q ++ ",(" ++ snd e ++ "))") ++ rest)
    with (String "(" (match_text e ++ String ")" rest)).
  2:{ unfold match_text. rewrite !append_assoc. heads. reflexivity. }
  rewrite findall_nonquote by reflexivity.
  pose proof (match_indicator_entry e (String ")" rest) He) as Hm.
  assert (Hbody : exists m', match_text e = String dquote m').
  { unfold match_text, q. heads. eexists. reflexivity. }
  destruct Hbody as (m' & Hm'). rewrite Hm' in Hm |- *. rewrite append_cons in Hm |- *.
  cbn [findall]. rewrite Hm.
  replace (String.length (String dquote (m' ++ String ")" rest))
           - String.length (String ")" rest) - 1)%nat with (String.length m').
  2:{ cbn [String.length]. rewrite StrFacts.length_append. cbn [String.length]. lia. }
  rewrite findall_skip, findall_nonquote by reflexivity. destruct e; reflexivity.
Qed.

Lemma concat_cons2 (sep x y : string) (l : list string) :
  String.concat sep (x :: y :: l) = x ++ sep ++ String.concat sep (y :: l).
Proof. reflexivity. Qed.

Lemma findall_entries es :
  Forall entry_ok es -> findall 0 (String.concat "," (map cind_entry es)) = es.
Proof.
  induction 1 as [|e es He Hes IH]; [reflexivity|].
  destruct es as [|e' es].
  - cbn [map String.concat]. rewrite <- (append_nil_r (cind_entry e)).
    rewrite findall_entry by exact He. reflexivity.
  - cbn [map] in IH |- *. rewrite concat_cons2. heads.
    rewrite findall_entry by exact He. rewrite findall_nonquote by reflexivity.
    rewrite IH. reflexivity.
Qed.

Lemma dict_set_fresh {V} (k : string) (v : V) (d : list (string * V)) :
  ~ In k (map fst d) -> dict_set k v d = (d ++ [(k, v)])%list.
Proof.
  induction d as [|[k' v'] d IH]; intros Hk; [reflexivity|].
  cbn [dict_set]. destruct (String.eqb_spec k k') as [->|Hne].
  - contradiction Hk. left. reflexivity.
  - cbn [app]. rewrite IH; [reflexivity|]. intros H. apply Hk. right. exact H.
Qed.

Lemma register_all es :
  forall d,
    List.NoDup (map fst es) ->
    (forall k, In k (map fst es) -> ~ In k (map fst d)) ->
    fold_left (fun d '(name, range_str) => dict_set name (mkIndicator range_str 0) d) es d
    = (d ++ map registered es)%list.
Proof.
  induction es as [|[name rng] es IH]; intros d Hnd Hfresh.
  - cbn. rewrite app_nil_r. reflexivity.
  - cbn [fold_left map]. inversion Hnd as [|? ? Hnotin Hnd']; subst.
    rewrite dict_set_fresh by (apply Hfresh; left; reflexivity).
    rewrite IH; [rewrite <- app_assoc; reflexivity | exact Hnd' |].
    intros k Hk. rewrite map_app, in_app_iff. intros [H|[<-|[]]].
    + exact (Hfresh k (or_intror Hk) H).
    + exact (Hnotin Hk).
Qed.

(** X19: a [+CIND:] response is read back entry by entry.  For a response
    that lists entries ["name",(range)] with names of word characters and
    ranges of digits, commas and dashes, the pattern of [_parse_indicators]
    finds exactly those names and ranges, in order, and processing the
    response returns normally; on a new handler it registers the indicators
    in that order, each with its range and the value 0, when the names
    differ. *)
Theorem cind_response_registers_entries (entries : list (string * string))
    (r : HFPRole) (resp : string) (now : Q) :
  Forall entry_ok entries ->
  findall 0 (cind_response entries) = entries
  /\ (forall h : Handler,
        fst (process_at_command (cind_response entries) resp "RX" now h) = Ok tt)
  /\ (List.NoDup (map fst entries) ->
      process_at_command (cind_response entries) resp "RX" now (new_handler r)
      = (Ok tt,
         set_indicators (map registered entries)
           (set_flow [mkAT now (PyStr.strip (cind_response entries)) (PyStr.strip resp)
                        "RX" DISCONNECTED] (new_handler r)))).
Proof.
  intros Hok.
  assert (Hfind : findall 0 (cind_response entries) = entries).
  { unfold cind_response. heads.
    do 7 (rewrite findall_nonquote by reflexivity). apply findall_entries, Hok. }
  assert (Hcind : forall h,
            process_at_command (cind_response entries) resp "RX" now h
            = (Ok tt,
               parse_indicators (cind_response entries)
                 (set_flow (at_command_flow h
                            ++ [mkAT now (PyStr.strip (cind_response entries))
                                  (PyStr.strip resp) "RX" (state h)])%list h))).
  { intros h. unfold process_at_command. cbv zeta.
    change (String.eqb "RX" "TX") with false. cbv iota.
    unfold handle_incoming_command.
    replace (PyStr.startswith (cind_response entries) "+BRSF:") with false by reflexivity.
    replace (PyStr.startswith (cind_response entries) "+BAC:") with false by reflexivity.
    replace (PyStr.startswith (cind_response entries) "+BCS:") with false by reflexivity.
    replace (PyStr.startswith (cind_response entries) "+CIND:") with true by reflexivity.
    reflexivity. }
  split_and!.
  - exact Hfind.
  - intros h. rewrite Hcind. reflexivity.
  - intros Hnd. rewrite Hcind. unfold parse_indicators. cbv zeta. rewrite Hfind.
    cbn [indicators set_flow new_handler at_command_flow state app].
    rewrite (register_all entries [] Hnd) by (intros k _ []). reflexivity.
Qed.

Lemma cind_response_registers_entries_witness :
  let entries := [("call", "0,1"); ("callsetup", "0-3"); ("signal", "0-5")] in
  findall 0 (cind_response entries) = entries
  /\ process_at_command (cind_response entries) "OK" "RX" 7 (new_handler HF)
     = (Ok tt,
        set_indicators (map registered entries)
          (set_flow [mkAT 7 (PyStr.strip (cind_response entries)) (PyStr.strip "OK")
                       "RX" DISCONNECTED] (new_handler HF))).
Proof.
  intros entries.
  assert (Hok : Forall entry_ok entries).
  { repeat (apply Forall_cons; split;
            [split_and!; [discriminate | reflexivity | discriminate | reflexivity]|]).
    apply Forall_nil. exact I. }
  assert (Hnd : List.NoDup (map fst entries)).
  { repeat (apply List.NoDup_cons; [cbn; intuition discriminate|]). apply List.NoDup_nil. }
  destruct (cind_response_registers_entries entries HF "OK" 7 Hok) as (Hfind & _ & Hreg).
  split; [exact Hfind | exact (Hreg Hnd)].
Defined.

End IndicatorFacts.

Module MosFacts.

Import SCOMonitor.
Local Open Scope Q_scope.

Lemma sq_nonneg x : 0 <= x * x.
Proof.
  destruct (Qlt_le_dec x 0) as [H|H].
  - assert (E : x * x == (- x) * (- x)) by ring. rewrite E.
    apply Qmult_le_0_compat; lra.
  - apply Qmult_le_0_compat; exact H.
Qed.

(** The polynomial of the E-model on the unclamped range. *)
Lemma polynomial_low r :
  0 <= r -> r <= 100 ->
  988 # 1000 <= 1 + (35 # 1000) * r + (7 # 1000000) * r * (r - 60) * (100 - r).
Proof.
  intros H0 H1.
  assert (H : 0 <= (r - (29 # 9)) * (r - (29 # 9)) * (160 - (58 # 9) - r))
    by (apply Qmult_le_0_compat; [apply sq_nonneg | lra]).
  nra.
Qed.

Lemma polynomial_high r :
  0 <= r -> r <= 100 ->
  1 + (35 # 1000) * r + (7 # 1000000) * r * (r - 60) * (100 - r) <= 45 # 10.
Proof.
  intros H0 H1.
  assert (H : 0 <= (100 - r) * (100 - r) * (r + 50))
    by (apply Qmult_le_0_compat; [apply sq_nonneg | lra]).
  nra.
Qed.

Lemma round_half_even_floor y :
  let f := Qfloor y in
  (round_half_even y = f /\ y <= inject_Z f + (1 # 2))
  \/ (round_half_even y = (f + 1)%Z /\ inject_Z f + (1 # 2) <= y).
Proof.
  intros f. unfold round_half_even. fold f. cbv zeta.
  destruct (Qle_bool (y - inject_Z f) (1 # 2)) eqn:E1.
  - apply Qle_bool_iff in E1.
    destruct (Qle_bool (1 # 2) (y - inject_Z f)) eqn:E2.
    + apply Qle_bool_iff in E2.
      destruct (Z.even f); [left | right]; split; try reflexivity; lra.
    + left. split; [reflexivity | lra].
  - right. split; [reflexivity|].
    destruct (Qlt_le_dec y (inject_Z f + (1 # 2))) as [H|H]; [|exact H].
    assert (H' : y - inject_Z f <= 1 # 2) by lra.
    apply Qle_bool_iff in H'. congruence.
Qed.

Lemma round_half_even_lower y k :
  inject_Z k - (1 # 2) < y -> (k <= round_half_even y)%Z.
Proof.
  intros Hy. pose proof (Qlt_floor y) as Hlt. pose proof (Qfloor_le y) as Hle.
  rewrite inject_Z_plus in Hlt.
  destruct (round_half_even_floor y) as [[-> H]|[-> H]].
  - assert (Hk : inject_Z k < inject_Z (Qfloor y + 1))
      by (rewrite inject_Z_plus; change (inject_Z 1) with 1; lra).
    rewrite <- Zlt_Qlt in Hk. lia.
  - assert (Hk : inject_Z k < inject_Z (Qfloor y + 2))
      by (rewrite inject_Z_plus; change (inject_Z 2) with 2;
          change (inject_Z 1) with 1 in Hlt; lra).
    rewrite <- Zlt_Qlt in Hk. lia.
Qed.

Lemma round_half_even_upper y k :
  y <= inject_Z k -> (round_half_even y <= k)%Z.
Proof.
  intros Hy. pose proof (Qfloor_le y) as Hle.
  destruct (round_half_even_floor y) as [[-> H]|[-> H]].
  - rewrite Zle_Qle. lra.
  - assert (Hk : inject_Z (Qfloor y) < inject_Z k) by lra.
    rewrite <- Zlt_Qlt in Hk. lia.
Qed.

Lemma round2_range x : 988 # 1000 <= x -> x <= 45 # 10 -> 99 # 100 <= round2 x <= 45 # 10.
Proof.
  intros Hlo Hhi. unfold round2.
  assert (H1 : (99 <= round_half_even (x * 100))%Z)
    by (apply round_half_even_lower; change (inject_Z 99) with 99; lra).
  assert (H2 : (round_half_even (x * 100) <= 450)%Z)
    by (apply round_half_even_upper; change (inject_Z 450) with 450; lra).
  rewrite Zle_Qle in H1, H2.
  change (inject_Z 99) with 99 in H1. change (inject_Z 450) with 450 in H2.
  split.
  - apply Qle_shift_div_l; [reflexivity | lra].
  - apply Qle_shift_div_r; [reflexivity | lra].
Qed.

(** X20: the range of the MOS score.  Whatever the loss, the latency and
    the jitter, and whatever value the logarithm takes, [_calculate_mos]
    returns a score from 0.99 to 4.5: the polynomial stays above 0.988 and
    at most 4.5 on the unclamped R-factors from 0 to 100, and rounding to
    two places keeps it within 0.99 and 4.5. *)
Theorem mos_range (np_log : Q -> Q) (loss latency jitter : Q) :
  99 # 100 <= calculate_mos np_log loss latency jitter <= 45 # 10.
Proof.
  unfold calculate_mos. cbv zeta.
  set (r := r_factor np_log loss latency jitter).
  apply round2_range.
  - unfold Qltb, Qgtb.
    destruct (Qle_bool 0 r) eqn:E0; cbn [negb]; [|discriminate].
    destruct (Qle_bool r 100) eqn:E1; cbn [negb]; [|discriminate].
    apply Qle_bool_iff in E0, E1. apply polynomial_low; assumption.
  - unfold Qltb, Qgtb.
    destruct (Qle_bool 0 r) eqn:E0; cbn [negb]; [|discriminate].
    destruct (Qle_bool r 100) eqn:E1; cbn [negb]; [|apply Qle_refl].
    apply Qle_bool_iff in E0, E1. apply polynomial_high; assumption.
Qed.

End MosFacts.

Module PatternReportFacts.

Import PatternMatcher PatternReport PatternMatcherFacts.
Local Open Scope nat_scope.

(** *** The pattern reported as most frequent *)

Lemma head_of_sorted {A} (key : A -> nat * nat) (l : list A) (x : A) :
  head (sorted_desc key l) = Some x ->
  In x l /\ forall y, In y l -> key_le (key y) (key x) = true.
Proof.
  intros Hhead. pose proof (sorted_desc_sorted key l) as Hs.
  destruct (sorted_desc key l) as [|x' rest] eqn:E; [discriminate|].
  inversion Hhead; subst x'. split.
  - apply (sorted_desc_In key). rewrite E. left. reflexivity.
  - intros y Hy. apply (sorted_desc_In key) in Hy. rewrite E in Hy.
    destruct Hy as [<-|Hy].
    + unfold key_le. rewrite Nat.eqb_refl, Nat.leb_refl. apply orb_true_r.
    + inversion Hs as [|? ? _ Hall]; subst.
      rewrite List.Forall_forall in Hall. exact (Hall y Hy).
Qed.

(** X21: the pattern reported as most frequent.  [most_frequent] is [None]
    exactly when no pattern is reported; otherwise it is a reported pattern
    and no reported pattern has a higher count, or the same count and a
    greater length. *)
Theorem most_frequent_is_maximal (self : HexPatternMatcher) (data : list Z) :
  match most_frequent (analyze self data) with
  | None => patterns (analyze self data) = []
  | Some p =>
    In p (patterns (analyze self data))
    /\ forall q, In q (patterns (analyze self data)) ->
         count q <= count p /\ (count q = count p -> length q <= length p)
  end.
Proof.
  unfold analyze. destruct ((List.length data =? 0) || _); cbn [most_frequent patterns];
    [reflexivity|].
  set (found := find_all_patterns self data).
  destruct (head (sorted_desc (fun p => (count p, length p)) found)) as [p|] eqn:Hhead.
  - destruct (head_of_sorted _ _ _ Hhead) as [Hin Hmax]. split.
    + apply sorted_desc_In. exact Hin.
    + intros q Hq. apply sorted_desc_In in Hq. specialize (Hmax q Hq).
      unfold key_le in Hmax. cbn [fst snd] in Hmax.
      apply orb_true_iff in Hmax as [H|H].
      * apply Nat.ltb_lt in H. lia.
      * apply andb_true_iff in H as [H1 H2].
        apply Nat.eqb_eq in H1. apply Nat.leb_le in H2. lia.
  - destruct (sorted_desc _ found); [reflexivity | discriminate].
Qed.

(** *** Coverage *)

Lemma occurs_within data pat pos : occurs data pat pos -> pos + List.length pat <= List.length data.
Proof.
  intros [Hpos Hslice]. apply (f_equal (@List.length Z)) in Hslice.
  unfold slice in Hslice. rewrite length_take, length_drop in Hslice. lia.
Qed.

Lemma recorded_within data p pos :
  recorded data p -> In pos (positions p) -> pos + length p <= List.length data.
Proof.
  intros (_ & _ & Hpos & Hlen) Hin. rewrite Hpos in Hin.
  apply (proj2 (find_pattern_positions_spec data (pattern p))) in Hin.
  apply occurs_within in Hin. lia.
Qed.

Lemma covered_within data (ps : list Pattern) :
  (forall p, In p ps -> recorded data p) ->
  fold_left (fun acc p =>
               fold_left (fun acc pos => acc ∪ pos_range pos (length p)) (positions p) acc)
            ps (∅ : gset nat)
  ⊆ pos_range 0 (List.length data).
Proof.
  intros Hrec.
  apply (fold_left_invariant (fun acc : gset nat => acc ⊆ pos_range 0 (List.length data)));
    [|apply empty_subseteq].
  intros acc p Hp Hacc.
  apply (fold_left_invariant (fun acc : gset nat => acc ⊆ pos_range 0 (List.length data)));
    [|exact Hacc].
  intros acc' pos Hpos Hacc'. apply union_subseteq. split; [exact Hacc'|].
  intros i Hi. apply pos_range_elem in Hi. apply pos_range_elem.
  pose proof (recorded_within data p pos (Hrec p Hp) Hpos). lia.
Qed.

Lemma size_pos_range n : size (pos_range 0 n) = n.
Proof.
  unfold pos_range. rewrite size_list_to_set by apply NoDup_seq. apply length_seq.
Qed.

(** X22: the coverage is a fraction.  For every input the [coverage]
    [analyze] returns lies between 0 and 1: every position a reported
    pattern covers is a position of the data. *)
Theorem coverage_is_a_fraction (self : HexPatternMatcher) (data : list Z) :
  (0 <= coverage (analyze self data) <= 1)%Q.
Proof.
  unfold analyze. destruct ((List.length data =? 0) || _); cbn [coverage];
    [split; discriminate|].
  unfold calculate_coverage. destruct data as [|b data]; [split; discriminate|].
  set (n := List.length (b :: data)).
  match goal with |- context [size ?c] => set (covered := c) end.
  assert (Hsize : size covered <= n).
  { rewrite <- (size_pos_range n). apply subseteq_size. apply covered_within.
    intros p Hp. apply sorted_desc_In in Hp.
    destruct (filter_overlapping_spec (map snd (collect self (b :: data)))) as [Hfound _].
    pose proof (collect_recorded self (b :: data)) as Hrec.
    rewrite List.Forall_forall in Hrec. apply Hrec, Hfound, Hp. }
  assert (Hn : (0 < inject_Z (Z.of_nat n))%Q)
    by (rewrite <- (Zlt_Qlt 0); unfold n; cbn [List.length]; lia).
  split.
  - apply Qle_shift_div_l; [exact Hn|]. rewrite Qmult_0_l, <- (Zle_Qle 0). lia.
  - apply Qle_shift_div_r; [exact Hn|]. rewrite Qmult_1_l, <- Zle_Qle. lia.
Qed.

(** *** The size of a reported pattern *)

Lemma visit_sized self data pattern_len start d :
  min_pattern_length self <= pattern_len <= max_pattern_length self ->
  2 * pattern_len <= List.length data ->
  Forall (sized self data) (map snd d) ->
  Forall (sized self data) (map snd (visit data pattern_len start d)).
Proof.
  intros Hlen Hhalf Hd. unfold visit. cbv zeta.
  destruct (has_key _ d); [exact Hd|].
  destruct (2 <=? _); [|exact Hd].
  rewrite map_app. apply Forall_app. split; [exact Hd|].
  apply Forall_cons. split; [|apply Forall_nil; exact I].
  unfold sized. cbn [snd count positions pattern length hex_pattern frequency].
  split_and!; [lia | lia | exact Hhalf | reflexivity | reflexivity].
Qed.

Lemma collect_sized self data : Forall (sized self data) (map snd (collect self data)).
Proof.
  unfold collect. cbv zeta.
  apply (fold_left_invariant (fun d => Forall (sized self data) (map snd d)));
    [|apply Forall_nil; exact I].
  intros d pattern_len Hlen Hd.
  apply (fold_left_invariant (fun d => Forall (sized self data) (map snd d))); [|exact Hd].
  intros d' start Hstart Hd'.
  unfold range in *. apply in_seq in Hlen.
  pose proof (Nat.div_mod_eq (List.length data) 2).
  pose proof (Nat.mod_upper_bound (List.length data) 2).
  apply visit_sized; [lia | lia | exact Hd'].
Qed.

Lemma bounded_nodup_length (l : list nat) m :
  List.NoDup l -> (forall x, In x l -> x < m) -> List.length l <= m.
Proof.
  intros Hnd Hlt.
  assert (Hincl : incl l (seq 0 m))
    by (intros x Hx; apply in_seq; specialize (Hlt x Hx); lia).
  pose proof (List.NoDup_incl_length Hnd Hincl) as H.
  rewrite List.length_seq in H. exact H.
Qed.

(** X23: the size of a reported pattern.  Every pattern [analyze] reports
    has a length between [min_pattern_length] and [max_pattern_length] and
    at most half the length of the data; its bytes are that many; its
    count is at most the number of windows of that length, so its
    [frequency], the count over that number, is at most 1. *)
Theorem reported_pattern_size (self : HexPatternMatcher) (data : list Z) (p : Pattern) :
  In p (patterns (analyze self data)) ->
  min_pattern_length self <= length p <= max_pattern_length self
  /\ 2 * length p <= List.length data
  /\ List.length (pattern p) = length p
  /\ count p <= List.length data - length p + 1
  /\ (frequency p
      == inject_Z (Z.of_nat (count p))
         / inject_Z (Z.of_nat (List.length data - length p + 1)))%Q
  /\ (frequency p <= 1)%Q.
Proof.
  intros Hp. apply analyze_patterns in Hp as [_ Hp].
  destruct (filter_overlapping_spec (map snd (collect self data))) as [Hfound _].
  apply Hfound in Hp.
  pose proof (collect_recorded self data) as Hrec.
  pose proof (collect_sized self data) as Hsized.
  rewrite List.Forall_forall in Hrec, Hsized.
  pose proof (Hrec p Hp) as Hr. destruct (Hsized p Hp) as (Hlen & Hhalf & _ & Hfreq).
  assert (Hcount : count p <= List.length data - length p + 1).
  { pose proof Hr as (Hc & _ & Hpos & _). rewrite Hc.
    apply bounded_nodup_length.
    - rewrite Hpos. apply NoDup_ListNoDup.
      apply (proj1 (find_pattern_positions_spec data (pattern p))).
    - intros pos Hin. pose proof (recorded_within data p pos Hr Hin). lia. }
  destruct Hr as (_ & _ & _ & Hbytes).
  split_and!; [lia | lia | exact Hhalf | exact Hbytes | exact Hcount
              | rewrite Hfreq; reflexivity |].
  rewrite Hfreq. apply Qle_shift_div_r.
  - rewrite <- (Zlt_Qlt 0). lia.
  - rewrite Qmult_1_l, <- Zle_Qle. lia.
Qed.

Lemma reported_pattern_size_witness :
  let data := [1; 2; 3; 1; 2; 3; 9]%Z in
  let p := mkPattern [1; 2; 3]%Z "010203" [0; 3] 3 2 (2 # 5) in
  In p (patterns (analyze default_matcher data))
  /\ min_pattern_length default_matcher <= length p <= max_pattern_length default_matcher.
Proof.
  intros data p.
  assert (Hin : In p (patterns (analyze default_matcher data))) by (vm_compute; tauto).
  split; [exact Hin|].
  exact (proj1 (reported_pattern_size default_matcher data p Hin)).
Defined.

(** *** Byte-level arithmetic sequences *)

Lemma extend_ge data diff : forall fuel j len, len <= extend fuel data diff j len.
Proof.
  induction fuel as [|fuel IH]; intros j len; cbn [extend]; [lia|].
  destruct (_ && _); [|lia]. specialize (IH (j + 1) (len + 1)). lia.
Qed.

Lemma extend_spec data diff :
  forall fuel j len,
    j <= List.length data -> List.length data < j + fuel ->
    let final := extend fuel data diff j len in
    j + (final - len) <= List.length data
    /\ (forall k, j <= k < j + (final - len) ->
          (byte_at data k - byte_at data (k - 1))%Z = diff)
    /\ (j + (final - len) < List.length data ->
          (byte_at data (j + (final - len)) - byte_at data (j + (final - len) - 1))%Z
          <> diff).
Proof.
  induction fuel as [|fuel IH]; intros j len Hj Hfuel; [lia|].
  cbn [extend]. cbv zeta.
  destruct (Nat.ltb_spec j (List.length data)) as [Hlt|Hge]; cbn [andb].
  - destruct (Z.eqb_spec (byte_at data j - byte_at data (j - 1)) diff) as [Heq|Hne].
    + destruct (IH (j + 1) (len + 1)) as (Hend & Hrun & Hstop); [lia | lia|].
      pose proof (extend_ge data diff fuel (j + 1) (len + 1)) as Hge.
      cbv zeta in Hend, Hrun, Hstop.
      set (final := extend fuel data diff (j + 1) (len + 1)) in *.
      replace (j + (final - len)) with (j + 1 + (final - (len + 1))) by lia.
      split_and!; [exact Hend | | exact Hstop].
      intros k Hk. destruct (Nat.eq_dec k j) as [->|Hkj]; [exact Heq|].
      apply Hrun. lia.
    + rewrite Nat.sub_diag, Nat.add_0_r. split_and!; [lia | intros k Hk; lia |].
      intros _. exact Hne.
  - rewrite Nat.sub_diag, Nat.add_0_r. split_and!; [lia | intros k Hk; lia | lia].
Qed.

Lemma sequence_at_run data i :
  i + 3 <= List.length data -> Forall (maximal_run data) (sequence_at data i).
Proof.
  intros Hi. unfold sequence_at, progression_at. cbv zeta.
  destruct (Z.eqb_spec (byte_at data (i + 1) - byte_at data i)
              (byte_at data (i + 2) - byte_at data (i + 1))) as [Hprog|];
    [|apply Forall_nil; exact I].
  set (diff := (byte_at data (i + 1) - byte_at data i)%Z) in *.
  pose proof (extend_ge data diff (List.length data) (i + 3) 3) as Hge.
  destruct (extend_spec data diff (List.length data) (i + 3) 3) as (Hend & Hrun & Hstop);
    [lia | lia|].
  cbv zeta in Hend, Hrun, Hstop.
  set (len := extend (List.length data) data diff (i + 3) 3) in *.
  replace (i + 3 + (len - 3)) with (i + len) in Hend, Hrun, Hstop by lia.
  destruct (Nat.leb_spec 3 len); [|lia].
  apply Forall_cons. split; [|apply Forall_nil; exact I].
  unfold maximal_run. cbn [start_pos seq_length start_value difference values].
  split_and!; [lia | lia | reflexivity | reflexivity | | exact Hstop].
  intros k Hk. destruct k as [|[|k]].
  - rewrite Nat.add_0_r. reflexivity.
  - replace (i + 1 + 1) with (i + 2) by lia. symmetry. exact Hprog.
  - specialize (Hrun (i + S (S k) + 1)).
    replace (i + S (S k) + 1 - 1) with (i + S (S k)) in Hrun by lia.
    apply Hrun. lia.
Qed.

Lemma sequence_at_start data i :
  map start_pos (sequence_at data i) = if progression_at data i then [i] else [].
Proof.
  unfold sequence_at. cbv zeta. destruct (progression_at data i); [|reflexivity].
  pose proof (extend_ge data (byte_at data (i + 1) - byte_at data i) (List.length data)
                (i + 3) 3) as Hge.
  destruct (Nat.leb_spec 3 (extend (List.length data) data
                              (byte_at data (i + 1) - byte_at data i) (i + 3) 3));
    [reflexivity | lia].
Qed.

Lemma starts_of_flat_map data (l : list nat) :
  map start_pos (flat_map (sequence_at data) l) = List.filter (progression_at data) l.
Proof.
  induction l as [|i l IH]; [reflexivity|].
  cbn [flat_map List.filter]. rewrite map_app, sequence_at_start, IH.
  destruct (progression_at data i); reflexivity.
Qed.

(** X24: the arithmetic sequences of bytes.  [find_sequences] reports one
    sequence of type "arithmetic" for every index at which three
    consecutive bytes are in arithmetic progression, in increasing order
    of the index, so a run of [n] bytes in progression is reported [n - 2]
    times, once from each of its starts.  Every reported sequence has at
    least three bytes, lies within the data, steps by its [difference]
    and cannot be extended to the right. *)
Theorem byte_sequences_are_maximal_runs (data : list Z) :
  map start_pos (byte_sequences data)
  = List.filter (progression_at data) (range 0 (List.length data - 2))
  /\ forall s, In s (byte_sequences data) -> maximal_run data s.
Proof.
  unfold byte_sequences.
  destruct (Nat.ltb_spec (List.length data) 3) as [Hshort|Hlong].
  - split; [|intros s []].
    replace (List.length data - 2) with 0 by lia. reflexivity.
  - split; [apply starts_of_flat_map|].
    intros s Hs. apply in_flat_map in Hs as (i & Hi & Hs).
    unfold range in Hi. apply in_seq in Hi.
    pose proof (sequence_at_run data i) as Hrun.
    rewrite List.Forall_forall in Hrun. apply Hrun; [lia | exact Hs].
Qed.

Lemma byte_sequences_are_maximal_runs_witness :
  let data := [10; 12; 14; 16; 3; 3; 3]%Z in
  let s := mkSequence 0 4 10 2 [10; 12; 14; 16]%Z in
  In s (byte_sequences data) /\ maximal_run data s.
Proof.
  intros data s.
  assert (Hin : In s (byte_sequences data)) by (vm_compute; tauto).
  split; [exact Hin|].
  exact (proj2 (byte_sequences_are_maximal_runs data) s Hin).
Defined.

(** *** Sequences of 16- and 32-bit values *)

Lemma extend_words_spec byte_size data diff :
  forall fuel j len,
    let final := extend_words fuel byte_size data diff j len in
    len <= final
    /\ (len < final -> j + (final - len) * byte_size <= List.length data).
Proof.
  induction fuel as [|fuel IH]; intros j len; cbn [extend_words]; cbv zeta; [lia|].
  destruct (Nat.leb_spec (j + byte_size) (List.length data)) as [Hfit|]; [|lia].
  destruct (_ =? _)%Z; [|lia].
  destruct (IH (j + byte_size) (len + 1)) as [Hge Hend]. cbv zeta in Hge, Hend.
  set (final := extend_words fuel byte_size data diff (j + byte_size) (len + 1)) in *.
  split; [lia|]. intros _.
  destruct (Nat.eq_dec final (len + 1)) as [->|Hne].
  - replace (len + 1 - len) with 1 by lia. lia.
  - specialize (Hend ltac:(lia)).
    replace (final - len) with (S (final - (len + 1))) by lia. lia.
Qed.

Lemma extend_words_stop byte_size data diff :
  0 < byte_size ->
  forall fuel j len,
    List.length data < j + fuel * byte_size ->
    let final := extend_words fuel byte_size data diff j len in
    let j' := j + (final - len) * byte_size in
    List.length data < j' + byte_size
    \/ (word_at byte_size data j' - word_at byte_size data (j' - byte_size))%Z <> diff.
Proof.
  intros Hsize. induction fuel as [|fuel IH]; intros j len Hfuel; cbn [extend_words]; cbv zeta.
  - left. lia.
  - destruct (Nat.leb_spec (j + byte_size) (List.length data)) as [Hfit|Hend].
    + destruct (Z.eqb_spec (word_at byte_size data j - word_at byte_size data (j - byte_size))
                  diff) as [Heq|Hne].
      * destruct (extend_words_spec byte_size data diff fuel (j + byte_size) (len + 1))
          as [Hge _]. cbv zeta in Hge.
        specialize (IH (j + byte_size) (len + 1) ltac:(lia)). cbv zeta in IH.
        set (final := extend_words fuel byte_size data diff (j + byte_size) (len + 1)) in *.
        replace (j + (final - len) * byte_size)
          with (j + byte_size + (final - (len + 1)) * byte_size) by nia.
        exact IH.
      * right. rewrite Nat.sub_diag, Nat.mul_0_l, Nat.add_0_r. exact Hne.
    + left. lia.
Qed.

Lemma in_range_step i stop step :
  0 < step -> In i (range_step stop step) -> i < stop /\ exists k, i = k * step.
Proof.
  intros Hstep Hi. unfold range_step in Hi. apply in_map_iff in Hi as (k & <- & Hk).
  apply in_seq in Hk. split; [|exists k; reflexivity].
  pose proof (Nat.div_mod_eq (stop + step - 1) step) as Hdiv.
  pose proof (Nat.mod_upper_bound (stop + step - 1) step ltac:(lia)) as Hmod.
  nia.
Qed.

(** X28: where a sequence of 16- or 32-bit values can end.  Every entry
    of type "arithmetic_uint16" or "arithmetic_uint32" starts at a multiple
    of the value size and has at least three values, the first two inside
    the data and the third starting inside it, and cannot be extended by
    another whole value; an entry of more than three
    values ends inside the data, but the third value of an entry of
    exactly three may be read from fewer than [byte_size] trailing bytes:
    seven zero bytes give a 16-bit entry at position 2 that ends at
    byte 8. *)
Theorem word_sequences_may_overrun :
  (forall (byte_size : nat) (data : list Z) (w : WordSequence),
      0 < byte_size ->
      In w (word_sequences byte_size data) ->
      3 <= w_length w
      /\ (exists k, w_start_pos w = k * byte_size)
      /\ w_start_pos w + 2 * byte_size < List.length data
      /\ (3 < w_length w -> w_start_pos w + w_length w * byte_size <= List.length data)
      /\ (List.length data < w_start_pos w + w_length w * byte_size + byte_size
          \/ (word_at byte_size data (w_start_pos w + w_length w * byte_size)
              - word_at byte_size data (w_start_pos w + w_length w * byte_size - byte_size))%Z
             <> w_difference w))
  /\ exists (data : list Z) (w : WordSequence),
       In (ArithmeticUint w) (find_sequences data)
       /\ List.length data < w_start_pos w + w_length w * w_byte_size w.
Proof.
  split.
  - intros byte_size data w Hsize Hw. unfold word_sequences in Hw.
    destruct (Nat.leb_spec (byte_size * 3) (List.length data)) as [Hlong|]; [|destruct Hw].
    apply in_flat_map in Hw as (i & Hi & Hw).
    apply in_range_step in Hi as [Hi Hk]; [|exact Hsize].
    unfold word_sequence_at in Hw. cbv zeta in Hw.
    destruct (_ =? _)%Z; [|destruct Hw].
    match type of Hw with context [extend_words ?f ?b ?d ?x ?j ?l] =>
      destruct (extend_words_spec b d x f j l) as [Hge Hend];
      pose proof (extend_words_stop b d x Hsize f j l ltac:(nia)) as Hstop;
      cbv zeta in Hge, Hend, Hstop; set (len := extend_words f b d x j l) in * end.
    destruct (Nat.leb_spec 3 len); [|destruct Hw].
    destruct Hw as [<-|[]]. cbn [w_length w_start_pos w_difference].
    replace (i + 3 * byte_size + (len - 3) * byte_size) with (i + len * byte_size)
      in Hstop by nia.
    split_and!; [lia | exact Hk | lia | | exact Hstop].
    intros Hmore. specialize (Hend Hmore).
    replace (len * byte_size) with (3 * byte_size + (len - 3) * byte_size) by nia. lia.
  - exists [0; 0; 0; 0; 0; 0; 0]%Z, (mkWordSequence 2 3 2 0 0).
    split; [vm_compute; tauto | vm_compute; lia].
Qed.

Lemma word_sequences_may_overrun_witness :
  let data := [1; 0; 2; 0; 3; 0; 4; 0; 9]%Z in
  let w := mkWordSequence 0 4 2 1 1 in
  In w (word_sequences 2 data)
  /\ (3 < w_length w -> w_start_pos w + w_length w * 2 <= List.length data).
Proof.
  intros data w.
  assert (Hin : In w (word_sequences 2 data)) by (vm_compute; tauto).
  split; [exact Hin|].
  exact (proj1 (proj2 (proj2 (proj2 (proj1 word_sequences_may_overrun 2 data w
                                        (Nat.lt_0_succ 1) Hin))))).
Defined.

End PatternReportFacts.

Module InspectorFacts.

Import HFP Inspector.
Local Open Scope string_scope.
Local Open Scope nat_scope.

(** *** The history *)

Lemma add_to_history_keeps_last {A} (max_history : Z) (results : list A) :
  forall packet_history : list A,
    List.length packet_history <= Z.to_nat max_history ->
    let all := (packet_history ++ results)%list in
    fold_left (add_to_history max_history) results packet_history
    = drop (List.length all - Z.to_nat max_history) all.
Proof.
  induction results as [|r results IH]; intros h Hh; cbv zeta.
  - rewrite app_nil_r. replace (List.length h - Z.to_nat max_history) with 0 by lia.
    reflexivity.
  - cbn [fold_left]. unfold add_to_history at 2. cbv zeta.
    assert (Hlen : List.length (h ++ [r]) = List.length h + 1)
      by (rewrite length_app; reflexivity).
    destruct (Z.ltb_spec max_history (Z.of_nat (List.length (h ++ [r])))) as [Hfull|Hroom].
    + assert (HM : List.length h = Z.to_nat max_history) by lia.
      rewrite IH by (rewrite length_drop; lia). cbv zeta.
      assert (Hh1 : List.length (drop 1 (h ++ [r])) = List.length h)
        by (rewrite length_drop; lia).
      rewrite !length_app, Hh1. cbn [List.length].
      replace ((h ++ r :: results)%list) with (((h ++ [r]) ++ results)%list)
        by (rewrite <- app_assoc; reflexivity).
      destruct (h ++ [r])%list as [|x hr] eqn:E; [cbn in Hlen; lia|].
      cbn [drop app]. rewrite drop_0. cbn [List.length] in Hlen.
      replace (List.length h + S (List.length results) - Z.to_nat max_history)
        with (S (List.length h + List.length results - Z.to_nat max_history)) by lia.
      reflexivity.
    + rewrite IH by lia. cbv zeta. rewrite <- app_assoc. reflexivity.
Qed.

(** X25: the history keeps the last results.  After any number of
    inspections on a new inspector, [packet_history] holds the last
    [max_history] results, oldest first, and all of them while there are
    fewer; with a limit of zero or below it stays empty. *)
Theorem history_keeps_last_results {A} (max_history : Z) (results : list A) :
  fold_left (add_to_history max_history) results []
  = drop (List.length results - Z.to_nat max_history) results.
Proof.
  apply (add_to_history_keeps_last max_history results []). cbn. lia.
Qed.

(** *** The statistics *)

(** The flags [_analyze_security] can return. *)
Lemma analyze_security_flags high_entropy data :
  exists e p,
    analyze_security high_entropy data
    = [("encrypted", e); ("authenticated", false); ("contains_key", false);
       ("pairing_request", p)].
Proof.
  unfold analyze_security. cbv zeta.
  destruct (List.length data <? 2); [eexists _, _; reflexivity|].
  destruct ((_ =? 1)%Z || (_ =? 2)%Z); destruct (16 <? List.length data);
    try destruct (high_entropy data); eexists _, _; reflexivity.
Qed.

Lemma count_flags_inspected high_entropy r k :
  inspected high_entropy r ->
  fold_left count_flag (security_flags r)
    [("encrypted", k); ("authenticated", 0); ("pairing_requests", 0)]
  = [("encrypted", if is_encrypted r then k + 1 else k); ("authenticated", 0);
     ("pairing_requests", 0)].
Proof.
  intros [data Hr]. unfold is_encrypted. rewrite Hr.
  destruct (analyze_security_flags high_entropy data) as (e & p & ->).
  destruct e, p; reflexivity.
Qed.

Lemma count_results_inspected high_entropy history :
  Forall (inspected high_entropy) history ->
  forall protocols k,
    snd (fold_left count_result history
           (protocols, [("encrypted", k); ("authenticated", 0); ("pairing_requests", 0)]))
    = [("encrypted", k + List.length (List.filter is_encrypted history));
       ("authenticated", 0); ("pairing_requests", 0)].
Proof.
  induction 1 as [|r history Hr _ IH]; intros protocols k.
  - cbn. rewrite Nat.add_0_r. reflexivity.
  - cbn [fold_left List.filter]. unfold count_result at 2.
    rewrite (count_flags_inspected high_entropy r k Hr), IH.
    destruct (is_encrypted r); cbn [List.length]; [|reflexivity].
    replace (k + 1 + List.length (List.filter is_encrypted history))
      with (k + S (List.length (List.filter is_encrypted history))) by lia.
    reflexivity.
Qed.

(** X26: the pairing requests are never counted.  For a non-empty history
    of inspected packets, whatever their bytes and whatever the entropy
    test says, [get_statistics] reports the number of results in the
    history, counts under "encrypted" the results whose [encrypted] flag
    is set, and reports 0 under "authenticated" and under
    "pairing_requests": the flag [_analyze_security] sets is called
    "pairing_request", which is not a key of the statistics. *)
Theorem pairing_requests_never_counted (high_entropy : list Z -> bool)
    (history : list InspectionResult) :
  Forall (inspected high_entropy) history ->
  history <> [] ->
  exists protocols,
    get_statistics history
    = Stats (List.length history) protocols
        [("encrypted", List.length (List.filter is_encrypted history));
         ("authenticated", 0); ("pairing_requests", 0)]
        (list_sum (map (fun r => List.length (warnings r)) history)).
Proof.
  intros Hall Hne. unfold get_statistics.
  destruct history as [|r0 history0] eqn:E; [contradiction|]. rewrite <- E in *.
  pose proof (count_results_inspected high_entropy history Hall [] 0) as Hsec.
  destruct (fold_left count_result history _) as [protocols security_stats].
  cbn [snd] in Hsec. rewrite Hsec, Nat.add_0_l. exists protocols. reflexivity.
Qed.

Lemma pairing_requests_never_counted_witness :
  let flags := analyze_security (fun _ => false) [1; 0; 7]%Z in
  let history := [mkResult (Some "ATT") [] flags; mkResult (Some "ATT") ["w"] flags] in
  dict_get "pairing_request" flags = Some true
  /\ exists protocols,
       get_statistics history
       = Stats (List.length history) protocols
           [("encrypted", List.length (List.filter is_encrypted history));
            ("authenticated", 0); ("pairing_requests", 0)]
           (list_sum (map (fun r => List.length (warnings r)) history)).
Proof.
  intros flags history. split; [reflexivity|].
  refine (pairing_requests_never_counted (fun _ => false) history _ _).
  - repeat (apply Forall_cons; split; [exists [1; 0; 7]%Z; reflexivity|]).
    apply Forall_nil. exact I.
  - discriminate.
Defined.

(** *** Protocol detection *)

Lemma unpack_H_two (data : list Z) (i : nat) :
  i + 2 <= List.length data -> exists v, FirmwareLoader.unpack_H (slice data i (i + 2)) = Some v.
Proof.
  intros Hlen.
  destruct (lookup_lt_is_Some_2 data i) as [b0 H0]; [lia|].
  destruct (lookup_lt_is_Some_2 data (S i)) as [b1 H1]; [lia|].
  exists (b0 + 256 * b1)%Z. unfold slice. replace (i + 2 - i) with 2 by lia.
  rewrite (drop_S data b0 i H0). cbn [take]. rewrite (drop_S data b1 (S i) H1). reflexivity.
Qed.

(** X29: what protocol detection can answer.  [_detect_protocol] never
    raises; it answers [None] exactly for a packet without data that is
    not an advertisement, and otherwise one of "ADV", "L2CAP_ATT",
    "L2CAP_SIG", "ATT" and "UNKNOWN".  A first byte from 0x01 to 0x1E is
    never answered with "UNKNOWN", so the check for the Security Manager
    opcodes 0x01 to 0x06 that follows the ATT check never decides
    anything, and no packet is labelled as SMP. *)
Theorem detect_protocol_answers (packet_type : string) (data : list Z) :
  exists r,
    detect_protocol packet_type data = Ok r
    /\ (r = None <-> packet_type <> "advertisement" /\ data = [])
    /\ (forall l, r = Some l -> In l labels)
    /\ (forall first rest,
          packet_type <> "advertisement" -> data = first :: rest ->
          (1 <= first <= 0x1E)%Z -> r <> Some "UNKNOWN").
Proof.
  unfold detect_protocol, labels.
  destruct (String.eqb_spec packet_type "advertisement") as [Hadv|Hadv].
  { eexists. split; [reflexivity|]. split_and!.
    - split; [discriminate | intros [H _]; contradiction].
    - intros l H. inversion H. cbn. tauto.
    - intros first rest H. contradiction. }
  destruct data as [|first rest].
  { eexists. split; [reflexivity|]. split_and!.
    - tauto.
    - discriminate.
    - discriminate. }
  change (List.length (first :: rest) <? 1) with false. cbv iota zeta.
  change (default 0%Z ((first :: rest) !! 0)) with first.
  set (answer := if ((1 <=? first) && (first <=? 30))%Z || (first =? 82)%Z || (first =? 210)%Z
                 then Some "ATT"
                 else if existsb (Z.eqb first) [1; 2; 3; 4; 5; 6]%Z && (first =? 1)%Z
                      then Some "ATT" else Some "UNKNOWN").
  assert (Hanswer : (exists l, answer = Some l /\ In l labels)
                    /\ ((1 <= first <= 0x1E)%Z -> answer <> Some "UNKNOWN")).
  { unfold answer, labels. split.
    - destruct (_ || _); [eexists; split; [reflexivity | cbn; tauto]|].
      destruct (_ && _); eexists; (split; [reflexivity | cbn; tauto]).
    - intros Hb.
      replace ((1 <=? first) && (first <=? 30))%Z with true
        by (symmetry; apply andb_true_iff; lia).
      discriminate. }
  destruct Hanswer as [(la & Hla & Hin) Hatt]. clearbody answer.
  assert (Hrest : exists r, Ok answer = (Ok r : result FirmwareLoader.LoaderError _)
            /\ (r = None <-> packet_type <> "advertisement" /\ first :: rest = [])
            /\ (forall l, r = Some l -> In l ["ADV"; "L2CAP_ATT"; "L2CAP_SIG"; "ATT"; "UNKNOWN"])
            /\ (forall first0 rest0, packet_type <> "advertisement" ->
                  first :: rest = first0 :: rest0 -> (1 <= first0 <= 0x1E)%Z ->
                  r <> Some "UNKNOWN")).
  { exists answer. split; [reflexivity|]. split_and!.
    - rewrite Hla. split; [discriminate | intros [_ H]; discriminate].
    - intros l Hl. rewrite Hla in Hl. inversion Hl; subst. exact Hin.
    - intros first0 rest0 _ E Hb. inversion E; subst. apply Hatt, Hb. }
  assert (Hlabel : forall label, In label ["ADV"; "L2CAP_ATT"; "L2CAP_SIG"; "ATT"; "UNKNOWN"] ->
            label <> "UNKNOWN" ->
            exists r, Ok (Some label) = (Ok r : result FirmwareLoader.LoaderError _)
            /\ (r = None <-> packet_type <> "advertisement" /\ first :: rest = [])
            /\ (forall l, r = Some l -> In l ["ADV"; "L2CAP_ATT"; "L2CAP_SIG"; "ATT"; "UNKNOWN"])
            /\ (forall first0 rest0, packet_type <> "advertisement" ->
                  first :: rest = first0 :: rest0 -> (1 <= first0 <= 0x1E)%Z ->
                  r <> Some "UNKNOWN")).
  { intros label Hlabel Hnot. exists (Some label). split; [reflexivity|]. split_and!.
    - split; [discriminate | intros [_ H]; discriminate].
    - intros l Hl. inversion Hl; subst. exact Hlabel.
    - intros first0 rest0 _ _ _ E. inversion E. contradiction. }
  destruct (Nat.leb_spec 4 (List.length (first :: rest))) as [Hlen|]; [|exact Hrest].
  destruct (unpack_H_two (first :: rest) 2 Hlen) as [cid Hcid].
  change (2 + 2) with 4 in Hcid. rewrite Hcid.
  destruct (cid =? 4)%Z; [apply Hlabel; [cbn; tauto | discriminate]|].
  destruct (cid =? 5)%Z; [|exact Hrest].
  destruct (unpack_H_two (first :: rest) 0 ltac:(lia)) as [len Hlen2].
  change (0 + 2) with 2 in Hlen2. rewrite Hlen2.
  destruct ((0 <? len)%Z && (len <? 100)%Z);
    [apply Hlabel; [cbn; tauto | discriminate] | exact Hrest].
Qed.

End InspectorFacts.
